(** * The phone advisor's question-answering workflow (langgraph_agent.py)

    A shallow embedding of [PhoneRAGGraph]: the SQL sanitizer [_clean_sql],
    the five nodes of the workflow, the two routing functions, the graph
    built by [_build_graph], and [ask] / [get_conversation_history] on top
    of the in-memory checkpointer.

    Conventions.
    - A Python [str] is a Rocq [string] with one [ascii] per character, so
      the development covers text whose code points are below 256; [len]
      is [String.length].
    - The language model, the catalog store, [json.dumps] and [str] of a
      message object are not code of this repository: they are fields of
      the agent record that every node receives as [self]. Each of the
      first three can raise.
    - A call that can raise returns an [Outcome]; the calls made to the
      model and to the store are logged, in order, by the [Run] monad. *)

From stdpp Require Import gmap strings list.
From Stdlib Require Import Ascii String Lia.
From Stdlib Require Import DecimalString.

Open Scope string_scope.

(* ===================================================================== *)
(** ** Python string primitives used by the agent *)
(* ===================================================================== *)

Module Py.

(** [str.isspace] on one character: the ASCII white space of CPython
    (tab to carriage return, the four separators 28-31, space) and the two
    Latin-1 ones (next line 133, no-break space 160). *)
Definition isspace (c : ascii) : bool :=
  let n := nat_of_ascii c in
  (((9 <=? n) && (n <=? 13)) || ((28 <=? n) && (n <=? 32))
   || (n =? 133) || (n =? 160))%nat.

(** [s.lstrip(chars)] with the set of characters given as a predicate. *)
Fixpoint lstrip (p : ascii -> bool) (s : string) : string :=
  match s with
  | EmptyString => EmptyString
  | String c s' => if p c then lstrip p s' else s
  end.

(** [s.rstrip(chars)]. *)
Fixpoint rstrip (p : ascii -> bool) (s : string) : string :=
  match s with
  | EmptyString => EmptyString
  | String c s' =>
      match rstrip p s' with
      | EmptyString => if p c then EmptyString else String c EmptyString
      | r => String c r
      end
  end.

(** [s.strip()]: white space removed at both ends. *)
Definition strip (s : string) : string := rstrip isspace (lstrip isspace s).

(** First and last character, when there is one. *)
Definition first_char (s : string) : option ascii :=
  match s with
  | EmptyString => None
  | String c _ => Some c
  end.

Fixpoint last_char (s : string) : option ascii :=
  match s with
  | EmptyString => None
  | String c EmptyString => Some c
  | String _ s' => last_char s'
  end.

(** [o] holds a character that satisfies [p]. *)
Definition char_is (p : ascii -> bool) (o : option ascii) : bool :=
  match o with
  | Some c => p c
  | None => false
  end.

(** [s.startswith(p)]. *)
Fixpoint startswith (p s : string) : bool :=
  match p, s with
  | EmptyString, _ => true
  | String a p', String b s' => Ascii.eqb a b && startswith p' s'
  | String _ _, EmptyString => false
  end.

(** [sub in s]. *)
Fixpoint contains (sub s : string) : bool :=
  startswith sub s ||
  match s with
  | EmptyString => false
  | String _ s' => contains sub s'
  end.

(** Every character of [s] satisfies [p]. *)
Fixpoint all_chars (p : ascii -> bool) (s : string) : bool :=
  match s with
  | EmptyString => true
  | String c s' => p c && all_chars p s'
  end.

(** [sep.join(parts)]. *)
Fixpoint join (sep : string) (parts : list string) : string :=
  match parts with
  | [] => ""
  | [p] => p
  | p :: rest => p ++ sep ++ join sep rest
  end.

(** Truth value of a string: the empty string is false. *)
Definition truthy (s : string) : bool :=
  match s with
  | EmptyString => false
  | String _ _ => true
  end.

Definition nl : string := String (ascii_of_nat 10) EmptyString.

(** A text given line by line. *)
Definition text (ls : list string) : string := join nl ls.

End Py.

(* ===================================================================== *)
(** ** [_clean_sql] *)
(* ===================================================================== *)

Definition is_backtick (c : ascii) : bool := Ascii.eqb c "`".
Definition is_semicolon (c : ascii) : bool := Ascii.eqb c ";".

(** The three letters of the optional group [(?:sql)?] under
    [re.IGNORECASE]. *)
Definition is_sql (a b c : ascii) : bool :=
  (Ascii.eqb a "s" || Ascii.eqb a "S")
  && (Ascii.eqb b "q" || Ascii.eqb b "Q")
  && (Ascii.eqb c "l" || Ascii.eqb c "L").

(** [re.sub(r"```(?:sql)?|```", "", sql_text, flags=re.IGNORECASE)].

    The scan goes left to right over non-overlapping matches. At a
    position that starts with three backticks the first alternative
    matches, and its greedy optional group takes a following [sql] in any
    letter case; the second alternative is never needed. Every other
    character is copied. *)
Fixpoint remove_fences (s : string) : string :=
  match s with
  | EmptyString => EmptyString
  | String c1 s1 =>
      match s1 with
      | String c2 (String c3 s3) =>
          if is_backtick c1 && is_backtick c2 && is_backtick c3 then
            match s3 with
            | String a (String b (String c s6)) =>
                if is_sql a b c then remove_fences s6 else remove_fences s3
            | _ => remove_fences s3
            end
          else String c1 (remove_fences s1)
      | _ => String c1 (remove_fences s1)
      end
  end.

(** [sql.strip().rstrip(";")] after the fences are gone. *)
Definition _clean_sql (sql_text : string) : string :=
  let sql := remove_fences sql_text in
  let sql := Py.rstrip is_semicolon (Py.strip sql) in
  sql.

(** The text starts with three backticks. *)
Definition fence_at (s : string) : bool :=
  match s with
  | String c1 (String c2 (String c3 _)) =>
      is_backtick c1 && is_backtick c2 && is_backtick c3
  | _ => false
  end.

(** The text has three backticks in a row somewhere. *)
Fixpoint has_fence (s : string) : bool :=
  match s with
  | EmptyString => false
  | String _ s' => fence_at s || has_fence s'
  end.

(** What follows a fence once its optional language tag is taken. *)
Definition after_fence (s : string) : string :=
  match s with
  | String a (String b (String c s')) =>
      if is_sql a b c then s' else s
  | _ => s
  end.

(** The text is the language tag: [sql] in some letter case. *)
Definition is_sql_tag (tag : string) : bool :=
  match tag with
  | String a (String b (String c EmptyString)) => is_sql a b c
  | _ => false
  end.

(** The text begins with the language tag. *)
Definition starts_with_tag (s : string) : bool :=
  match s with
  | String a (String b (String c _)) => is_sql a b c
  | _ => false
  end.

(** The sanitizer as the specification words it: fences removed, white
    space trimmed, one trailing semicolon dropped when there is one. *)
Definition drop_one_semicolon (s : string) : string :=
  match Py.last_char s with
  | Some c =>
      if is_semicolon c then String.substring 0 (String.length s - 1) s else s
  | None => s
  end.

Definition sanitize_as_specified (raw : string) : string :=
  drop_one_semicolon (Py.strip (remove_fences raw)).

(* ===================================================================== *)
(** ** Messages and the [add_messages] reducer *)
(* ===================================================================== *)

(** [HumanMessage], [AIMessage] and [SystemMessage] are [BaseMessage]s
    that differ in their [type]. A message id is a UUID string in the
    library; here it is a natural number. *)
Inductive MessageType := human | ai | system.

Record BaseMessage := mkMessage {
  type : MessageType;
  content : string;
  msg_id : option nat
}.

Definition HumanMessage (c : string) : BaseMessage := mkMessage human c None.
Definition AIMessage (c : string) : BaseMessage := mkMessage ai c None.
Definition SystemMessage (c : string) : BaseMessage := mkMessage system c None.

#[global] Instance MessageType_eq_dec : EqDecision MessageType.
Proof. solve_decision. Defined.

(** [isinstance(m, HumanMessage)]. *)
Definition is_human (m : BaseMessage) : bool :=
  match type m with
  | human => true
  | _ => false
  end.

Definition ids_of (ms : list BaseMessage) : list nat := omap msg_id ms.

(** [uuid.uuid4()]: an id that no message at hand carries. *)
Definition uuid4 (used : list nat) : nat := S (list_max used).

Definition with_id (m : BaseMessage) (i : nat) : BaseMessage :=
  mkMessage (type m) (content m) (Some i).

(** [for m in ms: if m.id is None: m.id = str(uuid.uuid4())]. *)
Fixpoint assign_ids (used : list nat) (ms : list BaseMessage)
  : list BaseMessage * list nat :=
  match ms with
  | [] => ([], used)
  | m :: ms' =>
      match msg_id m with
      | Some _ =>
          let '(r, u) := assign_ids used ms' in (m :: r, u)
      | None =>
          let i := uuid4 used in
          let '(r, u) := assign_ids (i :: used) ms' in (with_id m i :: r, u)
      end
  end.

(** [merged_by_id.get(i)]: the position the dictionary holds for id [i],
    which is the last one that carries it. *)
Fixpoint index_by_id (i : nat) (ms : list BaseMessage) : option nat :=
  match ms with
  | [] => None
  | m :: ms' =>
      match index_by_id i ms' with
      | Some k => Some (S k)
      | None => if decide (msg_id m = Some i) then Some 0 else None
      end
  end.

(** One round of the merge loop: a message whose id is already present
    replaces the one in place, any other message is appended. *)
Definition merge_message (merged : list BaseMessage) (m : BaseMessage)
  : list BaseMessage :=
  match msg_id m with
  | Some i =>
      match index_by_id i merged with
      | Some k => <[k := m]> merged
      | None => (merged ++ [m])%list
      end
  | None => (merged ++ [m])%list
  end.

(** [langgraph.graph.message.add_messages(left, right)] with [left] the
    channel's value and [right] the write, on message objects (the
    program builds no [RemoveMessage]): the messages without an id get a
    fresh one, then the written messages are merged in by id. *)
Definition add_messages (old new : list BaseMessage) : list BaseMessage :=
  let '(l, used) := assign_ids (ids_of old ++ ids_of new)%list old in
  let '(r, _) := assign_ids used new in
  fold_left merge_message r l.

(* ===================================================================== *)
(** ** [RAGState] and node updates *)
(* ===================================================================== *)

(** A value of a result row as the driver hands it over: [None], an
    [int], a [str], or a [datetime] for the [TIMESTAMP] columns
    [created_at] and [updated_at] of the table. *)
Inductive SqlValue :=
  | SqlNull
  | SqlInt (z : Z)
  | SqlText (s : string)
  | SqlTimestamp (iso : string).

(** One result row: [dict(zip(columns, row))]. *)
Definition Row : Type := list (string * SqlValue).

(** The channels of the state graph. [messages] is reduced with
    [add_messages] and starts as the empty list; every other channel keeps
    the last value written and is [None] until a first write, in which
    case the key is missing from the dictionary a node receives. *)
Record RAGState := mkState {
  messages : list BaseMessage;
  question : option string;
  sql_query : option string;
  db_results : option (list Row);
  final_answer : option string;
  error : option string
}.

Definition empty_state : RAGState := mkState [] None None None None None.

(** The dictionary a node returns: the channels it writes. *)
Record Update := mkUpdate {
  u_messages : option (list BaseMessage);
  u_question : option string;
  u_sql_query : option string;
  u_db_results : option (list Row);
  u_final_answer : option string;
  u_error : option string
}.

Definition no_update : Update := mkUpdate None None None None None None.

(** The dictionaries the nodes return. *)
Definition question_update (question : string) : Update :=
  mkUpdate None (Some question) None None None None.
Definition sql_update (sql_query : string) : Update :=
  mkUpdate None None (Some sql_query) None None None.
Definition results_update (results : list Row) : Update :=
  mkUpdate None None None (Some results) None None.
Definition error_update (error : string) : Update :=
  mkUpdate None None None None None (Some error).
Definition answer_update (answer : string) (message : BaseMessage) : Update :=
  mkUpdate (Some [message]) None None None (Some answer) None.

(** A last-value channel after a step. *)
Definition last_value {A} (new old : option A) : option A :=
  match new with
  | Some v => Some v
  | None => old
  end.

Definition apply_update (u : Update) (st : RAGState) : RAGState :=
  {| messages :=
       match u_messages u with
       | Some new => add_messages (messages st) new
       | None => messages st
       end;
     question := last_value (u_question u) (question st);
     sql_query := last_value (u_sql_query u) (sql_query st);
     db_results := last_value (u_db_results u) (db_results st);
     final_answer := last_value (u_final_answer u) (final_answer st);
     error := last_value (u_error u) (error st) |}.

(* ===================================================================== *)
(** ** Outcomes, the call log and the [Run] monad *)
(* ===================================================================== *)

(** A Python call returns a value or raises; an exception is kept as its
    text, [str(e)]. *)
Inductive Outcome (A : Type) :=
  | Returned (a : A)
  | Raised (e : string).
Arguments Returned {A} a.
Arguments Raised {A} e.

(** The calls that leave the process. *)
Inductive Call :=
  | LlmCall (prompt : list BaseMessage)
  | DbCall (query : string).

(** A computation that logs its external calls and may raise. *)
Definition Run (A : Type) : Type := list Call -> list Call * Outcome A.

Definition ret {A} (a : A) : Run A := fun log => (log, Returned a).

Definition raise {A} (e : string) : Run A := fun log => (log, Raised e).

Definition bind {A B} (c : Run A) (k : A -> Run B) : Run B :=
  fun log =>
    match c log with
    | (log', Returned a) => k a log'
    | (log', Raised e) => (log', Raised e)
    end.

(** [try: c  except Exception as e: h(str(e))]. *)
Definition try_except {A} (c : Run A) (h : string -> Run A) : Run A :=
  fun log =>
    match c log with
    | (log', Returned a) => (log', Returned a)
    | (log', Raised e) => h e log'
    end.

(** An external call: logged, then its outcome. *)
Definition external {A} (call : Call) (result : Outcome A) : Run A :=
  fun log => ((log ++ [call])%list, result).

(** A call that stays inside the process: its outcome, nothing logged. *)
Definition internal {A} (result : Outcome A) : Run A :=
  fun log => (log, result).

(** [d[key]] on a state dictionary; [str] of a [KeyError] is the [repr]
    of the key. *)
Definition getitem {A} (key : string) (o : option A) : Run A :=
  match o with
  | Some v => ret v
  | None => raise ("'" ++ key ++ "'")
  end.

Notation "'let*' x ':=' c 'in' k" := (bind c (fun x => k))
  (at level 10, x pattern, c at level 100, k at level 200).

(* ===================================================================== *)
(** ** The agent *)
(* ===================================================================== *)

Record FewShot := mkFewShot {
  user_question : string;
  sql_schema : string
}.

(** [self] together with the library functions the nodes call:
    [llm] is [self.llm.invoke(messages).content], [db] is
    [self.db.execute_query], [examples] is [self.examples], [json_dumps]
    is [json.dumps(results, indent=2)], which raises [TypeError] on a
    value it cannot serialize, and [str_message] is [str] applied to a
    message object. *)
Record PhoneRAGGraph := mkAgent {
  llm : list BaseMessage -> Outcome string;
  db : string -> Outcome (list Row);
  examples : list FewShot;
  json_dumps : list Row -> Outcome string;
  str_message : BaseMessage -> string
}.

Definition _load_schema : string := Py.text [
  "";
  "        Table: samsung_phones";
  "        ";
  "        Columns:";
  "        - id: integer (primary key)";
  "        - name: varchar (phone model name)";
  "        - url: text (product page URL)";
  "        - image_url: text (phone image URL)";
  "        - launch_announced: varchar (announcement date)";
  "        - launch_status: varchar (availability status)";
  "        - network_technology: text (network types)";
  "        - network_5g_bands: text (5G band support)";
  "        - network_4g_bands: text (4G/LTE bands)";
  "        - body_dimensions: varchar (physical dimensions)";
  "        - body_weight: varchar (weight in grams)";
  "        - display_type: text (screen technology)";
  "        - display_size: varchar (screen size in inches)";
  "        - display_resolution: varchar (screen resolution)";
  "        - platform_os: text (operating system)";
  "        - platform_chipset: text (processor chipset)";
  "        - platform_cpu: text (CPU details)";
  "        - platform_gpu: text (GPU details)";
  "        - memory_internal: text (storage options)";
  "        - main_camera: text (rear camera specs)";
  "        - main_camera_features: text (camera features)";
  "        - main_camera_video: text (video recording capabilities)";
  "        - selfie_camera: text (front camera specs)";
  "        - battery_type: text (battery capacity)";
  "        - battery_charging: text (charging capabilities)";
  "        - misc_price: text (price information)";
  "        - misc_colors: text (available colors)";
  "        "
].

(** [_load_examples]: the content of [few_shot.json] when the file is
    there, the two built-in examples otherwise. *)
Definition _load_examples (few_shot_json : option (list FewShot))
  : list FewShot :=
  match few_shot_json with
  | Some exs => exs
  | None =>
      [ mkFewShot "Which phones have 5G?"
          "SELECT name, network_5g_bands FROM samsung_phones WHERE network_5g_bands != '' AND network_5g_bands IS NOT NULL LIMIT 5";
        mkFewShot "Compare Galaxy S25 and S24 cameras"
          "SELECT name, main_camera, selfie_camera, main_camera_features FROM samsung_phones WHERE name ILIKE '%Galaxy S25%' OR name ILIKE '%Galaxy S24%'" ]
  end.

(** *** Nodes *)

(** Extract question from messages. [messages[-1]] raises on an empty
    list. *)
Definition extract_question_node (self : PhoneRAGGraph) (state : RAGState)
  : Run Update :=
  let messages := messages state in
  match last messages with
  | None => raise "list index out of range"
  | Some last_message =>
      let question :=
        if is_human last_message then content last_message
        else str_message self last_message in
      ret (question_update question)
  end.

Definition examples_text (self : PhoneRAGGraph) : string :=
  Py.join (Py.nl ++ Py.nl)
    (map (fun ex =>
            "Question: " ++ user_question ex ++ Py.nl
            ++ "SQL: " ++ sql_schema ex)
         (examples self)).

Definition sql_prompt (self : PhoneRAGGraph) (question : string) : string :=
  Py.text [
    "";
    "You are an expert at converting natural language questions into PostgreSQL queries.";
    "";
    "DATABASE SCHEMA:";
    _load_schema;
    "";
    "EXAMPLE QUERIES:";
    examples_text self;
    "";
    "RULES:";
    "1. Generate syntactically correct PostgreSQL only";
    "2. Use ILIKE for case-insensitive string matching";
    "3. Include LIMIT 5 unless specified otherwise";
    "4. Return ONLY the SQL query, no explanations or markdown";
    "5. Handle NULL values appropriately";
    "6. Use proper WHERE clauses for filtering";
    "";
    "USER QUESTION:";
    question;
    "";
    "SQL QUERY:"
  ].

Definition sql_messages (self : PhoneRAGGraph) (question : string)
  : list BaseMessage :=
  [ SystemMessage "You are a SQL expert. Generate valid PostgreSQL queries.";
    HumanMessage (sql_prompt self question) ].

(** Generate SQL query from question. *)
Definition generate_sql_node (self : PhoneRAGGraph) (state : RAGState)
  : Run Update :=
  let* question := getitem "question" (question state) in
  let messages := sql_messages self question in
  let* response := external (LlmCall messages) (llm self messages) in
  let sql_query := _clean_sql response in
  ret (sql_update sql_query).

(** Execute SQL query against database. *)
Definition execute_query_node (self : PhoneRAGGraph) (state : RAGState)
  : Run Update :=
  let* sql_query := getitem "sql_query" (sql_query state) in
  try_except
    (let* results := external (DbCall sql_query) (db self sql_query) in
     ret (results_update results))
    (fun e => ret (error_update ("Database error: " ++ e))).

Definition no_results_answer : string :=
  "I couldn't find any phones matching your criteria. Try rephrasing your question or asking about different specifications.".

(** The prompt of [generate_answer_node], with [results_json] the text
    that [json.dumps(results, indent=2)] returned. *)
Definition answer_prompt (question results_json : string) : string :=
  Py.text [
    "";
    "You are a helpful Samsung smartphone expert assistant.";
    "";
    "USER QUESTION:";
    question;
    "";
    "DATABASE RESULTS:";
    results_json;
    "";
    "TASK:";
    "- Explain the results in clear, conversational English";
    "- Highlight key specifications and differences";
    "- Be specific with numbers and details";
    "- If comparing phones, present side-by-side comparisons";
    "- Keep response concise but informative (100-200 words)";
    "- Don't mention SQL or databases";
    "";
    "ANSWER:"
  ].

Definition answer_messages (question results_json : string)
  : list BaseMessage :=
  [ SystemMessage "You are a knowledgeable phone advisor who explains specifications clearly.";
    HumanMessage (answer_prompt question results_json) ].

(** Generate natural language answer from results. The prompt is built
    first, so [json.dumps] runs, and can raise, before the model is
    called. *)
Definition generate_answer_node (self : PhoneRAGGraph) (state : RAGState)
  : Run Update :=
  let* question := getitem "question" (question state) in
  let* results := getitem "db_results" (db_results state) in
  match results with
  | [] =>
      let answer := no_results_answer in
      ret (answer_update answer (AIMessage answer))
  | _ :: _ =>
      let* results_json := internal (json_dumps self results) in
      let messages := answer_messages question results_json in
      let* response := external (LlmCall messages) (llm self messages) in
      let answer := Py.strip response in
      ret (answer_update answer (AIMessage answer))
  end.

Definition error_answer (error : string) : string :=
  "I encountered an issue processing your question: " ++ error
  ++ Py.nl ++ Py.nl
  ++ "Please try rephrasing your question or ask something else about Samsung phones.".

(** What [handle_error_node] returns for [state.get("error", ...)]. *)
Definition error_reply (recorded : option string) : Update :=
  let error := default "Unknown error occurred" recorded in
  let answer := error_answer error in
  answer_update answer (AIMessage answer).

(** Handle errors in the workflow. *)
Definition handle_error_node (self : PhoneRAGGraph) (state : RAGState)
  : Run Update :=
  ret (error_reply (error state)).

(** Check if SQL query was generated. *)
Definition check_sql_valid (state : RAGState) : string :=
  let sql_query := default "" (sql_query state) in
  if Py.truthy sql_query && (10 <? String.length sql_query)%nat
  then "valid" else "invalid".

(** The truth value of [state.get("error")]. *)
Definition has_error (state : RAGState) : bool :=
  match error state with
  | Some e => Py.truthy e
  | None => false
  end.

(** Check if query execution was successful. *)
Definition check_results (state : RAGState) : string :=
  if has_error state then "error" else "success".

(** *** The graph *)

Inductive Node :=
  | START
  | extract_question
  | generate_sql
  | execute_query
  | generate_answer
  | handle_error
  | END.

Inductive Edge :=
  | add_edge (target : Node)
  | add_conditional_edges (path : RAGState -> string)
      (path_map : list (string * Node)).

(** [graph.add_node]: the function behind each node. *)
Definition node_action (self : PhoneRAGGraph) (n : Node)
  : RAGState -> Run Update :=
  match n with
  | extract_question => extract_question_node self
  | generate_sql => generate_sql_node self
  | execute_query => execute_query_node self
  | generate_answer => generate_answer_node self
  | handle_error => handle_error_node self
  | START | END => fun _ => ret no_update
  end.

(** [_build_graph]: the edge that leaves each node. *)
Definition _build_graph (n : Node) : option Edge :=
  match n with
  | START => Some (add_edge extract_question)
  | extract_question => Some (add_edge generate_sql)
  | generate_sql =>
      Some (add_conditional_edges check_sql_valid
              [ ("valid", execute_query); ("invalid", handle_error) ])
  | execute_query =>
      Some (add_conditional_edges check_results
              [ ("success", generate_answer); ("error", handle_error) ])
  | generate_answer => Some (add_edge END)
  | handle_error => Some (add_edge END)
  | END => None
  end.

Fixpoint path_lookup (key : string) (path_map : list (string * Node))
  : option Node :=
  match path_map with
  | [] => None
  | (k, n) :: rest => if String.eqb k key then Some n else path_lookup key rest
  end.

Definition next_node (n : Node) (state : RAGState) : option Node :=
  match _build_graph n with
  | Some (add_edge target) => Some target
  | Some (add_conditional_edges path path_map) =>
      path_lookup (path state) path_map
  | None => None
  end.

(** The default [recursion_limit] of a compiled graph. *)
Definition recursion_limit : nat := 25.

(** The run of the compiled graph from node [n]: the node's function is
    called on the state, its update is applied through the channels, the
    outgoing edge picks the next node. The result is the list of
    (node, update) events that streaming yields, and the final state. *)
Fixpoint pregel_loop (self : PhoneRAGGraph) (limit : nat) (n : Node)
    (state : RAGState) : Run (list (Node * Update) * RAGState) :=
  match n with
  | END => ret ([], state)
  | _ =>
      match limit with
      | 0 => raise "GraphRecursionError"
      | S limit' =>
          let* update := node_action self n state in
          let state' := apply_update update state in
          match next_node n state' with
          | None => raise "no edge out of the node"
          | Some n' =>
              let* (events, final) := pregel_loop self limit' n' state' in
              ret ((n, update) :: events, final)
          end
      end
  end.

(** One run of the graph on a thread's state: the input is written
    through the channels, then the graph runs from the node after
    [START]. *)
Definition run_graph (self : PhoneRAGGraph) (input : Update)
    (state : RAGState) : Run (list (Node * Update) * RAGState) :=
  let state := apply_update input state in
  match next_node START state with
  | None => raise "no edge out of the node"
  | Some first => pregel_loop self recursion_limit first state
  end.

(** *** The compiled app, with the in-memory checkpointer

    The checkpointer maps a thread id to the state its last run ended
    with. A thread that was never used has the empty state. A run on a
    thread starts from the thread's state: the input is written through
    the channels, and a channel that the input does not write keeps the
    value the last run left in it.

    Two things are left out, and no property below speaks of them. What
    the checkpointer holds after a run that raised: such a run yields
    [Raised] and no checkpointer, so the properties about the
    checkpointer are about calls that returned. And a failure of the
    checkpointer itself, whose serializer can reject a value of a row:
    the properties that conclude that a turn returns are about turns
    that write no rows, or assume that the run returned. *)

Definition thread_state (checkpointer : gmap string RAGState)
    (thread_id : string) : RAGState :=
  default empty_state (checkpointer !! thread_id).

Definition question_input (question : string) : Update :=
  mkUpdate (Some [HumanMessage question]) None None None None None.

(** [self.app.stream(input, config)]. *)
Definition app_stream (self : PhoneRAGGraph) (input : Update)
    (thread_id : string) (checkpointer : gmap string RAGState)
  : Run (list (Node * Update) * RAGState * gmap string RAGState) :=
  let* (events, final) :=
    run_graph self input (thread_state checkpointer thread_id) in
  ret (events, final, <[thread_id := final]> checkpointer).

(** [self.app.invoke(input, config)]: the values of the final state. *)
Definition app_invoke (self : PhoneRAGGraph) (input : Update)
    (thread_id : string) (checkpointer : gmap string RAGState)
  : Run (RAGState * gmap string RAGState) :=
  let* (_, final, checkpointer') :=
    app_stream self input thread_id checkpointer in
  ret (final, checkpointer').

Record AskResult := mkAskResult {
  r_answer : string;
  r_sql_query : string;
  r_results : list Row
}.

(** Ask a question and get answer. *)
Definition ask (self : PhoneRAGGraph) (question : string)
    (thread_id : string) (checkpointer : gmap string RAGState)
  : Run (AskResult * gmap string RAGState) :=
  let* (result, checkpointer') :=
    app_invoke self (question_input question) thread_id checkpointer in
  ret (mkAskResult (default "" (final_answer result))
                   (default "" (sql_query result))
                   (default [] (db_results result)),
       checkpointer').

(** Stream the answer generation: the events of the run. *)
Definition stream_ask (self : PhoneRAGGraph) (question : string)
    (thread_id : string) (checkpointer : gmap string RAGState)
  : Run (list (Node * Update) * gmap string RAGState) :=
  let* (events, _, checkpointer') :=
    app_stream self (question_input question) thread_id checkpointer in
  ret (events, checkpointer').

(** Get conversation history for a thread. *)
Definition get_conversation_history (thread_id : string)
    (checkpointer : gmap string RAGState) : list BaseMessage :=
  messages (thread_state checkpointer thread_id).

(* ===================================================================== *)
(** ** Conversations and the shapes of a turn *)
(* ===================================================================== *)

(** What the history shows of a message: who spoke and what. *)
Definition utterance (m : BaseMessage) : MessageType * string :=
  (type m, content m).

(** The state after the updates of a list of events, in order. *)
Definition replay (events : list (Node * Update)) (state : RAGState)
  : RAGState :=
  fold_left (fun st (ev : Node * Update) => apply_update ev.2 st) events state.

(** One call to [ask]: the agent as it is at the time of the call (the
    model and the store may answer differently from call to call), the
    question and the thread. *)
Record Request := mkRequest {
  req_agent : PhoneRAGGraph;
  req_question : string;
  req_thread : string
}.

(** Calls to [ask] made one after the other on one checkpointer. *)
Fixpoint ask_all (requests : list Request)
    (checkpointer : gmap string RAGState)
  : Run (list AskResult * gmap string RAGState) :=
  match requests with
  | [] => ret ([], checkpointer)
  | r :: rest =>
      let* (result, checkpointer') :=
        ask (req_agent r) (req_question r) (req_thread r) checkpointer in
      let* (results, checkpointer'') := ask_all rest checkpointer' in
      ret (result :: results, checkpointer'')
  end.

(** The entries that the calls on thread [thread_id] put into its
    history: the question and the answer of each call, in call order. *)
Fixpoint turns_of (thread_id : string) (requests : list Request)
    (results : list AskResult) : list (MessageType * string) :=
  match requests, results with
  | r :: requests', res :: results' =>
      (if decide (req_thread r = thread_id)
       then [(human, req_question r); (ai, r_answer res)]
       else [])
      ++ turns_of thread_id requests' results'
  | _, _ => []
  end.

(** The five ways a turn on state [st] with question [q] reaches [END]:
    the calls it makes and the events it yields. *)
Inductive Turn (self : PhoneRAGGraph) (q : string) (st : RAGState)
  : list Call -> list (Node * Update) -> Prop :=
  | turn_invalid_sql resp :
      llm self (sql_messages self q) = Returned resp ->
      String.length (_clean_sql resp) <= 10 ->
      Turn self q st
        [LlmCall (sql_messages self q)]
        [ (extract_question, question_update q);
          (generate_sql, sql_update (_clean_sql resp));
          (handle_error, error_reply (error st)) ]
  | turn_store_failure resp e :
      llm self (sql_messages self q) = Returned resp ->
      10 < String.length (_clean_sql resp) ->
      db self (_clean_sql resp) = Raised e ->
      Turn self q st
        [LlmCall (sql_messages self q); DbCall (_clean_sql resp)]
        [ (extract_question, question_update q);
          (generate_sql, sql_update (_clean_sql resp));
          (execute_query, error_update ("Database error: " ++ e));
          (handle_error, error_reply (Some ("Database error: " ++ e))) ]
  | turn_earlier_error resp rows :
      llm self (sql_messages self q) = Returned resp ->
      10 < String.length (_clean_sql resp) ->
      db self (_clean_sql resp) = Returned rows ->
      has_error st = true ->
      Turn self q st
        [LlmCall (sql_messages self q); DbCall (_clean_sql resp)]
        [ (extract_question, question_update q);
          (generate_sql, sql_update (_clean_sql resp));
          (execute_query, results_update rows);
          (handle_error, error_reply (error st)) ]
  | turn_no_rows resp :
      llm self (sql_messages self q) = Returned resp ->
      10 < String.length (_clean_sql resp) ->
      db self (_clean_sql resp) = Returned [] ->
      has_error st = false ->
      Turn self q st
        [LlmCall (sql_messages self q); DbCall (_clean_sql resp)]
        [ (extract_question, question_update q);
          (generate_sql, sql_update (_clean_sql resp));
          (execute_query, results_update []);
          (generate_answer,
           answer_update no_results_answer (AIMessage no_results_answer)) ]
  | turn_answered resp rows results_json reply :
      llm self (sql_messages self q) = Returned resp ->
      10 < String.length (_clean_sql resp) ->
      db self (_clean_sql resp) = Returned rows ->
      rows <> [] ->
      has_error st = false ->
      json_dumps self rows = Returned results_json ->
      llm self (answer_messages q results_json) = Returned reply ->
      Turn self q st
        [ LlmCall (sql_messages self q); DbCall (_clean_sql resp);
          LlmCall (answer_messages q results_json) ]
        [ (extract_question, question_update q);
          (generate_sql, sql_update (_clean_sql resp));
          (execute_query, results_update rows);
          (generate_answer,
           answer_update (Py.strip reply) (AIMessage (Py.strip reply))) ].

(** The three ways a turn on state [st] with question [q] ends in an
    exception of a node: the calls it has made and the exception's
    text. *)
Inductive Fault (self : PhoneRAGGraph) (q : string) (st : RAGState)
  : list Call -> string -> Prop :=
  | fault_sql_model e :
      llm self (sql_messages self q) = Raised e ->
      Fault self q st [LlmCall (sql_messages self q)] e
  | fault_json_dumps resp rows e :
      llm self (sql_messages self q) = Returned resp ->
      10 < String.length (_clean_sql resp) ->
      db self (_clean_sql resp) = Returned rows ->
      rows <> [] ->
      has_error st = false ->
      json_dumps self rows = Raised e ->
      Fault self q st
        [LlmCall (sql_messages self q); DbCall (_clean_sql resp)] e
  | fault_answer_model resp rows results_json e :
      llm self (sql_messages self q) = Returned resp ->
      10 < String.length (_clean_sql resp) ->
      db self (_clean_sql resp) = Returned rows ->
      rows <> [] ->
      has_error st = false ->
      json_dumps self rows = Returned results_json ->
      llm self (answer_messages q results_json) = Raised e ->
      Fault self q st
        [ LlmCall (sql_messages self q); DbCall (_clean_sql resp);
          LlmCall (answer_messages q results_json) ] e.

(* ===================================================================== *)
(** ** Stubs for the model, the store and the library functions *)
(* ===================================================================== *)

Module Stub.

(** The decimal digits of [n], in front of [acc]. *)
Fixpoint digits (fuel n : nat) (acc : string) : string :=
  match fuel with
  | 0 => acc
  | S fuel' =>
      let acc' := String (ascii_of_nat (48 + n mod 10)) acc in
      if (n <? 10)%nat then acc' else digits fuel' (n / 10) acc'
  end.

(** A stand-in for [str] of a message object, which no turn calls. It
    is not the library's text. *)
Definition str_stub (m : BaseMessage) : string :=
  "<message " ++ content m ++ ">".

Definition sql_system : string :=
  "You are a SQL expert. Generate valid PostgreSQL queries.".

(** A model that answers the SQL prompt with [sql] and any other prompt
    with [answer]. *)
Definition llm_stub (sql answer : Outcome string)
  : list BaseMessage -> Outcome string :=
  fun prompt =>
    match prompt with
    | m :: _ => if String.eqb (content m) sql_system then sql else answer
    | [] => answer
    end.

(** [json.dumps] has no encoding for a [datetime]. *)
Definition json_serializable (v : SqlValue) : bool :=
  match v with
  | SqlTimestamp _ => false
  | _ => true
  end.

(** A stand-in for [json.dumps]: it raises as the library does on rows
    with a [datetime], and gives the number of rows otherwise. *)
Definition json_stub (rows : list Row) : Outcome string :=
  if forallb (fun row : Row => forallb (fun kv => json_serializable kv.2) row)
       rows
  then let n := List.length rows in
       Returned ("[" ++ digits (S n) n "" ++ " rows]")
  else Raised "Object of type datetime is not JSON serializable".

(** An agent whose model gives [sql] then [answer], and whose store
    gives [store] for every query. *)
Definition agent (sql : Outcome string) (store : Outcome (list Row))
    (answer : Outcome string) : PhoneRAGGraph :=
  mkAgent (llm_stub sql answer) (fun _ => store) (_load_examples None)
          json_stub str_stub.

Definition query_5g : string :=
  "SELECT name FROM samsung_phones WHERE network_5g_bands != '' LIMIT 5".

Definition three_rows : list Row :=
  [ [("name", SqlText "A")]; [("name", SqlText "B")]; [("name", SqlText "C")] ].

(** The end-to-end scenario: fenced SQL, three rows, a prose answer. *)
Definition working : PhoneRAGGraph :=
  agent (Returned ("```sql " ++ query_5g ++ "; ```")) (Returned three_rows)
        (Returned " Three models support 5G: A, B, C. ").

(** The model answers the rows with white space only. *)
Definition blank_reply : PhoneRAGGraph :=
  agent (Returned query_5g) (Returned three_rows) (Returned "  ").

(** The store raises. *)
Definition failing_store : PhoneRAGGraph :=
  agent (Returned query_5g) (Raised "connection lost") (Returned "unused").

(** The store finds nothing. *)
Definition empty_store : PhoneRAGGraph :=
  agent (Returned query_5g) (Returned []) (Returned "unused").

(** The model gives no usable SQL. *)
Definition short_sql : PhoneRAGGraph :=
  agent (Returned "no") (Returned three_rows) (Returned "unused").

(** The model selects every column, and the store returns a row with
    its [created_at]. *)
Definition select_all : string := "SELECT * FROM samsung_phones LIMIT 1".

Definition dated_rows : list Row :=
  [ [ ("id", SqlInt 1); ("name", SqlText "A");
      ("created_at", SqlTimestamp "2025-01-01 00:00:00") ] ].

Definition every_column : PhoneRAGGraph :=
  agent (Returned select_all) (Returned dated_rows) (Returned "unused").

(** Three calls on two threads. *)
Definition three_calls : list Request :=
  [ mkRequest working "Which phones have 5G?" "t";
    mkRequest failing_store "And 6G?" "u";
    mkRequest short_sql "Thanks" "t" ].

End Stub.

(* ===================================================================== *)
(** ** The scraper (scraper.py) and the rows it feeds (database.py) *)
(* ===================================================================== *)

Module PhoneScraper.

(** [str(n)] for a page number. *)
Definition str_nat (n : nat) : string :=
  DecimalString.NilZero.string_of_uint (Nat.to_uint n).

(** [str.lower()] on one character: the ASCII capitals and the Latin-1
    capitals (192 to 222, without the multiplication sign 215). *)
Definition lower_char (c : ascii) : ascii :=
  let n := nat_of_ascii c in
  if ((65 <=? n) && (n <=? 90)
      || (192 <=? n) && (n <=? 222) && negb (n =? 215))%nat
  then ascii_of_nat (n + 32) else c.

Fixpoint lower (s : string) : string :=
  match s with
  | EmptyString => EmptyString
  | String c s' => String (lower_char c) (lower s')
  end.

(** A phone record: a dictionary from field names to text. *)
Abbreviation PhoneData := (gmap string string).

(** What the scraper reads of a parsed page.

    An anchor inside a [div class=makers]: [link.get('href')] and the
    text of [link.find('strong')]. *)
Record Anchor := mkAnchor {
  href : option string;
  strong : option string
}.

(** A table row: the text of [row.find('th', scope='row')], of
    [row.find('td', class_='ttl')] and of [row.find('td', class_='nfo')],
    each when the element is there. *)
Record SpecRow := mkSpecRow {
  th_row : option string;
  td_ttl : option string;
  td_nfo : option string
}.

(** A parsed page: the anchors of each [div class=makers], the text of
    the [h1 class=specs-phone-name-title], the [src] of the image inside
    [div class=specs-photo-main] (when the div, the image and the
    attribute are there), and the rows of each table. *)
Record Soup := mkSoup {
  makers : list (list Anchor);
  title : option string;
  photo_src : option string;
  tables : list (list SpecRow)
}.

(** One entry of the listing: [{'url': ..., 'name': ...}]. *)
Record Link := mkLink {
  link_url : string;
  link_name : string
}.

(** [self] with what lies outside the repository: [fetch] is
    [_fetch_page] (the request and the parse; [None] when the request
    fails) and [urljoin] is [urllib.parse.urljoin]. The two addresses are
    those of [Config._load_scraper_config]. *)
Record t := mkScraper {
  fetch : string -> option Soup;
  urljoin : string -> string -> string
}.

Definition base_url : string := "https://www.gsmarena.com/".
Definition samsung_url : string :=
  "https://www.gsmarena.com/samsung-phones-9.php".

(** Build URL for specific page number. *)
Definition _build_page_url (page_num : nat) : string :=
  if (page_num =? 1)%nat then samsung_url
  else "https://www.gsmarena.com/samsung-phones-f-9-0-p"
       ++ str_nat page_num ++ ".php".

(** Extract phone links from page. *)
Definition _extract_phone_links (self : t) (soup : Soup) : list Link :=
  flat_map
    (fun div =>
       flat_map
         (fun link =>
            match href link, strong link with
            | Some h, Some phone_name =>
                if Py.truthy h
                then [mkLink (urljoin self base_url h) (Py.strip phone_name)]
                else []
            | _, _ => []
            end)
         div)
    (makers soup).

(** Get all phone links from listing pages. The source loops until a
    page cannot be fetched or has no links; [fuel] bounds the number of
    pages visited, and [None] is a loop that has not ended within it. *)
Fixpoint links_from (self : t) (fuel page_num : nat) (all_links : list Link)
  : option (list Link) :=
  match fuel with
  | 0 => None
  | S fuel' =>
      let url := _build_page_url page_num in
      match fetch self url with
      | None => Some all_links
      | Some soup =>
          match _extract_phone_links self soup with
          | [] => Some all_links
          | page_links =>
              links_from self fuel' (page_num + 1)
                (all_links ++ page_links)%list
          end
      end
  end.

Definition get_all_phone_links (self : t) (fuel : nat) : option (list Link) :=
  links_from self fuel 1 [].

Definition fields : list string :=
  [ "url"; "name"; "image_url"; "launch_announced"; "launch_status";
    "network_technology"; "network_2g_bands"; "network_3g_bands";
    "network_4g_bands"; "network_5g_bands"; "network_speed";
    "body_dimensions"; "body_weight"; "body_build"; "body_sim";
    "display_type"; "display_size"; "display_resolution"; "display_protection";
    "platform_os"; "platform_chipset"; "platform_cpu"; "platform_gpu";
    "memory_card_slot"; "memory_internal";
    "main_camera"; "main_camera_features"; "main_camera_video";
    "selfie_camera"; "selfie_camera_features"; "selfie_camera_video";
    "sound_loudspeaker"; "sound_3_5mm_jack";
    "comms_wlan"; "comms_bluetooth"; "comms_positioning";
    "comms_nfc"; "comms_radio"; "comms_usb";
    "features_sensors"; "battery_type"; "battery_charging";
    "misc_colors"; "misc_models"; "misc_sar"; "misc_sar_eu"; "misc_price" ].

(** Create phone data dictionary with default values:
    [{field: '' for field in fields} | {'url': url}]. *)
Definition _create_empty_phone_data (url : string) : PhoneData :=
  <["url" := url]> (list_to_map ((fun field => (field, "")) <$> fields)).

(** Extract name and image. *)
Definition _extract_basic_info (soup : Soup) (phone_data : PhoneData)
  : PhoneData :=
  let phone_data :=
    match title soup with
    | Some text => <["name" := Py.strip text]> phone_data
    | None => phone_data
    end in
  match photo_src soup with
  | Some src =>
      if Py.truthy src then <["image_url" := src]> phone_data else phone_data
  | None => phone_data
  end.

Definition mapping : list (string * string) :=
  [ ("technology", "network_technology");
    ("2g bands", "network_2g_bands");
    ("3g bands", "network_3g_bands");
    ("4g bands", "network_4g_bands");
    ("5g bands", "network_5g_bands");
    ("speed", "network_speed");
    ("announced", "launch_announced");
    ("status", "launch_status");
    ("dimensions", "body_dimensions");
    ("weight", "body_weight");
    ("build", "body_build");
    ("sim", "body_sim");
    ("size", "display_size");
    ("resolution", "display_resolution");
    ("protection", "display_protection");
    ("os", "platform_os");
    ("chipset", "platform_chipset");
    ("cpu", "platform_cpu");
    ("gpu", "platform_gpu");
    ("card slot", "memory_card_slot");
    ("internal", "memory_internal");
    ("loudspeaker", "sound_loudspeaker");
    ("3.5mm jack", "sound_3_5mm_jack");
    ("wlan", "comms_wlan");
    ("bluetooth", "comms_bluetooth");
    ("positioning", "comms_positioning");
    ("nfc", "comms_nfc");
    ("radio", "comms_radio");
    ("usb", "comms_usb");
    ("sensors", "features_sensors");
    ("charging", "battery_charging");
    ("colors", "misc_colors");
    ("models", "misc_models");
    ("sar", "misc_sar");
    ("sar eu", "misc_sar_eu");
    ("price", "misc_price") ].

(** [for key, field in mapping.items(): if key in spec_name: ... break]:
    the field of the first key, in the order of the dictionary, that
    occurs in [spec_name]. *)
Fixpoint first_key_in (spec_name : string) (items : list (string * string))
  : option string :=
  match items with
  | [] => None
  | (key, field) :: rest =>
      if Py.contains key spec_name then Some field
      else first_key_in spec_name rest
  end.

Definition camera_counts : list string :=
  ["single"; "dual"; "triple"; "quad"; "penta"; "hexa"].

(** Map specification to phone data field. *)
Definition _map_specification (spec_name spec_value section : string)
    (phone_data : PhoneData) : PhoneData :=
  if Py.contains "type" spec_name then
    if String.eqb section "display" then
      <["display_type" := spec_value]> phone_data
    else if String.eqb section "battery" then
      <["battery_type" := spec_value]> phone_data
    else phone_data
  else if bool_decide (spec_name ∈ camera_counts) then
    if Py.contains "selfie" section then
      <["selfie_camera" := spec_value]> phone_data
    else <["main_camera" := spec_value]> phone_data
  else if Py.contains "features" spec_name && Py.contains "camera" section then
    let key := if Py.contains "selfie" section
               then "selfie_camera_features" else "main_camera_features" in
    <[key := spec_value]> phone_data
  else if Py.contains "video" spec_name && Py.contains "camera" section then
    let key := if Py.contains "selfie" section
               then "selfie_camera_video" else "main_camera_video" in
    <[key := spec_value]> phone_data
  else
    match first_key_in spec_name mapping with
    | Some field => <[field := spec_value]> phone_data
    | None => phone_data
    end.

(** One row of a table: a section header sets [current_section] and
    nothing else; a row with both a name and a value cell is mapped;
    any other row is passed over. *)
Definition specification_row (state : string * PhoneData) (row : SpecRow)
  : string * PhoneData :=
  let '(current_section, phone_data) := state in
  match th_row row with
  | Some section => (lower (Py.strip section), phone_data)
  | None =>
      match td_ttl row, td_nfo row with
      | Some name_text, Some value_text =>
          let spec_name := lower (Py.strip name_text) in
          let spec_value := Py.strip value_text in
          (current_section,
           _map_specification spec_name spec_value current_section phone_data)
      | _, _ => state
      end
  end.

(** Extract all specifications from tables. *)
Definition _extract_specifications (soup : Soup) (phone_data : PhoneData)
  : PhoneData :=
  (fold_left (fun state table => fold_left specification_row table state)
     (tables soup) ("", phone_data)).2.

(** Scrape detailed specifications from phone page. *)
Definition scrape_phone_details (self : t) (phone_url : string)
  : option PhoneData :=
  match fetch self phone_url with
  | None => None
  | Some soup =>
      let phone_data := _create_empty_phone_data phone_url in
      let phone_data := _extract_basic_info soup phone_data in
      let phone_data := _extract_specifications soup phone_data in
      Some phone_data
  end.

(** [phone_links[:limit]] for an integer [limit]. *)
Definition slice_to {A} (limit : Z) (l : list A) : list A :=
  if (0 <=? limit)%Z then take (Z.to_nat limit) l
  else take (List.length l - Z.to_nat (- limit)) l.

(** The loop of [scrape_all_phones]: each link whose page yields a
    non-empty record adds it to [phones_data]. *)
Definition scrape_links (self : t) (phone_links : list Link)
    (phones_data : list PhoneData) : list PhoneData :=
  fold_left
    (fun acc phone =>
       match scrape_phone_details self (link_url phone) with
       | Some phone_data =>
           if bool_decide (phone_data = ∅) then acc
           else (acc ++ [phone_data])%list
       | None => acc
       end)
    phone_links phones_data.

(** Scrape all phones or up to limit. [phones_data] is [self.phones_data]
    before the call; the result is [self.phones_data] after it, which is
    also what the call returns. *)
Definition scrape_all_phones (self : t) (fuel : nat) (limit : option Z)
    (phones_data : list PhoneData) : option (list PhoneData) :=
  match get_all_phone_links self fuel with
  | None => None
  | Some phone_links =>
      let phone_links :=
        match limit with
        | Some n => if (n =? 0)%Z then phone_links else slice_to n phone_links
        | None => phone_links
        end in
      Some (scrape_links self phone_links phones_data)
  end.

(** The fields that [_map_specification] has no way to write. *)
Definition never_mapped : list string :=
  ["url"; "name"; "image_url"; "comms_positioning"; "misc_sar_eu"].

(** The links of listing page [page_num]; none when the page cannot be
    fetched. *)
Definition page_links (self : t) (page_num : nat) : list Link :=
  match fetch self (_build_page_url page_num) with
  | Some soup => _extract_phone_links self soup
  | None => []
  end.

End PhoneScraper.

Module DatabaseManager.

(** [phone.get(key, '')]. *)
Definition get (phone : gmap string string) (key : string) : string :=
  default "" (phone !! key).

(** The column list of the [INSERT] statement of [insert_batch]. *)
Definition insert_columns : list string :=
  [ "url"; "name"; "image_url"; "launch_announced"; "launch_status";
    "network_technology"; "network_2g_bands"; "network_3g_bands";
    "network_4g_bands"; "network_5g_bands"; "network_speed";
    "body_dimensions"; "body_weight"; "body_build"; "body_sim";
    "display_type"; "display_size"; "display_resolution"; "display_protection";
    "platform_os"; "platform_chipset"; "platform_cpu"; "platform_gpu";
    "memory_card_slot"; "memory_internal";
    "main_camera"; "main_camera_features"; "main_camera_video";
    "selfie_camera"; "selfie_camera_features"; "selfie_camera_video";
    "sound_loudspeaker"; "sound_3_5mm_jack";
    "comms_wlan"; "comms_bluetooth"; "comms_positioning";
    "comms_nfc"; "comms_radio"; "comms_usb";
    "features_sensors";
    "battery_type"; "battery_charging";
    "misc_colors"; "misc_models"; "misc_sar"; "misc_sar_eu"; "misc_price" ].

(** Prepare phone data tuple for insertion. *)
Definition _prepare_phone_tuple (phone : gmap string string) : list string :=
  [ get phone "url";
    get phone "name";
    get phone "image_url";
    get phone "launch_announced";
    get phone "launch_status";
    get phone "network_technology";
    get phone "network_2g_bands";
    get phone "network_3g_bands";
    get phone "network_4g_bands";
    get phone "network_5g_bands";
    get phone "network_speed";
    get phone "body_dimensions";
    get phone "body_weight";
    get phone "body_build";
    get phone "body_sim";
    get phone "display_type";
    get phone "display_size";
    get phone "display_resolution";
    get phone "display_protection";
    get phone "platform_os";
    get phone "platform_chipset";
    get phone "platform_cpu";
    get phone "platform_gpu";
    get phone "memory_card_slot";
    get phone "memory_internal";
    get phone "main_camera";
    get phone "main_camera_features";
    get phone "main_camera_video";
    get phone "selfie_camera";
    get phone "selfie_camera_features";
    get phone "selfie_camera_video";
    get phone "sound_loudspeaker";
    get phone "sound_3_5mm_jack";
    get phone "comms_wlan";
    get phone "comms_bluetooth";
    get phone "comms_positioning";
    get phone "comms_nfc";
    get phone "comms_radio";
    get phone "comms_usb";
    get phone "features_sensors";
    get phone "battery_type";
    get phone "battery_charging";
    get phone "misc_colors";
    get phone "misc_models";
    get phone "misc_sar";
    get phone "misc_sar_eu";
    get phone "misc_price" ].

(** The rows [insert_batch] hands to [execute_values]. *)
Definition insert_values (phones_data : list (gmap string string))
  : list (list string) :=
  map _prepare_phone_tuple phones_data.

End DatabaseManager.

(* ===================================================================== *)
(** ** The command-line agent (rag_agent.py) *)
(* ===================================================================== *)

Module PhoneRAGAgent.

(** [self]: [llm] is [self.llm.invoke(messages).content], [db] is
    [self.db.execute_query], [examples] is [self.examples] and
    [json_dumps] is [json.dumps(results, indent=2)], which can raise.
    What the methods print is left out. *)
Record t := mkAgent {
  llm : list BaseMessage -> Outcome string;
  db : string -> Outcome (list Row);
  examples : list FewShot;
  json_dumps : list Row -> Outcome string
}.

Definition _load_schema : string := Py.text [
    "";
    "        id: integer";
    "        url: text";
    "        name: character varying";
    "        image_url: text";
    "        launch_announced: character varying";
    "        launch_status: character varying";
    "        network_technology: text";
    "        network_2g_bands: text";
    "        network_3g_bands: text";
    "        network_4g_bands: text";
    "        network_5g_bands: text";
    "        network_speed: character varying";
    "        body_dimensions: character varying";
    "        body_weight: character varying";
    "        body_build: text";
    "        body_sim: text";
    "        display_type: text";
    "        display_size: character varying";
    "        display_resolution: character varying";
    "        display_protection: text";
    "        platform_os: text";
    "        platform_chipset: text";
    "        platform_cpu: text";
    "        platform_gpu: text";
    "        memory_card_slot: text";
    "        memory_internal: text";
    "        main_camera: text";
    "        main_camera_features: text";
    "        main_camera_video: text";
    "        selfie_camera: text";
    "        selfie_camera_features: text";
    "        selfie_camera_video: text";
    "        sound_loudspeaker: character varying";
    "        sound_3_5mm_jack: character varying";
    "        comms_wlan: text";
    "        comms_bluetooth: text";
    "        comms_positioning: text";
    "        comms_nfc: character varying";
    "        comms_radio: character varying";
    "        comms_usb: text";
    "        features_sensors: text";
    "        battery_type: text";
    "        battery_charging: text";
    "        misc_colors: text";
    "        misc_models: text";
    "        misc_sar: character varying";
    "        misc_sar_eu: character varying";
    "        misc_price: text";
    "        "
].

(** [_load_examples]: the content of [few_shot.json] when the file is
    there, no examples otherwise. *)
Definition _load_examples (few_shot_json : option (list FewShot))
  : list FewShot :=
  match few_shot_json with
  | Some exs => exs
  | None => []
  end.

(** Format few-shot examples as text. *)
Definition _format_examples (self : t) : string :=
  match examples self with
  | [] => "No examples available."
  | exs =>
      Py.join (Py.nl ++ Py.nl)
        (map (fun ex =>
                "Question: " ++ user_question ex ++ Py.nl
                ++ "SQL: " ++ sql_schema ex)
             exs)
  end.

(** Build prompt for SQL generation. *)
Definition _build_sql_prompt (self : t) (question examples_text : string)
  : string :=
  Py.text [
    "";
    "                You are an expert at converting natural language questions into PostgreSQL queries.";
    "";
    "                DATABASE SCHEMA (table: samsung_phones):";
    "                " ++ _load_schema;
    "";
    "                EXAMPLES:";
    "                " ++ examples_text;
    "";
    "                RULES:";
    "                - Generate syntactically correct PostgreSQL only";
    "                - Use ILIKE for case-insensitive string matching";
    "                - Include LIMIT 5 unless specified otherwise";
    "                - Return only the SQL query, no explanations";
    "                - Handle comparisons and sorting appropriately";
    "";
    "                USER QUESTION:";
    "                " ++ question;
    "                "
  ].

(** Get system message for SQL generation. *)
Definition _get_system_message : string :=
  "You are a skilled SQL expert. Given a user's question and database schema, "
  ++ "generate a single valid PostgreSQL query that retrieves the requested information. "
  ++ "Return only the SQL query with no additional text.".

(** Clean SQL query from LLM response: the same substitution, strip and
    right strip as in the graph agent. *)
Definition _clean_sql (sql_text : string) : string :=
  let sql := remove_fences sql_text in
  Py.rstrip is_semicolon (Py.strip sql).

Definition sql_messages (self : t) (question : string) : list BaseMessage :=
  [ SystemMessage _get_system_message;
    HumanMessage (_build_sql_prompt self question (_format_examples self)) ].

(** Generate SQL query from natural language question. *)
Definition generate_sql (self : t) (question : string) : Run string :=
  let messages := sql_messages self question in
  let* response := external (LlmCall messages) (llm self messages) in
  let sql_query := _clean_sql response in
  ret sql_query.

(** The prompt of [_generate_summary], with [results_json] the text that
    [json.dumps(results, indent=2)] returned. *)
Definition summary_prompt (question results_json : string) : string :=
  Py.text [
    "";
    "            You are a Samsung smartphone expert assistant.";
    "";
    "            USER QUESTION:";
    "            " ++ question;
    "";
    "            DATABASE RESULTS:";
    "            " ++ results_json;
    "";
    "            TASK:";
    "            - Explain the results in clear, simple English";
    "            - Highlight key specifications and differences";
    "            - Keep the response under 150 words unless more detail is needed";
    "            - Be conversational and helpful";
    "            - Do not mention SQL or databases";
    "            "
  ].

Definition summary_messages (question results_json : string)
  : list BaseMessage :=
  [ SystemMessage
      ("You are a helpful assistant that explains smartphone specifications "
       ++ "in natural, user-friendly language.");
    HumanMessage (summary_prompt question results_json) ].

(** Generate natural language summary of results. [json.dumps] runs
    while the prompt is built, before the model is called. *)
Definition _generate_summary (self : t) (question : string)
    (results : list Row) : Run string :=
  let* results_json := internal (json_dumps self results) in
  let messages := summary_messages question results_json in
  let* response := external (LlmCall messages) (llm self messages) in
  ret (Py.strip response).

(** Answer natural language question about phones. *)
Definition answer_question (self : t) (question : string) : Run string :=
  let* sql_query := generate_sql self question in
  if negb (Py.truthy sql_query) then ret "Failed to generate SQL query."
  else
    let* results := external (DbCall sql_query) (db self sql_query) in
    match results with
    | [] => ret "No results found for your query."
    | _ :: _ =>
        let* summary := _generate_summary self question results in
        ret summary
    end.

End PhoneRAGAgent.

(* ===================================================================== *)
(** ** [DatabaseManager.execute_query] (database.py) *)
(* ===================================================================== *)

Module Cursor.

(** What [cursor.fetchall()] does: it returns the tuples of the result
    set, raises [psycopg2.ProgrammingError] (the driver's answer when the
    statement produced no result set), or raises something else. *)
Inductive Fetched :=
  | Tuples (results : list (list SqlValue))
  | ProgrammingError (e : string)
  | OtherError (e : string).

(** The calls that [execute_query] makes on the cursor and on the
    connection. *)
Inductive Op :=
  | Execute (query : string)
  | Fetchall
  | Commit.

(** The driver, for one statement: [execute] raises or leaves the names
    of [cursor.description] ([None] when the statement has no result
    set), [fetchall] is as above, and [commit] is [self.conn.commit()]
    after that statement, which raises or returns. *)
Record t := mkCursor {
  execute : string -> Outcome (option (list string));
  fetchall : string -> Fetched;
  commit : string -> Outcome unit
}.

(** [d[k] = v] on a dictionary kept as its items in insertion order: a
    key that is there keeps its place and takes the new value. *)
Fixpoint setitem (items : Row) (k : string) (v : SqlValue) : Row :=
  match items with
  | [] => [(k, v)]
  | (k', v') :: rest =>
      if String.eqb k' k then (k', v) :: rest
      else (k', v') :: setitem rest k v
  end.

(** [dict(zip(columns, row))]. *)
Definition dict_zip (columns : list string) (row : list SqlValue) : Row :=
  fold_left (fun items kv => setitem items kv.1 kv.2) (zip columns row) [].

(** [d.get(k)]. *)
Fixpoint getitem (items : Row) (k : string) : option SqlValue :=
  match items with
  | [] => None
  | (k', v) :: rest => if String.eqb k' k then Some v else getitem rest k
  end.

(** [try: results = cursor.fetchall()
     except psycopg2.ProgrammingError: results = []]. *)
Definition fetch_results (cursor : t) (query : string)
  : Outcome (list (list SqlValue)) :=
  match fetchall cursor query with
  | Tuples results => Returned results
  | ProgrammingError _ => Returned []
  | OtherError e => Raised e
  end.

(** Execute SQL query and return results as list of dicts. The first
    component lists the calls made on the driver, in order: [execute],
    then [fetchall], then [commit], which is outside the [try] and comes
    before the dictionaries are built. *)
Definition execute_query (cursor : t) (query : string)
  : list Op * Outcome (list Row) :=
  match execute cursor query with
  | Raised e => ([Execute query], Raised e)
  | Returned description =>
      let columns :=
        match description with
        | Some names => names
        | None => []
        end in
      match fetch_results cursor query with
      | Raised e => ([Execute query; Fetchall], Raised e)
      | Returned results =>
          match commit cursor query with
          | Raised e => ([Execute query; Fetchall; Commit], Raised e)
          | Returned _ =>
              ([Execute query; Fetchall; Commit],
               Returned (map (dict_zip columns) results))
          end
      end
  end.

End Cursor.

(* ===================================================================== *)
(** ** The HTTP layer over the graph agent (api.py) *)
(* ===================================================================== *)

Module Api.

(** What an endpoint gives back: its body, or an [HTTPException]. *)
Inductive Response (A : Type) :=
  | Ok (body : A)
  | HTTPException (status_code : nat) (detail : string).
Arguments Ok {A} body.
Arguments HTTPException {A} status_code detail.

Record QuestionRequest := mkQuestionRequest {
  question : string;
  thread_id : option string
}.

Record QuestionResponse := mkQuestionResponse {
  answer : string;
  sql_query : string;
  results : list Row;
  response_thread_id : string;
  timestamp : string
}.

Record FormattedMessage := mkFormattedMessage {
  role : string;
  message_content : string
}.

Record ThreadResponse := mkThreadResponse {
  thread : string;
  thread_messages : list FormattedMessage
}.

(** [request.thread_id or str(uuid.uuid4())]. *)
Definition thread_of (request : QuestionRequest) (fresh : string) : string :=
  match thread_id request with
  | Some id => if Py.truthy id then id else fresh
  | None => fresh
  end.

(** [POST /ask]. [rag_agent] is the global set at startup, [fresh] is
    [str(uuid.uuid4())] and [now] is [datetime.now().isoformat()]. The
    checkpointer is given back when the agent returned. *)
Definition ask_question (rag_agent : option PhoneRAGGraph)
    (fresh now : string) (request : QuestionRequest)
    (checkpointer : gmap string RAGState)
  : Run (Response QuestionResponse * option (gmap string RAGState)) :=
  match rag_agent with
  | None => ret (HTTPException 503 "RAG agent not initialized", Some checkpointer)
  | Some agent =>
      try_except
        (let thread_id := thread_of request fresh in
         let* (result, checkpointer') :=
           ask agent (question request) thread_id checkpointer in
         ret (Ok (mkQuestionResponse (r_answer result) (r_sql_query result)
                    (r_results result) thread_id now),
              Some checkpointer'))
        (fun e =>
           ret (HTTPException 500 ("Error processing question: " ++ e), None))
  end.

(** One entry of the formatted history. Every message object has a
    [type] and a [content]. *)
Definition format_message (msg : BaseMessage) : FormattedMessage :=
  mkFormattedMessage
    (match type msg with
     | human => "user"
     | _ => "assistant"
     end)
    (content msg).

(** [GET /thread/{thread_id}]. *)
Definition get_thread_history (rag_agent : option PhoneRAGGraph)
    (thread_id : string) (checkpointer : gmap string RAGState)
  : Response ThreadResponse :=
  match rag_agent with
  | None => HTTPException 503 "RAG agent not initialized"
  | Some _ =>
      let messages := get_conversation_history thread_id checkpointer in
      Ok (mkThreadResponse thread_id (map format_message messages))
  end.

End Api.

(* ===================================================================== *)
(** ** Call kinds, and stand-ins for the examples below *)
(* ===================================================================== *)

Definition is_llm_call (c : Call) : bool :=
  match c with
  | LlmCall _ => true
  | DbCall _ => false
  end.

Definition is_db_call (c : Call) : bool :=
  match c with
  | LlmCall _ => false
  | DbCall _ => true
  end.

(** What holds of a phone record all the way through
    [scrape_phone_details]: its [url] is the page's, two fields are
    still empty, and its keys are the fields of
    [_create_empty_phone_data]. *)
Definition scraped (url : string) (d : gmap string string) : Prop :=
  d !! "url" = Some url
  /\ d !! "comms_positioning" = Some ""
  /\ d !! "misc_sar_eu" = Some ""
  /\ forall k, is_Some (d !! k) <-> k ∈ PhoneScraper.fields.

Module Demo.

(** The checkpointer after one call on thread [t] in which the store
    raised. *)
Definition after_failure : gmap string RAGState :=
  match ask Stub.failing_store "Which phones have 6G?" "t" ∅ [] with
  | (_, Returned (_, checkpointer)) => checkpointer
  | (_, Raised _) => ∅
  end.

(** A model that raises on every prompt. *)
Definition model_down : PhoneRAGGraph :=
  Stub.agent (Raised "rate limit exceeded") (Returned []) (Returned "unused").

(** A listing of two phones on page 1, nothing on page 2, and the page
    of the first phone. *)
Definition listing : PhoneScraper.Soup :=
  PhoneScraper.mkSoup
    [ [ PhoneScraper.mkAnchor (Some "samsung_galaxy_s25-1.php") (Some " Galaxy S25 ");
        PhoneScraper.mkAnchor (Some "") (Some "No link");
        PhoneScraper.mkAnchor (Some "samsung_galaxy_a07-2.php") (Some "Galaxy A07");
        PhoneScraper.mkAnchor (Some "news.php") None ] ]
    None None [].

Definition phone_page : PhoneScraper.Soup :=
  PhoneScraper.mkSoup [] (Some " Samsung Galaxy S25 ") (Some "s25.jpg")
    [ [ PhoneScraper.mkSpecRow (Some "Comms") None None;
        PhoneScraper.mkSpecRow None (Some "Positioning") (Some "GPS, GALILEO");
        PhoneScraper.mkSpecRow None (Some "NFC") (Some "Yes") ];
      [ PhoneScraper.mkSpecRow (Some "Misc") None None;
        PhoneScraper.mkSpecRow None (Some "SAR EU") (Some "0.85 W/kg");
        PhoneScraper.mkSpecRow None (Some "Price") None ] ].

Definition site : PhoneScraper.t :=
  PhoneScraper.mkScraper
    (fun url =>
       if String.eqb url PhoneScraper.samsung_url then Some listing
       else if String.eqb url
                 "https://www.gsmarena.com/samsung_galaxy_s25-1.php"
            then Some phone_page
       else None)
    (fun base h => base ++ h).

(** A site whose every listing page shows one phone. *)
Definition endless_site : PhoneScraper.t :=
  PhoneScraper.mkScraper (fun _ => Some listing) (fun base h => base ++ h).

(** The command-line agent over the same stand-ins as [Stub.agent]. *)
Definition cli (sql : Outcome string) (store : Outcome (list Row))
    (answer : Outcome string) : PhoneRAGAgent.t :=
  PhoneRAGAgent.mkAgent
    (fun prompt =>
       match prompt with
       | m :: _ =>
           if String.eqb (content m) PhoneRAGAgent._get_system_message
           then sql else answer
       | [] => answer
       end)
    (fun _ => store) [] Stub.json_stub.

(** A driver on which every statement runs and is committed, and none
    has a result set. *)
Definition write_cursor : Cursor.t :=
  Cursor.mkCursor (fun _ => Returned None)
    (fun _ => Cursor.ProgrammingError "no results to fetch")
    (fun _ => Returned tt).

Definition delete_statement : string := "DELETE FROM samsung_phones".

(** The graph agent on top of [execute_query], with a model that writes
    a deleting statement. *)
Definition deleting_agent : PhoneRAGGraph :=
  mkAgent (Stub.llm_stub (Returned delete_statement) (Returned "unused"))
          (fun query => (Cursor.execute_query write_cursor query).2)
          (_load_examples None) Stub.json_stub Stub.str_stub.

End Demo.

(* ===================================================================== *)
(** * Properties *)
(* ===================================================================== *)

#[local] Arguments add_messages : simpl never.
#[local] Arguments _clean_sql : simpl never.
#[local] Arguments sql_messages : simpl never.
#[local] Arguments answer_messages : simpl never.
#[local] Arguments error_answer : simpl never.
#[local] Arguments Py.strip : simpl never.

(** ** Stripping *)

Lemma append_assoc (a b c : string) : (a ++ b) ++ c = a ++ b ++ c.
Proof.
  induction a as [|x a IH]; [done|].
  change (String x ((a ++ b) ++ c) = String x (a ++ b ++ c)). by rewrite IH.
Qed.

Lemma append_nil_r (x : string) : x ++ "" = x.
Proof.
  induction x as [|c x IH]; [done|].
  change (String c (x ++ "") = String c x). by rewrite IH.
Qed.

Lemma lstrip_id p s : Py.char_is p (Py.first_char s) = false -> Py.lstrip p s = s.
Proof. destruct s as [|c s]; simpl; [done|]. by intros ->. Qed.

Lemma rstrip_id p s : Py.char_is p (Py.last_char s) = false -> Py.rstrip p s = s.
Proof.
  induction s as [|c s IH]; simpl; [done|].
  destruct s as [|d s].
  - simpl. by intros ->.
  - intros H. rewrite (IH H). done.
Qed.

Lemma rstrip_last p s : Py.char_is p (Py.last_char (Py.rstrip p s)) = false.
Proof.
  induction s as [|c s IH]; simpl; [done|].
  destruct (Py.rstrip p s) as [|d r] eqn:E.
  - destruct (p c) eqn:Ep; simpl; [done|]. by rewrite Ep.
  - exact IH.
Qed.

Lemma lstrip_first p s : Py.char_is p (Py.first_char (Py.lstrip p s)) = false.
Proof.
  induction s as [|c s IH]; simpl; [done|].
  destruct (p c) eqn:Ep; [done|]. simpl. by rewrite Ep.
Qed.

Lemma rstrip_first p s :
  Py.first_char (Py.rstrip p s) = None \/ Py.first_char (Py.rstrip p s) = Py.first_char s.
Proof.
  destruct s as [|c s]; simpl; [by left|].
  destruct (Py.rstrip p s); [destruct (p c)|]; simpl; auto.
Qed.

Lemma rstrip_split p s :
  exists t, s = Py.rstrip p s ++ t /\ Py.all_chars p t = true.
Proof.
  induction s as [|c s [t [Ht Hp]]]; simpl.
  - by exists "".
  - destruct (Py.rstrip p s) as [|d r] eqn:E.
    + destruct (p c) eqn:Ep.
      * exists (String c s). split; [done|]. simpl. rewrite Ep. simpl in Ht. by rewrite Ht.
      * exists t. split; [|done]. simpl. by rewrite Ht at 1.
    + exists t. split; [|done]. simpl. simpl in Ht. by rewrite Ht at 1.
Qed.

(** ** Fences *)

(** Where no fence starts, the character is copied. *)
Lemma remove_fences_copy c s :
  fence_at (String c s) = false ->
  remove_fences (String c s) = String c (remove_fences s).
Proof.
  destruct s as [|c2 [|c3 s3]]; simpl; try done.
  by intros ->.
Qed.

(** Where a fence starts, it is dropped together with its tag. *)
Lemma remove_fences_fence c1 c2 c3 s :
  fence_at (String c1 (String c2 (String c3 s))) = true ->
  remove_fences (String c1 (String c2 (String c3 s))) = remove_fences (after_fence s).
Proof.
  simpl. intros ->. destruct s as [|a [|b [|c s6]]]; simpl; try done.
  by destruct (is_sql a b c).
Qed.

Lemma after_fence_length s : String.length (after_fence s) <= String.length s.
Proof.
  destruct s as [|a [|b [|c s6]]]; simpl; try lia.
  destruct (is_sql a b c); simpl; lia.
Qed.

(** A text without fences is left as it is. *)
Lemma remove_fences_id s : has_fence s = false -> remove_fences s = s.
Proof.
  induction s as [|c s IH]; [done|].
  cbn [has_fence]. intros [H1 H2]%orb_false_iff.
  rewrite remove_fences_copy by done. by rewrite IH.
Qed.

(** Copying a character that starts no fence does not make one. *)
Lemma fence_at_copy c s :
  fence_at (String c s) = false -> fence_at (String c (remove_fences s)) = false.
Proof.
  intros H. destruct (is_backtick c) eqn:Hc.
  2:{ destruct (remove_fences s) as [|x [|y r]]; simpl; try done. by rewrite Hc. }
  destruct s as [|c2 s2]; [done|].
  destruct (is_backtick c2) eqn:Hc2.
  2:{ rewrite remove_fences_copy.
      - destruct (remove_fences s2) as [|y r]; simpl; [done|]. by rewrite Hc2, andb_false_r.
      - destruct s2 as [|c3 [|c4 s4]]; simpl; try done. by rewrite Hc2. }
  destruct s2 as [|c3 s3]; [done|].
  simpl in H. rewrite Hc, Hc2 in H. simpl in H.
  rewrite remove_fences_copy.
  2:{ destruct s3 as [|c4 s4]; simpl; [done|]. by rewrite H, andb_false_r. }
  rewrite remove_fences_copy.
  2:{ destruct s3 as [|c4 [|c5 s5]]; simpl; try done. by rewrite H. }
  simpl. by rewrite H, andb_false_r.
Qed.

Lemma remove_fences_no_fence_upto n s :
  String.length s <= n -> has_fence (remove_fences s) = false.
Proof.
  revert s. induction n as [|n IH]; intros s Hn.
  - destruct s; [done|simpl in Hn; lia].
  - destruct s as [|c1 s1]; [done|].
    destruct (fence_at (String c1 s1)) eqn:Hf.
    + destruct s1 as [|c2 [|c3 s3]]; try done.
      rewrite remove_fences_fence by done. apply IH.
      pose proof (after_fence_length s3). simpl in Hn. lia.
    + rewrite remove_fences_copy by done. cbn [has_fence].
      rewrite fence_at_copy by done. apply IH. simpl in Hn. lia.
Qed.

(** No fence is left. *)
Lemma remove_fences_no_fence s : has_fence (remove_fences s) = false.
Proof. by apply (remove_fences_no_fence_upto (String.length s)). Qed.

Lemma has_fence_tail c s : has_fence (String c s) = false -> has_fence s = false.
Proof. cbn [has_fence]. by intros [_ H]%orb_false_iff. Qed.

Lemma has_fence_lstrip p s : has_fence s = false -> has_fence (Py.lstrip p s) = false.
Proof.
  induction s as [|c s IH]; [done|]. intros H. simpl.
  destruct (p c); [|done]. apply IH. by apply has_fence_tail in H.
Qed.

Lemma fence_at_prefix a b : fence_at (a ++ b) = false -> fence_at a = false.
Proof. destruct a as [|c1 [|c2 [|c3 a3]]]; simpl; done. Qed.

Lemma has_fence_prefix a b : has_fence (a ++ b) = false -> has_fence a = false.
Proof.
  induction a as [|c a IH]; [done|].
  change (String c a ++ b) with (String c (a ++ b)). cbn [has_fence].
  intros [H1 H2]%orb_false_iff. apply orb_false_iff. split; [|by apply IH].
  by apply (fence_at_prefix (String c a) b).
Qed.

Lemma lstrip_split p s :
  exists t, s = t ++ Py.lstrip p s /\ Py.all_chars p t = true.
Proof.
  induction s as [|c s (t & Ht & Hp)]; [by exists ""|].
  cbn [Py.lstrip]. destruct (p c) eqn:Ep.
  - exists (String c t). split.
    + change (String c s = String c (t ++ Py.lstrip p s)). by rewrite <- Ht.
    + cbn. by rewrite Ep.
  - by exists "".
Qed.

(** What [strip] cuts is white space, at both ends. *)
Lemma strip_split s :
  exists lead trail,
    s = lead ++ Py.strip s ++ trail
    /\ Py.all_chars Py.isspace lead = true
    /\ Py.all_chars Py.isspace trail = true.
Proof.
  destruct (lstrip_split Py.isspace s) as (lead & Hlead & Hl).
  destruct (rstrip_split Py.isspace (Py.lstrip Py.isspace s))
    as (trail & Htrail & Ht).
  exists lead, trail. split; [|done]. unfold Py.strip.
  by rewrite <- Htrail.
Qed.

Lemma strip_ends s :
  Py.char_is Py.isspace (Py.first_char (Py.strip s)) = false
  /\ Py.char_is Py.isspace (Py.last_char (Py.strip s)) = false.
Proof.
  unfold Py.strip. split; [|apply rstrip_last].
  destruct (rstrip_first Py.isspace (Py.lstrip Py.isspace s)) as [->| ->];
    [done|apply lstrip_first].
Qed.

(** No fence starts in a text that has none and does not end in a
    backtick, whatever follows the text. *)
Lemma fence_at_text c text s :
  has_fence (String c text) = false ->
  Py.char_is is_backtick (Py.last_char (String c text)) = false ->
  fence_at (String c text ++ s) = false.
Proof.
  intros Hf Hl. destruct text as [|c2 [|c3 text]].
  - change (fence_at (String c s) = false). cbn in Hl.
    destruct s as [|x [|y s]]; cbn [fence_at]; try done. by rewrite Hl.
  - change (fence_at (String c (String c2 s)) = false). cbn in Hl.
    destruct s as [|x s]; cbn [fence_at]; [done|].
    by rewrite Hl, andb_false_r.
  - change (fence_at (String c (String c2 (String c3 (text ++ s)))) = false).
    cbn [has_fence] in Hf. apply orb_false_iff in Hf as [Hf _]. exact Hf.
Qed.

(** Such a text is copied, and the scan goes on behind it. *)
Lemma remove_fences_text text s :
  has_fence text = false ->
  Py.char_is is_backtick (Py.last_char text) = false ->
  remove_fences (text ++ s) = text ++ remove_fences s.
Proof.
  induction text as [|c text IH]; intros Hf Hl; [done|].
  change (String c text ++ s) with (String c (text ++ s)).
  rewrite remove_fences_copy by (by apply (fence_at_text c text s)).
  change (String c text ++ remove_fences s)
    with (String c (text ++ remove_fences s)).
  f_equal. destruct text as [|c2 text]; [done|].
  apply IH; [by apply has_fence_tail in Hf|exact Hl].
Qed.

Lemma after_fence_tag tag rest :
  is_sql_tag tag = true -> after_fence (tag ++ rest) = rest.
Proof.
  destruct tag as [|a [|b [|c [|d tag]]]]; try done.
  change (is_sql a b c = true -> after_fence (String a (String b (String c rest))) = rest).
  cbn [after_fence]. by intros ->.
Qed.

Lemma after_fence_no_tag rest :
  starts_with_tag rest = false -> after_fence rest = rest.
Proof.
  destruct rest as [|a [|b [|c rest]]]; try done. cbn [starts_with_tag after_fence]. by intros ->.
Qed.

(** A fence delimiter is dropped: the three backticks, and the tag with
    them when it is there. *)
Lemma remove_fences_delimiter tag rest :
  is_sql_tag tag = true \/ (tag = "" /\ starts_with_tag rest = false) ->
  remove_fences ("```" ++ tag ++ rest) = remove_fences rest.
Proof.
  intros H.
  change ("```" ++ tag ++ rest)
    with (String "`" (String "`" (String "`" (tag ++ rest)))).
  rewrite remove_fences_fence by done.
  destruct H as [H|[-> H]].
  - by rewrite after_fence_tag.
  - by rewrite after_fence_no_tag.
Qed.

(** A text with a fence splits at its first delimiter. *)
Lemma first_fence s :
  has_fence s = true ->
  exists text tag rest,
    s = text ++ "```" ++ tag ++ rest
    /\ has_fence text = false
    /\ Py.char_is is_backtick (Py.last_char text) = false
    /\ (is_sql_tag tag = true \/ (tag = "" /\ starts_with_tag rest = false)).
Proof.
  induction s as [|c s IH]; [done|]. intros H.
  destruct (fence_at (String c s)) eqn:Hat.
  - destruct s as [|c2 [|c3 s3]]; try done.
    cbn [fence_at] in Hat. apply andb_true_iff in Hat as [Hat H3].
    apply andb_true_iff in Hat as [H1 H2].
    apply Ascii.eqb_eq in H1 as ->. apply Ascii.eqb_eq in H2 as ->.
    apply Ascii.eqb_eq in H3 as ->.
    destruct (starts_with_tag s3) eqn:Htag.
    + destruct s3 as [|a [|b [|x s6]]]; try done.
      exists "", (String a (String b (String x ""))), s6.
      split; [done|]. split; [done|]. split; [done|]. by left.
    + exists "", "", s3. split; [done|]. split; [done|]. split; [done|].
      by right.
  - cbn [has_fence] in H. rewrite Hat in H. cbn [orb] in H.
    destruct (IH H) as (text & tag & rest & -> & Hf & Hl & Htag).
    exists (String c text), tag, rest. split; [done|].
    assert (fence_at (String c text) = false) as Hct
      by (by apply (fence_at_prefix (String c text) ("```" ++ tag ++ rest))).
    split; [cbn [has_fence]; by rewrite Hct, Hf|]. split; [|done].
    destruct text as [|c2 text]; [|exact Hl].
    cbn [Py.last_char Py.char_is]. destruct (is_backtick c) eqn:Hc; [|done].
    apply Ascii.eqb_eq in Hc as ->. done.
Qed.

(** The shape of a sanitized text. *)
Lemma clean_sql_shape raw :
  has_fence (_clean_sql raw) = false
  /\ Py.char_is Py.isspace (Py.first_char (_clean_sql raw)) = false
  /\ Py.char_is is_semicolon (Py.last_char (_clean_sql raw)) = false.
Proof.
  assert (has_fence (Py.strip (remove_fences raw)) = false) as Hstrip.
  { unfold Py.strip.
    destruct (rstrip_split Py.isspace (Py.lstrip Py.isspace (remove_fences raw)))
      as (t & Ht & _).
    apply (has_fence_prefix _ t). rewrite <- Ht.
    apply has_fence_lstrip, remove_fences_no_fence. }
  unfold _clean_sql.
  destruct (rstrip_split is_semicolon (Py.strip (remove_fences raw)))
    as (t & Ht & Hsemi).
  split. { apply (has_fence_prefix _ t). by rewrite <- Ht. }
  split; [|apply rstrip_last].
  destruct (rstrip_first is_semicolon (Py.strip (remove_fences raw))) as [->| ->];
    [done|]. unfold Py.strip.
  destruct (rstrip_first Py.isspace (Py.lstrip Py.isspace (remove_fences raw)))
    as [->| ->]; [done|]. apply lstrip_first.
Qed.

(** ** The reducer, the nodes and the edges *)

(** add_messages *)
(** A new id is not among the ids in use. *)
Lemma uuid4_fresh used : uuid4 used ∉ used.
Proof.
  intros Hin. unfold uuid4 in Hin.
  assert (Forall (fun k => k <= list_max used) used) as HF
    by (apply List.list_max_le; lia).
  rewrite Forall_forall in HF. apply HF in Hin. lia.
Qed.

(** Assigning ids changes neither who spoke nor what was said, and every
    id of the result is in use afterwards. *)
Lemma assign_ids_spec ms : forall used l used',
  assign_ids used ms = (l, used') ->
  (forall j, j ∈ ids_of ms -> j ∈ used) ->
  map utterance l = map utterance ms
  /\ (forall j, j ∈ used -> j ∈ used')
  /\ (forall j, j ∈ ids_of l -> j ∈ used').
Proof.
  induction ms as [|m ms IH]; intros used l used' H Hsub.
  - simpl in H. injection H as <- <-. split; [done|]. split; [done|].
    intros j Hj. by apply elem_of_nil in Hj.
  - simpl in H. destruct (msg_id m) as [i|] eqn:Hm.
    + destruct (assign_ids used ms) as [r u] eqn:Hr. injection H as <- <-.
      destruct (IH _ _ _ Hr) as (IH1 & IH2 & IH3).
      { intros j Hj. apply Hsub. unfold ids_of. simpl. rewrite Hm. by right. }
      split; [simpl; by rewrite IH1|]. split; [done|].
      intros j Hj. unfold ids_of in Hj. simpl in Hj. rewrite Hm in Hj.
      apply elem_of_cons in Hj as [->|Hj]; [|by apply IH3].
      apply IH2, Hsub. unfold ids_of. simpl. rewrite Hm. by left.
    + destruct (assign_ids (uuid4 used :: used) ms) as [r u] eqn:Hr.
      injection H as <- <-.
      destruct (IH _ _ _ Hr) as (IH1 & IH2 & IH3).
      { intros j Hj. right. apply Hsub. unfold ids_of. simpl. by rewrite Hm. }
      split; [simpl; by rewrite IH1|].
      split; [intros j Hj; apply IH2; by right|].
      intros j Hj. unfold ids_of in Hj. simpl in Hj.
      apply elem_of_cons in Hj as [->|Hj]; [|by apply IH3].
      apply IH2. by left.
Qed.

(** An id that no message carries is not in the dictionary. *)
Lemma index_by_id_fresh i ms : i ∉ ids_of ms -> index_by_id i ms = None.
Proof.
  induction ms as [|m ms IH]; [done|]. intros Hi. simpl.
  rewrite IH.
  - destruct (decide (msg_id m = Some i)) as [Hm|]; [|done].
    exfalso. apply Hi. unfold ids_of. simpl. rewrite Hm. by left.
  - intros Hin. apply Hi. unfold ids_of. simpl.
    destruct (msg_id m); [by right|done].
Qed.

(** Writing one message without an id appends it. *)
Lemma add_messages_snoc old m :
  msg_id m = None ->
  exists old' i,
    add_messages old [m] = (old' ++ [with_id m i])%list
    /\ map utterance old' = map utterance old.
Proof.
  intros Hm. unfold add_messages.
  destruct (assign_ids (ids_of old ++ ids_of [m])%list old) as [l used] eqn:Hl.
  apply assign_ids_spec in Hl as (H1 & H2 & H3).
  2:{ intros j Hj. apply elem_of_app. by left. }
  simpl. rewrite Hm. exists l, (uuid4 used). split; [|done].
  unfold merge_message. simpl.
  rewrite index_by_id_fresh; [done|].
  intros Hin. apply H3 in Hin. by apply uuid4_fresh in Hin.
Qed.

(** The input of a turn puts the user's utterance last. *)
Lemma input_messages q st :
  exists old' i,
    messages (apply_update (question_input q) st)
    = (old' ++ [mkMessage human q (Some i)])%list
    /\ map utterance old' = map utterance (messages st).
Proof.
  destruct (add_messages_snoc (messages st) (HumanMessage q) eq_refl)
    as (old' & i & H1 & H2).
  by exists old', i.
Qed.

Lemma extract_question_input self q st log :
  extract_question_node self (apply_update (question_input q) st) log
  = (log, Returned (question_update q)).
Proof.
  destruct (input_messages q st) as (old' & i & H & _).
  unfold extract_question_node. rewrite H, last_snoc. done.
Qed.

(** One step of the loop, as an equation. *)
Lemma pregel_step self k n st log :
  n <> END ->
  pregel_loop self (S k) n st log =
  match node_action self n st log with
  | (log1, Returned u) =>
      match next_node n (apply_update u st) with
      | Some n' =>
          match pregel_loop self k n' (apply_update u st) log1 with
          | (log2, Returned (events, final)) =>
              (log2, Returned ((n, u) :: events, final))
          | (log2, Raised e) => (log2, Raised e)
          end
      | None => (log1, Raised "no edge out of the node")
      end
  | (log1, Raised e) => (log1, Raised e)
  end.
Proof.
  intros Hn. destruct n; try done; cbn [pregel_loop]; unfold bind;
    (destruct (node_action _ _ _ _) as [log1 [u|e]]; [|done]);
    (destruct (next_node _ _); [|done]);
    by destruct (pregel_loop _ _ _ _ _) as [log2 [[ev fin]|e]].
Qed.

Lemma pregel_end self k st log :
  pregel_loop self k END st log = (log, Returned ([], st)).
Proof. by destruct k. Qed.

Lemma check_sql_valid_long st :
  10 < String.length (default "" (sql_query st)) -> check_sql_valid st = "valid".
Proof.
  unfold check_sql_valid. intros H.
  destruct (default "" (sql_query st)) as [|c s]; simpl in *; [lia|].
  by apply Nat.ltb_lt in H as ->.
Qed.

Lemma check_sql_valid_short st :
  String.length (default "" (sql_query st)) <= 10 -> check_sql_valid st = "invalid".
Proof.
  unfold check_sql_valid. intros H.
  destruct (default "" (sql_query st)) as [|c s]; simpl in *; [done|].
  assert (~ 10 < S (String.length s)) as Hn by lia.
  by apply Nat.ltb_nlt in Hn as ->.
Qed.

Lemma next_node_sql_valid st :
  10 < String.length (default "" (sql_query st)) ->
  next_node generate_sql st = Some execute_query.
Proof.
  intros H. unfold next_node. cbn [_build_graph].
  by rewrite check_sql_valid_long.
Qed.

Lemma next_node_sql_invalid st :
  String.length (default "" (sql_query st)) <= 10 ->
  next_node generate_sql st = Some handle_error.
Proof.
  intros H. unfold next_node. cbn [_build_graph].
  by rewrite check_sql_valid_short.
Qed.

Lemma next_node_execute_query st :
  next_node execute_query st
  = Some (if has_error st then handle_error else generate_answer).
Proof.
  unfold next_node. cbn [_build_graph]. unfold check_results.
  by destruct (has_error st).
Qed.

Lemma generate_sql_node_eq self st question' log :
  question st = Some question' ->
  generate_sql_node self st log =
  ((log ++ [LlmCall (sql_messages self question')])%list,
   match llm self (sql_messages self question') with
   | Returned response => Returned (sql_update (_clean_sql response))
   | Raised e => Raised e
   end).
Proof.
  intros H. unfold generate_sql_node, bind, getitem, external, ret.
  rewrite H. by destruct (llm self _).
Qed.

Lemma execute_query_node_eq self st sql log :
  sql_query st = Some sql ->
  execute_query_node self st log =
  ((log ++ [DbCall sql])%list,
   Returned match db self sql with
            | Returned rows => results_update rows
            | Raised e => error_update ("Database error: " ++ e)
            end).
Proof.
  intros H.
  unfold execute_query_node, bind, getitem, external, ret, try_except.
  rewrite H. by destruct (db self _).
Qed.

Lemma generate_answer_node_eq self st question' rows log :
  question st = Some question' ->
  db_results st = Some rows ->
  generate_answer_node self st log =
  match rows with
  | [] => (log, Returned (answer_update no_results_answer
                            (AIMessage no_results_answer)))
  | _ :: _ =>
      match json_dumps self rows with
      | Returned results_json =>
          ((log ++ [LlmCall (answer_messages question' results_json)])%list,
           match llm self (answer_messages question' results_json) with
           | Returned reply =>
               Returned (answer_update (Py.strip reply)
                           (AIMessage (Py.strip reply)))
           | Raised e => Raised e
           end)
      | Raised e => (log, Raised e)
      end
  end.
Proof.
  intros H1 H2.
  unfold generate_answer_node, bind, getitem, external, internal, ret.
  rewrite H1, H2. destruct rows; [done|].
  destruct (json_dumps self _); [|done]. by destruct (llm self _).
Qed.


(** The loop from [handle_error]. *)
Lemma loop_handle_error self k st log :
  pregel_loop self (S k) handle_error st log
  = (log, Returned ([(handle_error, error_reply (error st))],
                    apply_update (error_reply (error st)) st)).
Proof.
  rewrite pregel_step by done.
  cbn [node_action handle_error_node ret next_node _build_graph].
  by rewrite pregel_end.
Qed.

(** Steps of a run, as rewriting. *)
Ltac pregel_node := rewrite pregel_step by done; cbn [node_action].

Ltac run_to_generate_sql q :=
  unfold run_graph, recursion_limit; cbn [next_node _build_graph];
  pregel_node; rewrite extract_question_input;
  cbn [next_node _build_graph];
  pregel_node; rewrite (generate_sql_node_eq _ _ q) by done.

Ltac run_execute_query sql Hdb :=
  rewrite next_node_sql_valid by done;
  pregel_node; rewrite (execute_query_node_eq _ _ sql) by done;
  rewrite Hdb, next_node_execute_query.

Section Turns.
Context (self : PhoneRAGGraph) (q : string) (st : RAGState).

Let st_in := apply_update (question_input q) st.

(** Each shape of [Turn] is a run of the graph: the run makes the calls
    of the shape, yields its events and ends in the state that the
    updates of the events give. *)
Lemma turn_sound calls events :
  Turn self q st calls events ->
  forall log,
    run_graph self (question_input q) st log
    = ((log ++ calls)%list, Returned (events, replay events st_in)).
Proof.
  intros HT log. run_to_generate_sql q.
  destruct HT as [resp Hllm Hlen|resp e Hllm Hlen Hdb|resp rows Hllm Hlen Hdb Herr
                  |resp Hllm Hlen Hdb Herr
                  |resp rows results_json reply Hllm Hlen Hdb Hrows Herr Hjson Hans];
    rewrite Hllm.
  - rewrite next_node_sql_invalid by done. by rewrite loop_handle_error.
  - run_execute_query (_clean_sql resp) Hdb.
    change (has_error _) with true. rewrite loop_handle_error.
    by rewrite <- app_assoc.
  - run_execute_query (_clean_sql resp) Hdb.
    change (has_error _) with (has_error st). rewrite Herr.
    rewrite loop_handle_error.
    by rewrite <- app_assoc.
  - run_execute_query (_clean_sql resp) Hdb.
    change (has_error _) with (has_error st). rewrite Herr.
    pregel_node. rewrite (generate_answer_node_eq _ _ q []) by done.
    cbn [next_node _build_graph]. rewrite pregel_end.
    by rewrite <- app_assoc.
  - run_execute_query (_clean_sql resp) Hdb.
    change (has_error _) with (has_error st). rewrite Herr.
    pregel_node. rewrite (generate_answer_node_eq _ _ q rows) by done.
    destruct rows as [|row rows]; [done|]. rewrite Hjson, Hans.
    cbn [next_node _build_graph]. rewrite pregel_end.
    by rewrite <- !app_assoc.
Qed.

(** Each shape of [Fault] is a run of the graph that raises: the run
    makes the calls of the shape, and the exception leaves the graph. *)
Lemma fault_sound calls e :
  Fault self q st calls e ->
  forall log,
    run_graph self (question_input q) st log = ((log ++ calls)%list, Raised e).
Proof.
  intros HF log. run_to_generate_sql q.
  destruct HF as [e Hllm|resp rows e Hllm Hlen Hdb Hrows Herr Hjson
                  |resp rows results_json e Hllm Hlen Hdb Hrows Herr Hjson Hans];
    rewrite Hllm.
  - done.
  - run_execute_query (_clean_sql resp) Hdb.
    change (has_error _) with (has_error st). rewrite Herr.
    pregel_node. rewrite (generate_answer_node_eq _ _ q rows) by done.
    destruct rows as [|row rows]; [done|]. rewrite Hjson.
    by rewrite <- app_assoc.
  - run_execute_query (_clean_sql resp) Hdb.
    change (has_error _) with (has_error st). rewrite Herr.
    pregel_node. rewrite (generate_answer_node_eq _ _ q rows) by done.
    destruct rows as [|row rows]; [done|]. rewrite Hjson, Hans.
    by rewrite <- !app_assoc.
Qed.

(** A turn has one of the shapes of [Turn] or one of the shapes of
    [Fault]. *)
Lemma turn_or_fault :
  (exists calls events, Turn self q st calls events)
  \/ (exists calls e, Fault self q st calls e).
Proof.
  destruct (llm self (sql_messages self q)) as [resp|e] eqn:Hllm.
  2:{ right. eexists _, _. by eapply fault_sql_model. }
  destruct (decide (String.length (_clean_sql resp) <= 10)) as [Hlen|Hlen].
  { left. eexists _, _. by eapply turn_invalid_sql. }
  apply Nat.nle_gt in Hlen.
  destruct (db self (_clean_sql resp)) as [rows|e] eqn:Hdb.
  2:{ left. eexists _, _. by eapply turn_store_failure. }
  destruct (has_error st) eqn:Herr.
  { left. eexists _, _. by eapply turn_earlier_error. }
  destruct rows as [|row rows].
  { left. eexists _, _. by eapply turn_no_rows. }
  destruct (json_dumps self (row :: rows)) as [results_json|e] eqn:Hjson.
  2:{ right. eexists _, _. by eapply fault_json_dumps. }
  destruct (llm self (answer_messages q results_json)) as [reply|e] eqn:Hans.
  - left. eexists _, _. by eapply turn_answered.
  - right. eexists _, _. by eapply fault_answer_model.
Qed.

(** Every run that reaches [END] has one of the shapes of [Turn]. *)
Lemma turn_complete log log' events final :
  run_graph self (question_input q) st log = (log', Returned (events, final)) ->
  exists calls,
    log' = (log ++ calls)%list /\ final = replay events st_in
    /\ Turn self q st calls events.
Proof.
  intros H.
  destruct turn_or_fault as [(calls & evs & T)|(calls & e & F)].
  - rewrite (turn_sound _ _ T) in H. injection H as <- <- <-. by exists calls.
  - by rewrite (fault_sound _ _ F) in H.
Qed.

(** Every run that raises has one of the shapes of [Fault]. *)
Lemma fault_complete log log' e :
  run_graph self (question_input q) st log = (log', Raised e) ->
  exists calls, log' = (log ++ calls)%list /\ Fault self q st calls e.
Proof.
  intros H.
  destruct turn_or_fault as [(calls & evs & T)|(calls & e' & F)].
  - by rewrite (turn_sound _ _ T) in H.
  - rewrite (fault_sound _ _ F) in H. injection H as <- <-. by exists calls.
Qed.

End Turns.

(** [ask] in terms of the run of the graph. *)
Lemma ask_eq self q t cp log :
  ask self q t cp log =
  match run_graph self (question_input q) (thread_state cp t) log with
  | (log', Returned (events, final)) =>
      (log', Returned (mkAskResult (default "" (final_answer final))
                                   (default "" (sql_query final))
                                   (default [] (db_results final)),
                       <[t := final]> cp))
  | (log', Raised e) => (log', Raised e)
  end.
Proof.
  unfold ask, app_invoke, app_stream, bind, ret.
  by destruct (run_graph _ _ _ _) as [log' [[events final]|e]].
Qed.

(** The two writes of a turn: the question, then the answer. *)
Lemma messages_turn old q a :
  map utterance (add_messages (add_messages old [HumanMessage q]) [AIMessage a])
  = (map utterance old ++ [(human, q); (ai, a)])%list.
Proof.
  destruct (add_messages_snoc old (HumanMessage q) eq_refl) as (l1 & i1 & E1 & P1).
  rewrite E1.
  destruct (add_messages_snoc (l1 ++ [with_id (HumanMessage q) i1])%list
              (AIMessage a) eq_refl) as (l2 & i2 & E2 & P2).
  rewrite E2, map_app, P2, map_app, P1, <- app_assoc. done.
Qed.

(** Every shape sets [final_answer] and appends question and answer. *)
Lemma turn_messages self q st calls events :
  Turn self q st calls events ->
  exists a,
    final_answer (replay events (apply_update (question_input q) st)) = Some a
    /\ map utterance (messages (replay events (apply_update (question_input q) st)))
       = (map utterance (messages st) ++ [(human, q); (ai, a)])%list.
Proof.
  intros [resp Hllm Hlen|resp e Hllm Hlen Hdb|resp rows Hllm Hlen Hdb Herr
         |resp Hllm Hlen Hdb Herr
         |resp rows results_json reply Hllm Hlen Hdb Hrows Herr Hjson Hans];
    (eexists; split; [reflexivity|]); apply messages_turn.
Qed.

(* ===================================================================== *)
(** * The claims *)
(* ===================================================================== *)

(** ** Sanitization *)

(** C6, as stated, fails: the sanitizer does not stop at one trailing
    semicolon. On [SELECT 1;;] it returns [SELECT 1], where dropping a
    single semicolon leaves [SELECT 1;]. *)
Lemma clean_sql_strips_more_than_one_semicolon :
  _clean_sql "SELECT 1;;" = "SELECT 1"
  /\ sanitize_as_specified "SELECT 1;;" = "SELECT 1;"
  /\ _clean_sql "SELECT 1;;" <> sanitize_as_specified "SELECT 1;;".
Proof. by vm_compute. Qed.

(** C6, amended: for every raw model output the sanitizer removes every
    fence delimiter, three backticks with the tag [sql] in any letter
    case when the tag follows them, and keeps every other character in
    its place: the text up to the first delimiter is kept, the delimiter
    is dropped, and the same holds for what follows. From what is left
    it cuts the white space at both ends, and then the whole run of
    semicolons at the end. The result has no fence, no leading white
    space and no trailing semicolon. *)
Theorem clean_sql_sanitizes (raw : string) :
  (forall text tag rest,
     has_fence text = false ->
     Py.char_is is_backtick (Py.last_char text) = false ->
     is_sql_tag tag = true \/ (tag = "" /\ starts_with_tag rest = false) ->
     remove_fences (text ++ "```" ++ tag ++ rest) = text ++ remove_fences rest)
  /\ (has_fence raw = false -> remove_fences raw = raw)
  /\ (has_fence raw = true ->
      exists text tag rest,
        raw = text ++ "```" ++ tag ++ rest
        /\ has_fence text = false
        /\ Py.char_is is_backtick (Py.last_char text) = false
        /\ (is_sql_tag tag = true
            \/ (tag = "" /\ starts_with_tag rest = false)))
  /\ has_fence (remove_fences raw) = false
  /\ (exists lead trail semicolons,
        remove_fences raw = lead ++ _clean_sql raw ++ semicolons ++ trail
        /\ Py.all_chars Py.isspace lead = true
        /\ Py.all_chars Py.isspace trail = true
        /\ Py.all_chars is_semicolon semicolons = true
        /\ Py.char_is Py.isspace
             (Py.first_char (_clean_sql raw ++ semicolons)) = false
        /\ Py.char_is Py.isspace
             (Py.last_char (_clean_sql raw ++ semicolons)) = false)
  /\ has_fence (_clean_sql raw) = false
  /\ Py.char_is Py.isspace (Py.first_char (_clean_sql raw)) = false
  /\ Py.char_is is_semicolon (Py.last_char (_clean_sql raw)) = false
  /\ (forall tag,
        is_sql_tag tag = true
        <-> exists a b c,
              tag = String a (String b (String c ""))
              /\ (a = "s" \/ a = "S") /\ (b = "q" \/ b = "Q")
              /\ (c = "l" \/ c = "L"))%char
  /\ (forall s,
        starts_with_tag s = true
        <-> exists tag rest, s = tag ++ rest /\ is_sql_tag tag = true)
  /\ (forall c, is_backtick c = true <-> c = "`"%char)
  /\ (forall c, is_semicolon c = true <-> c = ";"%char)
  /\ (forall c,
        Py.isspace c = true
        <-> nat_of_ascii c
            ∈ [9; 10; 11; 12; 13; 28; 29; 30; 31; 32; 133; 160]).
Proof.
  split.
  { intros text tag rest Hf Hl Htag.
    by rewrite remove_fences_text, remove_fences_delimiter. }
  split; [apply remove_fences_id|]. split; [apply first_fence|].
  split; [apply remove_fences_no_fence|]. split.
  { destruct (strip_split (remove_fences raw)) as (lead & trail & Hs & Hl & Ht).
    destruct (rstrip_split is_semicolon (Py.strip (remove_fences raw)))
      as (semicolons & Hc & Hsemi).
    destruct (strip_ends (remove_fences raw)) as [Hfirst Hlast].
    exists lead, trail, semicolons. unfold _clean_sql.
    rewrite <- (append_assoc (Py.rstrip is_semicolon _) semicolons trail).
    by rewrite <- Hc. }
  destruct (clean_sql_shape raw) as (H1 & H2 & H3).
  split; [done|]. split; [done|]. split; [done|]. split.
  { intros tag. split.
    - destruct tag as [|a [|b [|c [|d tag]]]]; try done.
      cbn [is_sql_tag]. unfold is_sql.
      rewrite !andb_true_iff, !orb_true_iff, !Ascii.eqb_eq.
      intros H. exists a, b, c. tauto.
    - intros (a & b & c & -> & H). cbn [is_sql_tag]. unfold is_sql.
      rewrite !andb_true_iff, !orb_true_iff, !Ascii.eqb_eq. tauto. }
  split.
  { intros s. split.
    - destruct s as [|a [|b [|c rest]]]; try done. cbn [starts_with_tag].
      intros H. by exists (String a (String b (String c ""))), rest.
    - intros (tag & rest & -> & H).
      destruct tag as [|a [|b [|c [|d tag]]]]; try done. }
  split; [intros c; apply Ascii.eqb_eq|]. split; [intros c; apply Ascii.eqb_eq|].
  intros c. unfold Py.isspace.
  rewrite !orb_true_iff, !andb_true_iff, !Nat.leb_le, !Nat.eqb_eq.
  rewrite !elem_of_cons, elem_of_nil. lia.
Qed.

Lemma clean_sql_sanitizes_witness :
  remove_fences ("Query: " ++ "```" ++ "SQL" ++ " SELECT 1;; ```")
  = "Query: " ++ remove_fences " SELECT 1;; ```"
  /\ _clean_sql "Query: ```SQL SELECT 1;; ```" = "Query:  SELECT 1".
Proof.
  destruct (clean_sql_sanitizes "") as [Htext _]. split.
  - apply Htext; [reflexivity|reflexivity|by left].
  - reflexivity.
Defined.

(** C7: a text without fences, without surrounding white space and
    without a trailing semicolon is returned unchanged, and the fenced
    [SELECT 1;] of the specification is cleaned to [SELECT 1]. *)
Theorem clean_sql_fixes_sanitized (s : string) :
  has_fence s = false ->
  Py.char_is is_semicolon (Py.last_char s) = false ->
  Py.char_is Py.isspace (Py.first_char s) = false ->
  Py.char_is Py.isspace (Py.last_char s) = false ->
  _clean_sql s = s
  /\ _clean_sql "```sql SELECT 1; ```" = "SELECT 1".
Proof.
  intros Hfence Hsemi Hfirst Hlast. split; [|by vm_compute].
  unfold _clean_sql, Py.strip.
  rewrite remove_fences_id by done.
  rewrite lstrip_id by done.
  rewrite (rstrip_id Py.isspace) by done.
  by apply rstrip_id.
Qed.

Lemma clean_sql_fixes_sanitized_witness :
  _clean_sql Stub.query_5g = Stub.query_5g
  /\ _clean_sql "```sql SELECT 1; ```" = "SELECT 1".
Proof.
  apply (clean_sql_fixes_sanitized Stub.query_5g); reflexivity.
Defined.

(** ** The workflow *)

Lemma error_answer_nonempty text : error_answer text <> "".
Proof. unfold error_answer. simpl. done. Qed.

Lemma no_results_answer_nonempty : no_results_answer <> "".
Proof. done. Qed.

(** C1, as stated, fails: a turn that reaches [END] through
    [generate_answer] with rows and a model reply of white space only
    leaves an empty [final_answer], and [ask] returns an empty answer. *)
Lemma blank_reply_gives_empty_final_answer :
  exists log result checkpointer,
    ask Stub.blank_reply "Which phones have 5G?" "t" ∅ [] 
    = (log, Returned (result, checkpointer))
    /\ r_answer result = ""
    /\ r_results result = Stub.three_rows
    /\ final_answer (thread_state checkpointer "t") = Some "".
Proof.
  eexists _, _, _. split; [vm_compute; reflexivity|]. by vm_compute.
Qed.

(** C1, amended: every turn that reaches [END] has set [final_answer],
    to the text of the assistant message that the last node appended.
    The text is not empty when the turn ends in [handle_error], nor when
    [generate_answer] finds no rows; when [generate_answer] has rows it
    is the model's reply with the surrounding white space stripped,
    which is empty for a reply of white space only. *)
Theorem final_answer_at_end self q st log log' events final :
  run_graph self (question_input q) st log
  = (log', Returned (events, final)) ->
  exists a last_node,
    final_answer final = Some a
    /\ last events = Some (last_node, answer_update a (AIMessage a))
    /\ (last_node = handle_error \/ last_node = generate_answer)
    /\ (last_node = handle_error -> a <> "")
    /\ (last_node = generate_answer ->
        exists rows,
          db_results final = Some rows
          /\ match rows with
             | [] => a = no_results_answer /\ a <> ""
             | _ :: _ =>
                 exists results_json reply,
                   json_dumps self rows = Returned results_json
                   /\ llm self (answer_messages q results_json)
                      = Returned reply
                   /\ a = Py.strip reply
             end).
Proof.
  intros H. apply turn_complete in H as (calls & -> & -> & T).
  destruct T as [resp Hllm Hlen|resp e Hllm Hlen Hdb|resp rows Hllm Hlen Hdb Herr
                |resp Hllm Hlen Hdb Herr
                |resp rows results_json reply Hllm Hlen Hdb Hrows Herr Hjson Hans].
  1-3: eexists _, handle_error; split; [reflexivity|]; split; [reflexivity|];
       split; [by left|]; split; [intros _; apply error_answer_nonempty|done].
  - eexists _, generate_answer. split; [reflexivity|]. split; [reflexivity|].
    split; [by right|]. split; [done|]. intros _. by exists [].
  - eexists _, generate_answer. split; [reflexivity|]. split; [reflexivity|].
    split; [by right|]. split; [done|]. intros _. exists rows.
    split; [done|]. destruct rows; [done|]. by exists results_json, reply.
Qed.

Lemma final_answer_at_end_witness :
  exists log events final,
    run_graph Stub.working (question_input "Which phones have 5G?")
      empty_state [] = (log, Returned (events, final))
    /\ final_answer final = Some "Three models support 5G: A, B, C."
    /\ exists a last_node,
         final_answer final = Some a
         /\ last events = Some (last_node, answer_update a (AIMessage a)).
Proof.
  eexists _, _, _. split; [vm_compute; reflexivity|]. split; [reflexivity|].
  destruct (final_answer_at_end Stub.working "Which phones have 5G?"
              empty_state [] _ _ _ ltac:(vm_compute; reflexivity))
    as (a & n & H1 & H2 & _).
  by exists a, n.
Defined.

(** ** Conversations *)

Lemma history_insert t t0 final (cp : gmap string RAGState) :
  get_conversation_history t (<[t0 := final]> cp)
  = if decide (t0 = t) then messages final else get_conversation_history t cp.
Proof.
  unfold get_conversation_history, thread_state.
  rewrite lookup_insert. destruct (decide (t0 = t)); reflexivity.
Qed.

(** One completed call to [ask] appends the question and the answer it
    returns to the history of its thread, and leaves every other thread
    as it was. *)
Lemma ask_history self q t0 cp log log' result cp' :
  ask self q t0 cp log = (log', Returned (result, cp')) ->
  forall t,
    map utterance (get_conversation_history t cp')
    = (map utterance (get_conversation_history t cp)
       ++ if decide (t0 = t) then [(human, q); (ai, r_answer result)] else [])%list.
Proof.
  rewrite ask_eq.
  destruct (run_graph _ _ _ _) as [log1 [[events final]|e]] eqn:Hrun; [|done].
  intros H t. injection H as <- <- <-.
  rewrite history_insert. destruct (decide (t0 = t)) as [->|]; [|by rewrite app_nil_r].
  apply turn_complete in Hrun as (calls & -> & -> & T).
  destruct (turn_messages _ _ _ _ _ T) as (a & Ha & Hm).
  cbn [r_answer]. rewrite Ha. exact Hm.
Qed.

Lemma ask_all_cons r rest cp log :
  ask_all (r :: rest) cp log =
  match ask (req_agent r) (req_question r) (req_thread r) cp log with
  | (log1, Returned (result, cp1)) =>
      match ask_all rest cp1 log1 with
      | (log2, Returned (results, cp2)) =>
          (log2, Returned (result :: results, cp2))
      | (log2, Raised e) => (log2, Raised e)
      end
  | (log1, Raised e) => (log1, Raised e)
  end.
Proof.
  cbn [ask_all]. unfold bind.
  destruct (ask _ _ _ _ _) as [log1 [[result cp1]|e]]; [|reflexivity].
  destruct (ask_all rest cp1 log1) as [log2 [[results cp2]|e]]; reflexivity.
Qed.

Lemma ask_all_history requests : forall cp log log' results cp',
  ask_all requests cp log = (log', Returned (results, cp')) ->
  List.length results = List.length requests
  /\ forall t,
       map utterance (get_conversation_history t cp')
       = (map utterance (get_conversation_history t cp)
          ++ turns_of t requests results)%list.
Proof.
  induction requests as [|r rest IH]; intros cp log log' results cp' H.
  - injection H as <- <- <-. split; [done|]. intros t. by rewrite app_nil_r.
  - rewrite ask_all_cons in H.
    destruct (ask _ _ _ _ _) as [log1 [[result cp1]|e]] eqn:Hask; [|done].
    destruct (ask_all rest cp1 log1) as [log2 [[results' cp2]|e]] eqn:Hrest;
      [|done].
    injection H as <- <- <-.
    destruct (IH _ _ _ _ _ Hrest) as [Hlen Hhist].
    split; [simpl; by rewrite Hlen|]. intros t.
    rewrite Hhist, (ask_history _ _ _ _ _ _ _ _ Hask t).
    cbn [turns_of]. by rewrite <- app_assoc.
Qed.

Lemma turns_of_length t requests : forall results,
  List.length results = List.length requests ->
  List.length (turns_of t requests results)
  = 2 * List.length (filter (fun r => req_thread r = t) requests).
Proof.
  induction requests as [|r rest IH]; intros [|res results] Hlen; try done.
  cbn [turns_of]. rewrite length_app, IH by (simpl in Hlen; lia).
  rewrite filter_cons. destruct (decide (req_thread r = t)); simpl; lia.
Qed.

(** C2: after a sequence of completed calls to [ask], on any mix of
    threads, the history of each thread is what it was before followed
    by one user entry and one assistant entry per call made on that
    thread, in call order: the question asked and the answer returned.
    On a fresh checkpointer the history of a thread on which N calls were
    made has exactly 2N entries. *)
Theorem history_append_only requests cp log log' results cp' :
  ask_all requests cp log = (log', Returned (results, cp')) ->
  forall thread_id,
    let calls_on_thread :=
      filter (fun r => req_thread r = thread_id) requests in
    map utterance (get_conversation_history thread_id cp')
    = (map utterance (get_conversation_history thread_id cp)
       ++ turns_of thread_id requests results)%list
    /\ List.length (get_conversation_history thread_id cp')
       = List.length (get_conversation_history thread_id cp)
         + 2 * List.length calls_on_thread
    /\ (cp = ∅ ->
        map utterance (get_conversation_history thread_id cp')
        = turns_of thread_id requests results
        /\ List.length (get_conversation_history thread_id cp')
           = 2 * List.length calls_on_thread).
Proof.
  intros H t. destruct (ask_all_history _ _ _ _ _ _ H) as [Hlen Hhist].
  pose proof (turns_of_length t requests results Hlen) as Hn.
  assert (List.length (get_conversation_history t cp')
          = List.length (get_conversation_history t cp)
            + 2 * List.length (filter (fun r => req_thread r = t) requests))
    as Hcount.
  { rewrite <- Hn, <- (length_map utterance (get_conversation_history t cp')).
    by rewrite Hhist, length_app, length_map. }
  split; [apply Hhist|]. split; [exact Hcount|].
  intros ->. split.
  - by rewrite Hhist.
  - by rewrite Hcount.
Qed.


Lemma three_calls_complete :
  exists log results cp,
    ask_all Stub.three_calls ∅ [] = (log, Returned (results, cp)).
Proof. eexists _, _, _. vm_compute. reflexivity. Qed.

Lemma history_append_only_witness :
  exists log results cp,
    ask_all Stub.three_calls ∅ [] = (log, Returned (results, cp))
    /\ map utterance (get_conversation_history "t" cp)
       = turns_of "t" Stub.three_calls results
    /\ List.length (get_conversation_history "t" cp) = 4
    /\ List.length (get_conversation_history "u" cp) = 2.
Proof.
  destruct three_calls_complete as (log & results & cp & Hrun).
  exists log, results, cp. split; [exact Hrun|].
  pose proof (history_append_only Stub.three_calls ∅ [] log results cp Hrun)
    as H.
  destruct (H "t") as (_ & _ & Ht). destruct (Ht eq_refl) as [Ht1 Ht2].
  destruct (H "u") as (_ & _ & Hu). destruct (Hu eq_refl) as [_ Hu2].
  split; [exact Ht1|]. split; [exact Ht2|exact Hu2].
Defined.

(** ** Routing *)

(** A turn on a conversation that has no error on record: valid SQL that
    the store runs to zero rows is answered with the fixed message, and
    the only model call of the turn is the one that wrote the SQL. *)
Lemma empty_result_short_circuit self q st log resp :
  has_error st = false ->
  llm self (sql_messages self q) = Returned resp ->
  10 < String.length (_clean_sql resp) ->
  db self (_clean_sql resp) = Returned [] ->
  exists events final,
    run_graph self (question_input q) st log
    = ((log ++ [LlmCall (sql_messages self q); DbCall (_clean_sql resp)])%list,
       Returned (events, final))
    /\ final_answer final = Some no_results_answer
    /\ last events
       = Some (generate_answer,
               answer_update no_results_answer (AIMessage no_results_answer)).
Proof.
  intros Herr Hllm Hlen Hdb.
  pose proof (turn_no_rows self q st resp Hllm Hlen Hdb Herr) as T.
  eexists _, _. split; [apply (turn_sound _ _ _ _ _ T)|]. by split.
Qed.

(** C3 on the input where the code departs from it. Two calls on one
    thread: in the first the store raises, in the second the store runs
    the valid SQL to zero rows. The second call does not go to
    [generate_answer]: [check_results] still sees the error text of the
    first call, so the answer is the error message with that old text and
    not the fixed no-results message. *)
Theorem earlier_error_hides_empty_result :
  exists log first second checkpointer,
    ask_all [ mkRequest Stub.failing_store "Which phones have 6G?" "t";
              mkRequest Stub.empty_store "Which phones have 5G?" "t" ] ∅ []
    = (log, Returned ([first; second], checkpointer))
    /\ db Stub.empty_store Stub.query_5g = Returned []
    /\ r_sql_query second = Stub.query_5g
    /\ r_answer second = error_answer "Database error: connection lost"
    /\ r_answer second <> no_results_answer
    /\ List.length log = 4.
Proof.
  eexists _, _, _, _. split; [vm_compute; reflexivity|]. by vm_compute.
Qed.

(** C4: [check_sql_valid] answers ["valid"] exactly when the sanitized
    query is longer than 10 characters, and the edge out of
    [generate_sql] follows it. When the model's output sanitizes to 10
    characters or fewer, the turn is [extract_question], [generate_sql],
    [handle_error]; its only external call is the model call for the SQL,
    so the store is not called; and [final_answer] is the error message,
    which begins with the explanatory phrase. *)
Theorem invalid_sql_routes_to_handle_error self q st log resp :
  llm self (sql_messages self q) = Returned resp ->
  String.length (_clean_sql resp) <= 10 ->
  (forall st',
     (check_sql_valid st' = "valid"
      <-> 10 < String.length (default "" (sql_query st')))
     /\ next_node generate_sql st'
        = Some (if decide (10 < String.length (default "" (sql_query st')))
                then execute_query else handle_error))
  /\ exists final,
       run_graph self (question_input q) st log
       = ((log ++ [LlmCall (sql_messages self q)])%list,
          Returned ([ (extract_question, question_update q);
                      (generate_sql, sql_update (_clean_sql resp));
                      (handle_error, error_reply (error st)) ],
                    final))
       /\ sql_query final = Some (_clean_sql resp)
       /\ final_answer final
          = Some (error_answer (default "Unknown error occurred" (error st)))
       /\ Py.startswith "I encountered an issue processing your question: "
            (error_answer (default "Unknown error occurred" (error st)))
          = true.
Proof.
  intros Hllm Hlen. split.
  - intros st'. destruct (decide (10 < _)) as [H|H].
    + split; [|by apply next_node_sql_valid].
      by rewrite check_sql_valid_long.
    + apply Nat.nlt_ge in H. split; [|by apply next_node_sql_invalid].
      rewrite check_sql_valid_short by done. split; [done|lia].
  - pose proof (turn_invalid_sql self q st resp Hllm Hlen) as T.
    eexists. split; [apply (turn_sound _ _ _ _ _ T)|].
    split; [reflexivity|]. split; [reflexivity|]. reflexivity.
Qed.

Lemma invalid_sql_routes_to_handle_error_witness :
  exists final,
    run_graph Stub.short_sql (question_input "Which phones have 5G?")
      empty_state []
    = ([LlmCall (sql_messages Stub.short_sql "Which phones have 5G?")],
       Returned ([ (extract_question, question_update "Which phones have 5G?");
                   (generate_sql, sql_update "no");
                   (handle_error, error_reply None) ],
                 final))
    /\ final_answer final = Some (error_answer "Unknown error occurred").
Proof.
  destruct (invalid_sql_routes_to_handle_error Stub.short_sql
              "Which phones have 5G?" empty_state [] "no"
              ltac:(reflexivity) ltac:(vm_compute; lia))
    as (_ & final & Hrun & _ & Hanswer & _).
  exists final. split; [exact Hrun|exact Hanswer].
Defined.

(** ** Store failures *)

(** C5, as stated, fails on its last clause: the turn in which the store
    raises does not write [db_results], so the rows of an earlier turn
    of the conversation are still there and [ask] returns them next to
    the error answer. *)
Lemma store_failure_keeps_earlier_rows :
  exists log first second checkpointer,
    ask_all [ mkRequest Stub.working "Which phones have 5G?" "t";
              mkRequest Stub.failing_store "Which phones have 6G?" "t" ] ∅ []
    = (log, Returned ([first; second], checkpointer))
    /\ db Stub.failing_store Stub.query_5g = Raised "connection lost"
    /\ r_answer second = error_answer "Database error: connection lost"
    /\ r_results second = Stub.three_rows
    /\ r_results second <> []
    /\ db_results (thread_state checkpointer "t") = Some Stub.three_rows.
Proof.
  eexists _, _, _, _. split; [vm_compute; reflexivity|]. by vm_compute.
Qed.

(** C5, amended: when the store raises on the synthesized SQL, the
    exception is caught inside [execute_query_node] and the turn still
    returns: [error] becomes [Database error: ] followed by the
    exception's text, the turn goes on to [handle_error], [final_answer]
    is the error message built around that text, and [db_results] is not
    written, so it is empty unless the conversation already held rows. *)
Theorem store_failure_routes_to_handle_error self q st log resp e :
  llm self (sql_messages self q) = Returned resp ->
  10 < String.length (_clean_sql resp) ->
  db self (_clean_sql resp) = Raised e ->
  exists final,
    run_graph self (question_input q) st log
    = ((log ++ [LlmCall (sql_messages self q); DbCall (_clean_sql resp)])%list,
       Returned ([ (extract_question, question_update q);
                   (generate_sql, sql_update (_clean_sql resp));
                   (execute_query, error_update ("Database error: " ++ e));
                   (handle_error,
                    error_reply (Some ("Database error: " ++ e))) ],
                 final))
    /\ error final = Some ("Database error: " ++ e)
    /\ final_answer final = Some (error_answer ("Database error: " ++ e))
    /\ error_answer ("Database error: " ++ e)
       = "I encountered an issue processing your question: Database error: "
         ++ e ++ Py.nl ++ Py.nl
         ++ "Please try rephrasing your question or ask something else about Samsung phones."
    /\ db_results final = db_results st
    /\ (db_results st = None -> default [] (db_results final) = []).
Proof.
  intros Hllm Hlen Hdb.
  pose proof (turn_store_failure self q st resp e Hllm Hlen Hdb) as T.
  eexists. split; [apply (turn_sound _ _ _ _ _ T)|].
  split; [reflexivity|]. split; [reflexivity|]. split; [reflexivity|].
  split; [reflexivity|]. cbn. by intros ->.
Qed.

Lemma store_failure_routes_to_handle_error_witness :
  exists final,
    run_graph Stub.failing_store (question_input "Which phones have 6G?")
      empty_state []
    = ([ LlmCall (sql_messages Stub.failing_store "Which phones have 6G?");
         DbCall Stub.query_5g ],
       Returned ([ (extract_question, question_update "Which phones have 6G?");
                   (generate_sql, sql_update Stub.query_5g);
                   (execute_query,
                    error_update "Database error: connection lost");
                   (handle_error,
                    error_reply (Some "Database error: connection lost")) ],
                 final))
    /\ final_answer final
       = Some (error_answer "Database error: connection lost")
    /\ default [] (db_results final) = [].
Proof.
  destruct (store_failure_routes_to_handle_error Stub.failing_store
              "Which phones have 6G?" empty_state [] Stub.query_5g
              "connection lost"
              ltac:(reflexivity) ltac:(vm_compute; lia) ltac:(reflexivity))
    as (final & Hrun & _ & Hanswer & _ & _ & Hrows).
  exists final. split; [exact Hrun|]. split; [exact Hanswer|].
  by apply Hrows.
Defined.

(** ** [handle_error] *)

Lemma add_messages_ai old a :
  map utterance (add_messages old [AIMessage a])
  = (map utterance old ++ [(ai, a)])%list.
Proof.
  destruct (add_messages_snoc old (AIMessage a) eq_refl) as (l & i & E & P).
  by rewrite E, map_app, P.
Qed.

Lemma generate_sql_entered_once n st :
  next_node n st = Some generate_sql -> n = extract_question.
Proof.
  unfold next_node. destruct n; cbn [_build_graph]; try done.
  - unfold check_sql_valid. by destruct (_ && _).
  - unfold check_results. by destruct (has_error st).
Qed.

(** C8, as stated, fails on the invalid-SQL path: the path records no
    error itself, but the error of an earlier turn of the conversation
    is still on record. After a call in which the store raised, a call
    whose SQL is invalid is answered with the message around that old
    database error, not around [Unknown error occurred], although the
    store was not called in it. *)
Lemma invalid_sql_turn_embeds_earlier_error :
  exists log first second checkpointer,
    ask_all [ mkRequest Stub.failing_store "Which phones have 6G?" "t";
              mkRequest Stub.short_sql "Thanks" "t" ] ∅ []
    = (log, Returned ([first; second], checkpointer))
    /\ r_sql_query second = "no"
    /\ r_answer second = error_answer "Database error: connection lost"
    /\ r_answer second <> error_answer "Unknown error occurred"
    /\ filter (fun c => is_db_call c = true) log = [DbCall Stub.query_5g]
    /\ List.length log = 3.
Proof.
  eexists _, _, _, _. split; [vm_compute; reflexivity|]. by vm_compute.
Qed.

(** C8, amended: [handle_error_node] builds the fixed-template message
    around the error text on record in the state, or around
    [Unknown error occurred] when the state has none; it calls neither
    the model nor the store; it writes the message to [final_answer] and
    appends it as one assistant message. Both failure edges lead to it,
    its only edge leads to [END], and [generate_sql] is entered from
    [extract_question] only, so there is no way back. A turn with
    invalid SQL writes no error, so its message is built around what the
    conversation had on record before the turn: [Unknown error occurred]
    when there was nothing, the text of the earlier error otherwise. *)
Theorem handle_error_builds_final_answer self st log k :
  let recorded := default "Unknown error occurred" (error st) in
  let answer := error_answer recorded in
  let update := answer_update answer (AIMessage answer) in
  handle_error_node self st log = (log, Returned update)
  /\ answer
     = "I encountered an issue processing your question: " ++ recorded
       ++ Py.nl ++ Py.nl
       ++ "Please try rephrasing your question or ask something else about Samsung phones."
  /\ (error st = None -> recorded = "Unknown error occurred")
  /\ (forall e, error st = Some e -> recorded = e)
  /\ pregel_loop self (S k) handle_error st log
     = (log, Returned ([(handle_error, update)], apply_update update st))
  /\ final_answer (apply_update update st) = Some answer
  /\ map utterance (messages (apply_update update st))
     = (map utterance (messages st) ++ [(ai, answer)])%list
  /\ sql_query (apply_update update st) = sql_query st
  /\ (forall st', next_node handle_error st' = Some END)
  /\ (forall st',
        String.length (default "" (sql_query st')) <= 10 ->
        next_node generate_sql st' = Some handle_error)
  /\ (forall st',
        has_error st' = true -> next_node execute_query st' = Some handle_error)
  /\ (forall n st', next_node n st' = Some generate_sql -> n = extract_question)
  /\ (forall q st0 log0 resp,
        llm self (sql_messages self q) = Returned resp ->
        String.length (_clean_sql resp) <= 10 ->
        exists events final,
          run_graph self (question_input q) st0 log0
          = ((log0 ++ [LlmCall (sql_messages self q)])%list,
             Returned (events, final))
          /\ last events = Some (handle_error, error_reply (error st0))
          /\ error final = error st0
          /\ final_answer final
             = Some (error_answer
                       (default "Unknown error occurred" (error st0)))
          /\ (error st0 = None ->
              final_answer final
              = Some (error_answer "Unknown error occurred"))
          /\ (forall e,
                error st0 = Some e ->
                final_answer final = Some (error_answer e))).
Proof.
  intros recorded answer update.
  split; [reflexivity|]. split; [reflexivity|].
  split; [by unfold recorded; intros ->|].
  split; [by unfold recorded; intros e ->|].
  split; [apply loop_handle_error|]. split; [reflexivity|].
  split; [apply add_messages_ai|]. split; [reflexivity|].
  split; [reflexivity|]. split; [apply next_node_sql_invalid|].
  split; [intros st' H; by rewrite next_node_execute_query, H|].
  split; [apply generate_sql_entered_once|].
  intros q st0 log0 resp Hllm Hlen.
  pose proof (turn_invalid_sql self q st0 resp Hllm Hlen) as T.
  eexists _, _. split; [apply (turn_sound _ _ _ _ _ T)|].
  split; [reflexivity|]. split; [reflexivity|]. split; [reflexivity|].
  split.
  - intros Hnone. cbn. by rewrite Hnone.
  - intros e He. cbn. by rewrite He.
Qed.

(** ** [extract_question] *)


(** ** What [handle_error] leaves alone *)

(** C10, as stated, fails on the rows: when an earlier turn of the
    conversation stored rows, a later turn that ends in [handle_error]
    still holds them, and [ask] returns them under [results]. *)
Lemma error_turn_returns_earlier_rows :
  exists log first second checkpointer,
    ask_all [ mkRequest Stub.working "Which phones have 5G?" "t";
              mkRequest Stub.short_sql "Thanks" "t" ] ∅ []
    = (log, Returned ([first; second], checkpointer))
    /\ r_answer second = error_answer "Unknown error occurred"
    /\ r_sql_query second = "no"
    /\ r_results second = Stub.three_rows
    /\ r_results second <> [].
Proof.
  eexists _, _, _, _. split; [vm_compute; reflexivity|]. by vm_compute.
Qed.

(** The rows on an error turn are not always those of an earlier turn
    either: on a conversation with an error on record and no rows, a turn
    in which the store returns rows ends in [handle_error] all the same,
    and [ask] returns the rows of this turn. *)
Lemma error_turn_returns_its_own_rows :
  exists log result checkpointer,
    ask Stub.working "Which phones have 5G?" "t" Demo.after_failure []
    = (log, Returned (result, checkpointer))
    /\ db_results (thread_state Demo.after_failure "t") = None
    /\ r_answer result = error_answer "Database error: connection lost"
    /\ r_results result = Stub.three_rows.
Proof.
  eexists _, _, _. split; [vm_compute; reflexivity|]. by vm_compute.
Qed.

(** C10, amended: on every turn that ends in [handle_error], that step
    writes [final_answer] and appends one assistant message, and nothing
    else: [question], [sql_query], [db_results] and [error] are what they
    were before the step. So [ask] returns the error answer, the SQL
    synthesized in this turn under [sql_query], and under [results] the
    rows the state held before the step, the empty list if it held
    none. When the SQL was invalid or the store raised, these are the
    rows the conversation held before the turn. Otherwise the store
    returned rows in this turn, the turn went to [handle_error] because
    the error of an earlier turn is still on record, and these are the
    rows of this turn. *)
Theorem handle_error_frame self q t cp log log' events final u :
  run_graph self (question_input q) (thread_state cp t) log
  = (log', Returned (events, final)) ->
  last events = Some (handle_error, u) ->
  exists before a resp,
    final = apply_update u before
    /\ u = answer_update a (AIMessage a)
    /\ final_answer final = Some a
    /\ map utterance (messages final)
       = (map utterance (messages before) ++ [(ai, a)])%list
    /\ question final = question before
    /\ sql_query final = sql_query before
    /\ db_results final = db_results before
    /\ error final = error before
    /\ llm self (sql_messages self q) = Returned resp
    /\ sql_query final = Some (_clean_sql resp)
    /\ ((db_results before = db_results (thread_state cp t)
         /\ (String.length (_clean_sql resp) <= 10
             \/ exists e, db self (_clean_sql resp) = Raised e))
        \/ (exists rows,
              db self (_clean_sql resp) = Returned rows
              /\ 10 < String.length (_clean_sql resp)
              /\ has_error (thread_state cp t) = true
              /\ db_results before = Some rows))
    /\ (has_error (thread_state cp t) = false ->
        db_results final = db_results (thread_state cp t))
    /\ ask self q t cp log
       = (log', Returned (mkAskResult a (_clean_sql resp)
                            (default [] (db_results before)),
                          <[t := final]> cp)).
Proof.
  intros Hrun Hlast. pose proof (ask_eq self q t cp log) as Hask.
  rewrite Hrun in Hask.
  apply turn_complete in Hrun as (calls & -> & -> & T).
  destruct T as [resp Hllm Hlen|resp e Hllm Hlen Hdb|resp rows Hllm Hlen Hdb Herr
                |resp Hllm Hlen Hdb Herr
                |resp rows results_json reply Hllm Hlen Hdb Hrows Herr Hjson Hans];
    try (by simpl in Hlast); injection Hlast as <-.
  - exists (replay [ (extract_question, question_update q);
                     (generate_sql, sql_update (_clean_sql resp)) ]
              (apply_update (question_input q) (thread_state cp t))).
    eexists _, resp. split; [reflexivity|]. split; [reflexivity|].
    split; [reflexivity|]. split; [apply add_messages_ai|].
    do 4 (split; [reflexivity|]). split; [exact Hllm|].
    split; [reflexivity|]. split; [left; split; [reflexivity|by left]|].
    split; [reflexivity|]. exact Hask.
  - exists (replay [ (extract_question, question_update q);
                     (generate_sql, sql_update (_clean_sql resp));
                     (execute_query, error_update ("Database error: " ++ e)) ]
              (apply_update (question_input q) (thread_state cp t))).
    eexists _, resp. split; [reflexivity|]. split; [reflexivity|].
    split; [reflexivity|]. split; [apply add_messages_ai|].
    do 4 (split; [reflexivity|]). split; [exact Hllm|].
    split; [reflexivity|].
    split; [left; split; [reflexivity|right; by exists e]|].
    split; [reflexivity|]. exact Hask.
  - exists (replay [ (extract_question, question_update q);
                     (generate_sql, sql_update (_clean_sql resp));
                     (execute_query, results_update rows) ]
              (apply_update (question_input q) (thread_state cp t))).
    eexists _, resp. split; [reflexivity|]. split; [reflexivity|].
    split; [reflexivity|]. split; [apply add_messages_ai|].
    do 4 (split; [reflexivity|]). split; [exact Hllm|].
    split; [reflexivity|]. split; [right; by exists rows|].
    split; [by rewrite Herr|]. exact Hask.
Qed.

Lemma handle_error_frame_witness :
  exists log events final,
    run_graph Stub.short_sql (question_input "Which phones have 5G?")
      (thread_state ∅ "t") [] = (log, Returned (events, final))
    /\ last events = Some (handle_error, error_reply None)
    /\ exists a,
         ask Stub.short_sql "Which phones have 5G?" "t" ∅ []
         = (log, Returned (mkAskResult a "no" [], <["t" := final]> ∅)).
Proof.
  pose proof (turn_invalid_sql Stub.short_sql "Which phones have 5G?"
                (thread_state ∅ "t") "no" eq_refl ltac:(vm_compute; lia)) as T.
  pose proof (turn_sound _ _ _ _ _ T []) as Hrun.
  eexists _, _, _. split; [exact Hrun|]. split; [reflexivity|].
  destruct (handle_error_frame _ _ _ _ _ _ _ _ _ Hrun eq_refl)
    as (before & a & resp & _ & _ & _ & _ & _ & _ & Hrows & _ & Hllm
        & _ & _ & Hkeep & Hask).
  exists a. rewrite Hask. injection Hllm as <-.
  specialize (Hkeep eq_refl). rewrite <- Hrows, Hkeep. reflexivity.
Defined.

(* ===================================================================== *)
(** * Further properties of the code *)
(* ===================================================================== *)

(** ** Calls and exceptions of a turn *)

(** Every run of a turn, whether it returns or raises, extends the log
    by one of three call sequences. *)
Lemma run_graph_calls self q st log log' result :
  run_graph self (question_input q) st log = (log', result) ->
  exists calls,
    log' = (log ++ calls)%list
    /\ (calls = [LlmCall (sql_messages self q)]
        \/ exists resp,
             llm self (sql_messages self q) = Returned resp
             /\ 10 < String.length (_clean_sql resp)
             /\ (calls = [ LlmCall (sql_messages self q);
                           DbCall (_clean_sql resp) ]
                 \/ exists prompt,
                      calls = [ LlmCall (sql_messages self q);
                                DbCall (_clean_sql resp);
                                LlmCall prompt ])).
Proof.
  intros H. destruct result as [[events final]|e].
  - apply turn_complete in H as (calls & -> & _ & T). exists calls.
    split; [done|].
    destruct T as [resp Hllm Hlen|resp e Hllm Hlen Hdb|resp rows Hllm Hlen Hdb Herr
                  |resp Hllm Hlen Hdb Herr
                  |resp rows results_json reply Hllm Hlen Hdb Hrows Herr Hjson Hans];
      [by left|right; exists resp; split; [done|]; split; [done|]..];
      [by left|by left|by left|right; by eexists].
  - apply fault_complete in H as (calls & -> & F). exists calls.
    split; [done|].
    destruct F as [e Hllm|resp rows e Hllm Hlen Hdb Hrows Herr Hjson
                  |resp rows results_json e Hllm Hlen Hdb Hrows Herr Hjson Hans];
      [by left|right; exists resp; split; [done|]; split; [done|]..];
      [by left|right; by eexists].
Qed.

(** X1: whatever a turn does, returning or raising, its external calls
    begin with the model call for the SQL; it makes at most two model
    calls and at most one store call, and a second model call comes
    right after the store call. *)
Theorem turn_call_budget self q st log :
  exists calls,
    (run_graph self (question_input q) st log).1 = (log ++ calls)%list
    /\ head calls = Some (LlmCall (sql_messages self q))
    /\ List.length (filter (fun c => is_llm_call c = true) calls) <= 2
    /\ List.length (filter (fun c => is_db_call c = true) calls) <= 1
    /\ (forall i prompt,
          calls !! i = Some (LlmCall prompt) -> 0 < i ->
          exists sql, calls !! (i - 1) = Some (DbCall sql)).
Proof.
  destruct (run_graph self (question_input q) st log) as [log' result] eqn:H.
  destruct (run_graph_calls _ _ _ _ _ _ H)
    as (calls & -> & [->|(resp & _ & _ & [->|(prompt' & ->)])]);
    eexists; (split; [reflexivity|]); (split; [reflexivity|]);
    (split; [vm_compute; lia|]); (split; [vm_compute; lia|]);
    intros [|[|[|i]]] prompt Hi Hpos; try done; try lia; by eexists.
Qed.

(** X2: the store is only ever asked to run the sanitized output of the
    SQL model call of the same turn: a text longer than 10 characters,
    without fences, without leading white space and without a trailing
    semicolon. *)
Theorem store_receives_only_sanitized_sql self q st log sql :
  DbCall sql ∈ drop (List.length log) (run_graph self (question_input q) st log).1 ->
  10 < String.length sql
  /\ has_fence sql = false
  /\ Py.char_is Py.isspace (Py.first_char sql) = false
  /\ Py.char_is is_semicolon (Py.last_char sql) = false
  /\ exists resp,
       llm self (sql_messages self q) = Returned resp /\ sql = _clean_sql resp.
Proof.
  destruct (run_graph self (question_input q) st log) as [log' result] eqn:H.
  destruct (run_graph_calls _ _ _ _ _ _ H) as (calls & -> & Hshape).
  cbn [fst]. rewrite drop_app_length. intros Hin.
  assert (exists resp, llm self (sql_messages self q) = Returned resp
            /\ 10 < String.length (_clean_sql resp) /\ sql = _clean_sql resp)
    as (resp & Hllm & Hlen & ->).
  { destruct Hshape as [->|(resp & Hllm & Hlen & [->|(prompt & ->)])].
    - apply list_elem_of_singleton in Hin. done.
    - exists resp. repeat (apply elem_of_cons in Hin as [Hin|Hin]; try done).
      + by injection Hin as ->.
      + by apply elem_of_nil in Hin.
    - exists resp. repeat (apply elem_of_cons in Hin as [Hin|Hin]; try done).
      + by injection Hin as ->.
      + by apply elem_of_nil in Hin. }
  destruct (clean_sql_shape resp) as (H1 & H2 & H3).
  split; [done|]. split; [done|]. split; [done|]. split; [done|]. by exists resp.
Qed.

Lemma store_receives_only_sanitized_sql_witness :
  10 < String.length Stub.query_5g /\ has_fence Stub.query_5g = false.
Proof.
  pose proof (turn_store_failure Stub.failing_store "Which phones have 6G?"
                empty_state Stub.query_5g "connection lost"
                eq_refl ltac:(vm_compute; lia) eq_refl) as T.
  pose proof (turn_sound _ _ _ _ _ T []) as Hrun.
  destruct (store_receives_only_sanitized_sql Stub.failing_store
              "Which phones have 6G?" empty_state [] Stub.query_5g)
    as (H1 & H2 & _).
  { rewrite Hrun. cbn [fst app List.length drop].
    rewrite !elem_of_cons. right. by left. }
  by split.
Defined.

(** X3: the exception of a node leaves the turn. [generate_sql_node] and
    [generate_answer_node] have no [try]: when the model call for the
    SQL raises, the turn raises its exception after that one call. When
    the store has returned rows on a conversation with no error on
    record and [json.dumps] raises on them, the turn raises that
    exception after the store call, and the model is not asked for an
    answer. When [json.dumps] returns and the model call for the answer
    raises, the turn raises its exception after the three calls. *)
Theorem node_exceptions_leave_the_turn self q st log :
  (forall e,
     llm self (sql_messages self q) = Raised e ->
     run_graph self (question_input q) st log
     = ((log ++ [LlmCall (sql_messages self q)])%list, Raised e))
  /\ (forall resp rows,
        llm self (sql_messages self q) = Returned resp ->
        10 < String.length (_clean_sql resp) ->
        db self (_clean_sql resp) = Returned rows ->
        rows <> [] ->
        has_error st = false ->
        (forall e,
           json_dumps self rows = Raised e ->
           run_graph self (question_input q) st log
           = ((log ++ [ LlmCall (sql_messages self q);
                        DbCall (_clean_sql resp) ])%list,
              Raised e))
        /\ (forall results_json e,
              json_dumps self rows = Returned results_json ->
              llm self (answer_messages q results_json) = Raised e ->
              run_graph self (question_input q) st log
              = ((log ++ [ LlmCall (sql_messages self q);
                           DbCall (_clean_sql resp);
                           LlmCall (answer_messages q results_json) ])%list,
                 Raised e))).
Proof.
  split.
  - intros e Hllm. apply fault_sound. by apply fault_sql_model.
  - intros resp rows Hllm Hlen Hdb Hrows Herr. split.
    + intros e Hjson. apply fault_sound. by eapply fault_json_dumps.
    + intros results_json e Hjson Hans. apply fault_sound.
      by eapply fault_answer_model.
Qed.

Lemma node_exceptions_leave_the_turn_witness :
  run_graph Demo.model_down (question_input "Which phones have 5G?")
    empty_state []
  = ([LlmCall (sql_messages Demo.model_down "Which phones have 5G?")],
     Raised "rate limit exceeded")
  /\ run_graph Stub.every_column (question_input "Show me one phone")
       empty_state []
     = ([ LlmCall (sql_messages Stub.every_column "Show me one phone");
          DbCall Stub.select_all ],
        Raised "Object of type datetime is not JSON serializable").
Proof.
  split.
  - destruct (node_exceptions_leave_the_turn Demo.model_down
                "Which phones have 5G?" empty_state []) as [Hsql _].
    by apply Hsql.
  - destruct (node_exceptions_leave_the_turn Stub.every_column
                "Show me one phone" empty_state []) as [_ Hrows].
    destruct (Hrows Stub.select_all Stub.dated_rows eq_refl
                ltac:(vm_compute; lia) eq_refl ltac:(done) eq_refl)
      as [Hjson _].
    by apply Hjson.
Defined.

(** X4: a turn in which the model call for the SQL returns and the store
    hands back no rows always returns, whatever the model would do on
    another prompt: when the sanitized SQL is too short, when the store
    raises and when the store returns the empty list. The turn makes no
    second model call, and its answer is the error message or the fixed
    no-results message. *)
Theorem turn_without_rows_returns self q st log resp :
  llm self (sql_messages self q) = Returned resp ->
  String.length (_clean_sql resp) <= 10
  \/ (exists e, db self (_clean_sql resp) = Raised e)
  \/ db self (_clean_sql resp) = Returned [] ->
  exists calls events final,
    run_graph self (question_input q) st log
    = ((log ++ calls)%list, Returned (events, final))
    /\ filter (fun c => is_llm_call c = true) calls
       = [LlmCall (sql_messages self q)]
    /\ (final_answer final = Some no_results_answer
        \/ exists text, final_answer final = Some (error_answer text)).
Proof.
  intros Hllm Hcase.
  assert (exists calls events, Turn self q st calls events
            /\ filter (fun c => is_llm_call c = true) calls
               = [LlmCall (sql_messages self q)]
            /\ (final_answer (replay events (apply_update (question_input q) st))
                = Some no_results_answer
                \/ exists text,
                     final_answer (replay events (apply_update (question_input q) st))
                     = Some (error_answer text)))
    as (calls & events & T & Hcalls & Hanswer).
  { destruct (decide (String.length (_clean_sql resp) <= 10)) as [Hlen|Hlen].
    { eexists _, _. split; [by eapply turn_invalid_sql|].
      split; [reflexivity|]. right. by eexists. }
    apply Nat.nle_gt in Hlen.
    destruct Hcase as [Hshort|[[e Hdb]|Hdb]]; [lia| |].
    { eexists _, _. split; [by eapply turn_store_failure|].
      split; [reflexivity|]. right. by eexists. }
    destruct (has_error st) eqn:Herr.
    - eexists _, _. split; [by eapply turn_earlier_error|].
      split; [reflexivity|]. right. by eexists.
    - eexists _, _. split; [by eapply turn_no_rows|].
      split; [reflexivity|]. by left. }
  exists calls, events. eexists. split; [apply (turn_sound _ _ _ _ _ T)|].
  by split.
Qed.

Lemma turn_without_rows_returns_witness :
  exists calls events final,
    run_graph Stub.failing_store (question_input "Which phones have 6G?")
      empty_state []
    = (calls, Returned (events, final))
    /\ filter (fun c => is_llm_call c = true) calls
       = [LlmCall (sql_messages Stub.failing_store "Which phones have 6G?")].
Proof.
  destruct (turn_without_rows_returns Stub.failing_store
              "Which phones have 6G?" empty_state [] Stub.query_5g eq_refl)
    as (calls & events & final & Hrun & Hcalls & _).
  { right. left. by exists "connection lost". }
  by exists calls, events, final.
Defined.

Lemma turn_error_stays self q st calls events :
  has_error st = true ->
  Turn self q st calls events ->
  has_error (replay events (apply_update (question_input q) st)) = true
  /\ exists text,
       last events = Some (handle_error, error_reply (Some text))
       /\ error (replay events (apply_update (question_input q) st)) = Some text
       /\ final_answer (replay events (apply_update (question_input q) st))
          = Some (error_answer text).
Proof.
  intros Herr T. unfold has_error in Herr.
  destruct (error st) as [old|] eqn:Hold; [|done].
  destruct T as [resp Hllm Hlen|resp e Hllm Hlen Hdb|resp rows Hllm Hlen Hdb Herr'
                |resp Hllm Hlen Hdb Herr'
                |resp rows results_json reply Hllm Hlen Hdb Hrows Herr' Hjson Hans].
  - split; [unfold has_error; cbn; by rewrite Hold|].
    exists old. rewrite Hold. split; [done|]. cbn. by rewrite Hold.
  - split; [done|]. by eexists.
  - split; [unfold has_error; cbn; by rewrite Hold|].
    exists old. rewrite Hold. split; [done|]. cbn. by rewrite Hold.
  - unfold has_error in Herr'. rewrite Hold in Herr'. congruence.
  - unfold has_error in Herr'. rewrite Hold in Herr'. congruence.
Qed.

Lemma thread_state_insert t t0 final (cp : gmap string RAGState) :
  thread_state (<[t0 := final]> cp) t
  = if decide (t0 = t) then final else thread_state cp t.
Proof.
  unfold thread_state. rewrite lookup_insert.
  destruct (decide (t0 = t)); reflexivity.
Qed.

Lemma ask_error_stays self q t0 cp log log' result cp' t :
  ask self q t0 cp log = (log', Returned (result, cp')) ->
  has_error (thread_state cp t) = true ->
  has_error (thread_state cp' t) = true
  /\ (t0 = t -> exists text,
        r_answer result = error_answer text
        /\ error (thread_state cp' t) = Some text).
Proof.
  rewrite ask_eq.
  destruct (run_graph _ _ _ _) as [log1 [[events final]|e]] eqn:Hrun; [|done].
  intros H Herr. injection H as <- <- <-.
  rewrite thread_state_insert.
  destruct (decide (t0 = t)) as [->|Hne].
  - apply turn_complete in Hrun as (calls & -> & -> & T).
    destruct (turn_error_stays _ _ _ _ _ Herr T)
      as (Hstay & text & Hlast & Htext & Hfa).
    split; [done|]. intros _. exists text. split; [|done]. cbn [r_answer].
    by rewrite Hfa.
  - split; [done|]. done.
Qed.

(** X5: no node clears [error]. Once the state of a thread has an error on
    record, it still has one after any sequence of completed calls, on
    any threads, and every one of those calls made on that thread is
    answered with the error message. *)
Theorem error_on_record_is_permanent requests : forall cp log log' results cp' t,
  ask_all requests cp log = (log', Returned (results, cp')) ->
  has_error (thread_state cp t) = true ->
  has_error (thread_state cp' t) = true
  /\ Forall2 (fun r res =>
                req_thread r = t -> exists text, r_answer res = error_answer text)
             requests results.
Proof.
  induction requests as [|r rest IH]; intros cp log log' results cp' t H Herr.
  - injection H as <- <- <-. by split.
  - rewrite ask_all_cons in H.
    destruct (ask _ _ _ _ _) as [log1 [[result cp1]|e]] eqn:Hask; [|done].
    destruct (ask_all rest cp1 log1) as [log2 [[results' cp2]|e]] eqn:Hrest;
      [|done].
    injection H as <- <- <-.
    destruct (ask_error_stays _ _ _ _ _ _ _ _ t Hask Herr) as [Herr1 Hans].
    destruct (IH _ _ _ _ _ t Hrest Herr1) as [Herr2 Hall].
    split; [done|]. constructor; [|done].
    intros Ht. destruct (Hans Ht) as (text & Htext & _). by exists text.
Qed.

Lemma call_after_failure_complete :
  exists log results cp,
    ask_all [mkRequest Stub.working "Which phones have 5G?" "t"]
      Demo.after_failure [] = (log, Returned (results, cp)).
Proof. eexists _, _, _. vm_compute. reflexivity. Qed.

Lemma error_on_record_is_permanent_witness :
  exists log results cp,
    ask_all [mkRequest Stub.working "Which phones have 5G?" "t"]
      Demo.after_failure [] = (log, Returned (results, cp))
    /\ has_error (thread_state cp "t") = true
    /\ Forall2 (fun r res =>
                  req_thread r = "t" ->
                  exists text, r_answer res = error_answer text)
         [mkRequest Stub.working "Which phones have 5G?" "t"] results.
Proof.
  destruct call_after_failure_complete as (log & results & cp & Hrun).
  exists log, results, cp. split; [exact Hrun|].
  apply (error_on_record_is_permanent _ _ _ _ _ _ "t" Hrun). by vm_compute.
Defined.

Lemma call_on_fresh_thread_complete :
  exists log r cp,
    ask Stub.working "Which phones have 5G?" "u" ∅ []
    = (log, Returned (r, cp)).
Proof. eexists _, _, _. vm_compute. reflexivity. Qed.

(** X7: what [ask] returns is what the checkpointer holds for the thread
    afterwards: the answer is [final_answer] and the content of the last
    message, an assistant message; [sql_query] is the sanitized output
    of this turn's model call; [results] are the stored rows; and the
    stored question is the one asked. *)
Theorem ask_result_mirrors_state self q t cp log log' r cp' :
  ask self q t cp log = (log', Returned (r, cp')) ->
  exists st' resp,
    cp' !! t = Some st'
    /\ question st' = Some q
    /\ final_answer st' = Some (r_answer r)
    /\ last (map utterance (messages st')) = Some (ai, r_answer r)
    /\ llm self (sql_messages self q) = Returned resp
    /\ r_sql_query r = _clean_sql resp
    /\ sql_query st' = Some (r_sql_query r)
    /\ r_results r = default [] (db_results st').
Proof.
  rewrite ask_eq.
  destruct (run_graph _ _ _ _) as [log1 [[events final]|e]] eqn:Hrun; [|done].
  intros H. injection H as <- <- <-.
  apply turn_complete in Hrun as (calls & -> & -> & T).
  destruct (turn_messages _ _ _ _ _ T) as (a & Ha & Hm).
  cbn [r_answer r_sql_query r_results]. rewrite Ha. cbn [default].
  assert (last (map utterance
                  (messages (replay events
                     (apply_update (question_input q) (thread_state cp t)))))
          = Some (ai, a)) as Hlast by (by rewrite Hm, last_app).
  clear Hm.
  destruct T as [resp Hllm Hlen|resp e Hllm Hlen Hdb|resp rows Hllm Hlen Hdb Herr
                |resp Hllm Hlen Hdb Herr
                |resp rows results_json reply Hllm Hlen Hdb Hrows Herr Hjson Hans];
    eexists _, resp; (split; [apply lookup_insert_eq|]);
    (split; [reflexivity|]); (split; [exact Ha|]); (split; [exact Hlast|]);
    (split; [exact Hllm|]); (split; [reflexivity|]); (split; reflexivity).
Qed.

Lemma ask_result_mirrors_state_witness :
  exists log r cp st',
    ask Stub.working "Which phones have 5G?" "u" ∅ []
    = (log, Returned (r, cp))
    /\ cp !! "u" = Some st'
    /\ question st' = Some "Which phones have 5G?"
    /\ final_answer st' = Some (r_answer r).
Proof.
  destruct call_on_fresh_thread_complete as (log & r & cp & Hrun).
  destruct (ask_result_mirrors_state _ _ _ _ _ _ _ _ Hrun)
    as (st' & resp & H1 & H2 & H3 & _).
  by exists log, r, cp, st'.
Defined.

(** ** Substrings, and what the prompts carry *)

Lemma startswith_iff p s :
  Py.startswith p s = true <-> exists post, s = p ++ post.
Proof.
  revert s. induction p as [|a p IH]; intros s; simpl.
  - split; [intros _; by exists s|done].
  - destruct s as [|b s]; [split; [done|by intros [post H]]|].
    rewrite andb_true_iff, Ascii.eqb_eq, IH. split.
    + intros [-> [post ->]]. by exists post.
    + intros [post H]. injection H as -> ->. split; [done|by exists post].
Qed.

Lemma contains_iff sub s :
  Py.contains sub s = true <-> exists pre post, s = pre ++ sub ++ post.
Proof.
  induction s as [|c s IH].
  - cbn [Py.contains]. rewrite orb_false_r, startswith_iff. split.
    + intros [post H]. by exists "", post.
    + intros ([|x pre] & post & H); [by exists post|done].
  - cbn [Py.contains]. rewrite orb_true_iff, startswith_iff, IH. split.
    + intros [[post H]|(pre & post & H)].
      * by exists "", post.
      * exists (String c pre), post. by rewrite H.
    + intros ([|x pre] & post & H).
      * left. by exists post.
      * right. injection H as -> ->. by exists pre, post.
Qed.

Lemma contains_app_r x a b : Py.contains x b = true -> Py.contains x (a ++ b) = true.
Proof.
  rewrite !contains_iff. intros (pre & post & ->).
  exists (a ++ pre), post. by rewrite append_assoc.
Qed.

Lemma contains_app_l x a b : Py.contains x a = true -> Py.contains x (a ++ b) = true.
Proof.
  rewrite !contains_iff. intros (pre & post & ->).
  exists pre, (post ++ b). by rewrite !append_assoc.
Qed.

Lemma contains_refl x : Py.contains x x = true.
Proof.
  apply contains_iff. exists "", "". by rewrite append_nil_r.
Qed.

Lemma contains_join x sep parts :
  x ∈ parts -> Py.contains x (Py.join sep parts) = true.
Proof.
  induction parts as [|p parts IH]; intros Hin; [by apply elem_of_nil in Hin|].
  apply elem_of_cons in Hin as [->|Hin].
  - destruct parts as [|p' parts]; cbn [Py.join]; [apply contains_refl|].
    apply contains_app_l, contains_refl.
  - destruct parts as [|p' parts]; [by apply elem_of_nil in Hin|].
    cbn [Py.join]. apply contains_app_r, contains_app_r. by apply IH.
Qed.

(** X8: the prompts carry their inputs verbatim. The SQL prompt contains
    the question as given, the schema and both parts of every example;
    the answer prompt contains the question and the serialized rows,
    the text that [json.dumps] returned. *)
Theorem prompts_embed_their_inputs self q results_json :
  Py.contains q (sql_prompt self q) = true
  /\ Py.contains _load_schema (sql_prompt self q) = true
  /\ (forall ex, ex ∈ examples self ->
        Py.contains (user_question ex) (sql_prompt self q) = true
        /\ Py.contains (sql_schema ex) (sql_prompt self q) = true)
  /\ Py.contains q (answer_prompt q results_json) = true
  /\ Py.contains results_json (answer_prompt q results_json) = true
  /\ (forall rows,
        json_dumps self rows = Returned results_json ->
        forall st log,
          question st = Some q ->
          db_results st = Some rows ->
          rows <> [] ->
          (generate_answer_node self st log).1
          = (log ++ [LlmCall (answer_messages q results_json)])%list).
Proof.
  assert (forall x parts, x ∈ parts -> Py.contains x (Py.text parts) = true)
    as Htext by (intros x parts; apply contains_join).
  split; [apply Htext; set_solver|]. split; [apply Htext; set_solver|].
  split.
  - intros ex Hex.
    assert (forall x, Py.contains x (examples_text self) = true ->
              Py.contains x (sql_prompt self q) = true) as Hin.
    { intros x Hx. apply contains_iff in Hx as (pre & post & Hx).
      assert (Py.contains (examples_text self) (sql_prompt self q) = true)
        as Hp by (apply Htext; set_solver).
      apply contains_iff in Hp as (pre' & post' & Hp).
      apply contains_iff. exists (pre' ++ pre), (post ++ post').
      rewrite Hp, Hx, !append_assoc. done. }
    assert (Py.contains ("Question: " ++ user_question ex ++ Py.nl
                         ++ "SQL: " ++ sql_schema ex) (examples_text self) = true)
      as Hitem.
    { apply contains_join. apply list_elem_of_fmap. by exists ex. }
    apply contains_iff in Hitem as (pre & post & Hitem).
    split; apply Hin, contains_iff.
    + exists (pre ++ "Question: "), (Py.nl ++ "SQL: " ++ sql_schema ex ++ post).
      rewrite Hitem, !append_assoc. done.
    + exists (pre ++ "Question: " ++ user_question ex ++ Py.nl ++ "SQL: "), post.
      rewrite Hitem, !append_assoc. done.
  - split; [apply Htext; set_solver|]. split; [apply Htext; set_solver|].
    intros rows Hjson st log Hq Hrows Hne.
    rewrite (generate_answer_node_eq _ _ q rows) by done.
    destruct rows as [|row rows]; [done|]. by rewrite Hjson.
Qed.

(** ** The scraper *)

Lemma contains_trans a b s :
  Py.contains a b = true -> Py.contains b s = true -> Py.contains a s = true.
Proof.
  rewrite !contains_iff. intros (p1 & q1 & ->) (p2 & q2 & ->).
  exists (p2 ++ p1), (q1 ++ q2). by rewrite !append_assoc.
Qed.

Section Scraper.
Import PhoneScraper.

Lemma first_key_in_mapping spec_name field :
  first_key_in spec_name mapping = Some field ->
  (field ∈ fields) /\ (field ∉ never_mapped).
Proof.
  unfold mapping. cbn [first_key_in].
  repeat
    (match goal with
     | |- (if Py.contains ?key spec_name then _ else _) = _ -> _ =>
         let H := fresh "H" in
         destruct (Py.contains key spec_name) eqn:H;
         [ first
             [ exfalso;
               match goal with
               | Hno : Py.contains ?short spec_name = false |- _ =>
                   rewrite (contains_trans short key spec_name eq_refl H) in Hno;
                   discriminate
               end
             | intros [= <-]; apply (bool_decide_unpack _); vm_compute; exact I ]
         | ]
     end).
  done.
Qed.

Lemma map_specification_cases
    spec_name spec_value section (phone_data : PhoneData) :
  _map_specification spec_name spec_value section phone_data = phone_data
  \/ exists field,
       (field ∈ fields) /\ (field ∉ never_mapped)
       /\ _map_specification spec_name spec_value section phone_data
          = <[field := spec_value]> phone_data.
Proof.
  assert (forall field : string,
            bool_decide ((field ∈ fields) /\ (field ∉ never_mapped)) = true ->
            <[field := spec_value]> phone_data = phone_data
            \/ exists f, (f ∈ fields) /\ (f ∉ never_mapped)
                 /\ <[field := spec_value]> phone_data
                    = <[f := spec_value]> phone_data) as write.
  { intros field Hf. right. exists field.
    apply bool_decide_eq_true in Hf as [? ?]. done. }
  unfold _map_specification.
  destruct (Py.contains "type" spec_name).
  { destruct (String.eqb section "display"); [by apply write|].
    destruct (String.eqb section "battery"); [by apply write|]. by left. }
  destruct (bool_decide (spec_name ∈ camera_counts)).
  { destruct (Py.contains "selfie" section); by apply write. }
  destruct (Py.contains "features" spec_name && Py.contains "camera" section).
  { destruct (Py.contains "selfie" section); by apply write. }
  destruct (Py.contains "video" spec_name && Py.contains "camera" section).
  { destruct (Py.contains "selfie" section); by apply write. }
  destruct (first_key_in spec_name mapping) as [field|] eqn:Hfirst; [|by left].
  right. exists field. by destruct (first_key_in_mapping _ _ Hfirst).
Qed.

(** X9: [_map_specification] leaves the record as it is or writes the
    value to one field, and that field is one of the record's fields
    other than [url], [name], [image_url], [comms_positioning] and
    [misc_sar_eu]. The last two are in [mapping], but every name that
    contains their key contains an earlier key: a [positioning] row is
    written to [platform_os] and a [sar eu] row to [misc_sar]. *)
Theorem map_specification_writes_one_mapped_field
    spec_name spec_value section (phone_data : PhoneData) :
  (_map_specification spec_name spec_value section phone_data = phone_data
   \/ exists field,
        (field ∈ fields) /\ (field ∉ never_mapped)
        /\ _map_specification spec_name spec_value section phone_data
           = <[field := spec_value]> phone_data)
  /\ (forall k,
        k ∈ never_mapped ->
        _map_specification spec_name spec_value section phone_data !! k
        = phone_data !! k)
  /\ (forall k,
        _map_specification spec_name spec_value section phone_data !! k
        <> phone_data !! k ->
        _map_specification spec_name spec_value section phone_data !! k
        = Some spec_value)
  /\ _map_specification "positioning" spec_value "comms" phone_data
     = <["platform_os" := spec_value]> phone_data
  /\ _map_specification "sar eu" spec_value "misc" phone_data
     = <["misc_sar" := spec_value]> phone_data.
Proof.
  pose proof (map_specification_cases spec_name spec_value section phone_data)
    as Hcases.
  split; [exact Hcases|]. split; [|split; [|by split]].
  - intros k Hk. destruct Hcases as [->|(field & _ & Hnot & ->)]; [done|].
    rewrite lookup_insert_ne; [done|]. by intros ->.
  - intros k Hk. destruct Hcases as [Hsame|(field & _ & _ & Hw)].
    + by rewrite Hsame in Hk.
    + rewrite Hw in Hk |- *. rewrite lookup_insert in Hk |- *.
      by destruct (decide (field = k)).
Qed.

Lemma scraped_insert url d field v :
  field ∈ fields ->
  field ∉ ["url"; "comms_positioning"; "misc_sar_eu"] ->
  scraped url d -> scraped url (<[field := v]> d).
Proof.
  intros Hin Hnot (H1 & H2 & H3 & H4).
  assert (field <> "url" /\ field <> "comms_positioning" /\ field <> "misc_sar_eu")
    as (N1 & N2 & N3).
  { repeat split; intros ->; apply Hnot; rewrite !elem_of_cons; auto. }
  split; [by rewrite lookup_insert_ne|]. split; [by rewrite lookup_insert_ne|].
  split; [by rewrite lookup_insert_ne|].
  intros k. rewrite lookup_insert. destruct (decide (field = k)) as [->|].
  - split; [done|]. by eexists.
  - apply H4.
Qed.

Lemma scraped_empty url : scraped url (_create_empty_phone_data url).
Proof.
  unfold _create_empty_phone_data.
  split; [apply lookup_insert_eq|]. split; [by vm_compute|].
  split; [by vm_compute|].
  intros k. rewrite lookup_insert. destruct (decide ("url" = k)) as [<-|Hne].
  - split; [intros _; by left|by eexists].
  - rewrite <- elem_of_dom, dom_list_to_map_L, <- list_fmap_compose.
    rewrite elem_of_list_to_set. cbn [compose fst].
    by rewrite list_fmap_id.
Qed.

Lemma scraped_map_specification url spec_name spec_value section d :
  scraped url d -> scraped url (_map_specification spec_name spec_value section d).
Proof.
  intros Hd.
  destruct (map_specification_cases spec_name spec_value section d)
    as [->|(field & Hin & Hnot & ->)]; [done|].
  apply scraped_insert; [done| |done].
  intros Hbad. apply Hnot. unfold never_mapped.
  rewrite !elem_of_cons in Hbad.
  destruct Hbad as [->|[->|[->|Hbad]]];
    [by apply (bool_decide_unpack _)..|by apply elem_of_nil in Hbad].
Qed.

Lemma scraped_rows url rows : forall section d,
  scraped url d ->
  scraped url (fold_left specification_row rows (section, d)).2.
Proof.
  induction rows as [|row rows IH]; intros section d Hd; [done|].
  cbn [fold_left]. unfold specification_row at 2.
  destruct (th_row row); [by apply IH|].
  destruct (td_ttl row); [|by apply IH].
  destruct (td_nfo row); [|by apply IH].
  by apply IH, scraped_map_specification.
Qed.

Lemma scraped_tables url tbls : forall section d,
  scraped url d ->
  scraped url
    (fold_left (fun state table => fold_left specification_row table state)
       tbls (section, d)).2.
Proof.
  induction tbls as [|table tbls IH]; intros section d Hd; [done|].
  cbn [fold_left].
  destruct (fold_left specification_row table (section, d)) as [section' d'] eqn:E.
  apply IH. change d' with (section', d').2. rewrite <- E. by apply scraped_rows.
Qed.

Lemma scraped_basic_info url soup d :
  scraped url d -> scraped url (_extract_basic_info soup d).
Proof.
  intros Hd. unfold _extract_basic_info.
  assert (scraped url
            match title soup with
            | Some text => <["name" := Py.strip text]> d
            | None => d
            end) as Hname.
  { destruct (title soup); [|done].
    apply scraped_insert; [by apply (bool_decide_unpack _)| |done].
    by apply (bool_decide_unpack _). }
  destruct (photo_src soup) as [src|]; [|done].
  destruct (Py.truthy src); [|done].
  apply scraped_insert; [by apply (bool_decide_unpack _)| |done].
  by apply (bool_decide_unpack _).
Qed.

Lemma scrape_phone_details_scraped self phone_url d :
  scrape_phone_details self phone_url = Some d -> scraped phone_url d.
Proof.
  unfold scrape_phone_details. destruct (fetch self phone_url) as [soup|]; [|done].
  intros [= <-].
  apply (scraped_tables phone_url (tables soup) ""
           (_extract_basic_info soup (_create_empty_phone_data phone_url))).
  apply scraped_basic_info, scraped_empty.
Qed.

Lemma scraped_nonempty url d : scraped url d -> d <> ∅.
Proof. intros (H1 & _) ->. by rewrite lookup_empty in H1. Qed.

(** X10: every record that [scrape_phone_details] returns has the page's
    address under [url], exactly the 47 fields of
    [_create_empty_phone_data] as keys, and the empty text under
    [comms_positioning] and [misc_sar_eu], whatever the page holds. *)
Theorem scraped_record_shape self phone_url d :
  scrape_phone_details self phone_url = Some d ->
  d !! "url" = Some phone_url
  /\ d !! "comms_positioning" = Some ""
  /\ d !! "misc_sar_eu" = Some ""
  /\ (forall k, is_Some (d !! k) <-> k ∈ fields)
  /\ d <> ∅.
Proof.
  intros H. apply scrape_phone_details_scraped in H.
  pose proof (scraped_nonempty _ _ H). by destruct H as (H1 & H2 & H3 & H4).
Qed.

Lemma site_phone_scraped :
  match scrape_phone_details Demo.site
          "https://www.gsmarena.com/samsung_galaxy_s25-1.php" with
  | Some d =>
      d !! "name" = Some "Samsung Galaxy S25"
      /\ d !! "platform_os" = Some "GPS, GALILEO"
      /\ d !! "comms_nfc" = Some "Yes"
      /\ d !! "misc_sar" = Some "0.85 W/kg"
  | None => False
  end.
Proof. vm_compute. repeat split. Qed.

Lemma scraped_record_shape_witness :
  exists d,
    scrape_phone_details Demo.site
      "https://www.gsmarena.com/samsung_galaxy_s25-1.php" = Some d
    /\ d !! "url" = Some "https://www.gsmarena.com/samsung_galaxy_s25-1.php"
    /\ d !! "platform_os" = Some "GPS, GALILEO"
    /\ d !! "comms_positioning" = Some ""
    /\ d !! "misc_sar_eu" = Some "".
Proof.
  pose proof site_phone_scraped as Hsite.
  destruct (scrape_phone_details Demo.site
              "https://www.gsmarena.com/samsung_galaxy_s25-1.php")
    as [d|] eqn:Hd; [|done].
  destruct (scraped_record_shape _ _ _ Hd) as (H1 & H2 & H3 & _).
  destruct Hsite as (_ & Hos & _).
  by exists d.
Defined.

(** ** Listing pages *)

Lemma links_from_stops self k : forall fuel page_num all_links,
  (forall p, page_num <= p < page_num + k -> page_links self p <> []) ->
  page_links self (page_num + k) = [] ->
  k < fuel ->
  links_from self fuel page_num all_links
  = Some (all_links ++ flat_map (page_links self) (seq page_num k))%list.
Proof.
  induction k as [|k IH]; intros fuel page_num all_links Hfull Hend Hfuel.
  - destruct fuel as [|fuel]; [lia|]. rewrite Nat.add_0_r in Hend.
    cbn [links_from seq flat_map]. unfold page_links in Hend.
    rewrite app_nil_r.
    destruct (fetch self (_build_page_url page_num)) as [soup|]; [|done].
    by rewrite Hend.
  - destruct fuel as [|fuel]; [lia|].
    pose proof (Hfull page_num ltac:(lia)) as Hfirst.
    cbn [links_from seq flat_map]. unfold page_links in Hfirst |- * at 1.
    destruct (fetch self (_build_page_url page_num)) as [soup|]; [|done].
    destruct (_extract_phone_links self soup) as [|l ls] eqn:Hlinks; [done|].
    rewrite IH.
    + by rewrite Nat.add_1_r, <- app_assoc.
    + intros p Hp. apply Hfull. lia.
    + rewrite <- Hend. f_equal. lia.
    + lia.
Qed.

Lemma links_from_never_ends self : forall fuel page_num all_links,
  (forall p, page_num <= p -> page_links self p <> []) ->
  links_from self fuel page_num all_links = None.
Proof.
  induction fuel as [|fuel IH]; intros page_num all_links Hfull; [done|].
  pose proof (Hfull page_num ltac:(lia)) as Hfirst.
  cbn [links_from]. unfold page_links in Hfirst.
  destruct (fetch self (_build_page_url page_num)) as [soup|]; [|done].
  destruct (_extract_phone_links self soup) as [|l ls] eqn:Hlinks; [done|].
  apply IH. intros p Hp. apply Hfull. lia.
Qed.

(** X11: when pages 1 to k of the listing have links and page k+1 cannot
    be fetched or has none, [get_all_phone_links] ends after k+1 fetches
    (any larger bound on the number of pages gives the same result) and
    returns the links of pages 1 to k, in page order. *)
Theorem listing_stops_at_first_page_without_links self k fuel :
  (forall p, 1 <= p <= k -> page_links self p <> []) ->
  page_links self (S k) = [] ->
  k < fuel ->
  get_all_phone_links self fuel
  = Some (flat_map (page_links self) (seq 1 k)).
Proof.
  intros Hfull Hend Hfuel. unfold get_all_phone_links.
  rewrite (links_from_stops self k); [done| |done|done].
  intros p Hp. apply Hfull. lia.
Qed.

Lemma listing_stops_at_first_page_without_links_witness :
  get_all_phone_links Demo.site 5
  = Some [ mkLink "https://www.gsmarena.com/samsung_galaxy_s25-1.php"
             "Galaxy S25";
           mkLink "https://www.gsmarena.com/samsung_galaxy_a07-2.php"
             "Galaxy A07" ].
Proof.
  apply (listing_stops_at_first_page_without_links Demo.site 1 5).
  - intros p Hp. assert (p = 1) as -> by lia. by vm_compute.
  - by vm_compute.
  - lia.
Defined.

(** X12: the loop of [get_all_phone_links] has no page limit of its own:
    on a site whose every listing page shows a link it has not ended
    after any number of pages. *)
Theorem listing_never_ends_while_pages_have_links self fuel :
  (forall p, 1 <= p -> page_links self p <> []) ->
  get_all_phone_links self fuel = None.
Proof. intros H. by apply links_from_never_ends. Qed.

(** ** [scrape_all_phones] *)

Lemma scrape_links_appends self links : forall old,
  scrape_links self links old
  = (old ++ scrape_links self links [])%list.
Proof.
  unfold scrape_links.
  induction links as [|l links IH]; intros old; [by rewrite app_nil_r|].
  cbn [fold_left]. rewrite IH. symmetry. rewrite IH. symmetry.
  destruct (scrape_phone_details self (link_url l)) as [d|]; [|done].
  destruct (bool_decide (d = ∅)); [done|]. by rewrite app_nil_l, app_assoc.
Qed.

Lemma listing_never_ends_while_pages_have_links_witness :
  get_all_phone_links Demo.endless_site 1000 = None.
Proof.
  apply listing_never_ends_while_pages_have_links.
  intros p _. unfold page_links, Demo.endless_site. cbn [fetch]. by vm_compute.
Defined.

Lemma scrape_links_each self links :
  scrape_links self links []
  = omap (fun l => scrape_phone_details self (link_url l)) links.
Proof.
  induction links as [|l links IH]; [done|].
  unfold scrape_links in *. cbn [fold_left omap list_omap].
  pose proof (scrape_links_appends self links) as Happ.
  unfold scrape_links in Happ. rewrite Happ, IH.
  destruct (scrape_phone_details self (link_url l)) as [d|] eqn:Hd; [|done].
  apply scrape_phone_details_scraped, scraped_nonempty in Hd.
  by rewrite bool_decide_eq_false_2.
Qed.

Lemma omap_length_le {A B} (f : A -> option B) (l : list A) :
  List.length (omap f l) <= List.length l.
Proof.
  induction l as [|x l IH]; [done|]. cbn [omap list_omap].
  destruct (f x); simpl; change (list_omap _ _ f l) with (omap f l); lia.
Qed.

(** X13: [scrape_all_phones] appends to [self.phones_data] the records of
    the chosen links, in order, leaving out the links whose page cannot
    be fetched; what was there stays in front, so a second call adds
    the records again. A limit of 0 chooses every link, like no limit; a
    positive limit chooses the first [limit] links; a negative limit
    drops that many links from the end. *)
Theorem scrape_all_phones_appends self fuel limit phone_links :
  get_all_phone_links self fuel = Some phone_links ->
  exists chosen added,
    (forall phones_data,
       scrape_all_phones self fuel limit phones_data
       = Some (phones_data ++ added)%list)
    /\ added = omap (fun l => scrape_phone_details self (link_url l)) chosen
    /\ List.length added <= List.length chosen
    /\ (limit = None \/ limit = Some 0%Z -> chosen = phone_links)
    /\ (forall n, limit = Some n -> (0 < n)%Z ->
          chosen = take (Z.to_nat n) phone_links)
    /\ (forall n, limit = Some n -> (n < 0)%Z ->
          chosen = take (List.length phone_links - Z.to_nat (- n)) phone_links).
Proof.
  intros Hlinks.
  exists (match limit with
          | Some n => if (n =? 0)%Z then phone_links else slice_to n phone_links
          | None => phone_links
          end).
  eexists. split.
  { intros phones_data. unfold scrape_all_phones. rewrite Hlinks.
    rewrite scrape_links_appends, scrape_links_each. reflexivity. }
  split; [done|]. split; [apply omap_length_le|].
  split. { by intros [-> | ->]. }
  split.
  - intros n -> Hn. unfold slice_to.
    destruct (n =? 0)%Z eqn:E; [lia|]. by destruct (0 <=? n)%Z eqn:E'; [|lia].
  - intros n -> Hn. unfold slice_to.
    destruct (n =? 0)%Z eqn:E; [lia|]. by destruct (0 <=? n)%Z eqn:E'; [lia|].
Qed.

Lemma site_links_complete :
  exists phone_links, get_all_phone_links Demo.site 5 = Some phone_links.
Proof. eexists. vm_compute. reflexivity. Qed.

Lemma scrape_all_phones_appends_witness :
  exists (chosen : list Link) (added : list PhoneData),
    (forall phones_data,
       scrape_all_phones Demo.site 5 (Some 1%Z) phones_data
       = Some (phones_data ++ added)%list)
    /\ List.length added <= List.length chosen.
Proof.
  destruct site_links_complete as (phone_links & Hlinks).
  destruct (scrape_all_phones_appends Demo.site 5 (Some 1%Z) phone_links Hlinks)
    as (chosen & added & Hall & _ & Hlen & _).
  by exists chosen, added.
Defined.

(** ** Rows for the table *)

(** X14: for every phone dictionary, [_prepare_phone_tuple] gives one
    value per column of the [INSERT] statement, in the order of the
    column list: the dictionary's value, or the empty text for a missing
    key. The 47 columns are distinct and are the scraper's fields; the
    empty dictionary gives 47 empty texts. *)
Theorem insert_tuple_follows_columns (phone : PhoneData) :
  DatabaseManager._prepare_phone_tuple phone
  = map (fun column => default "" (phone !! column))
        DatabaseManager.insert_columns
  /\ List.length (DatabaseManager._prepare_phone_tuple phone) = 47
  /\ NoDup DatabaseManager.insert_columns
  /\ DatabaseManager.insert_columns = fields
  /\ DatabaseManager._prepare_phone_tuple ∅ = replicate 47 "".
Proof.
  split; [reflexivity|]. split; [reflexivity|].
  split; [by apply (bool_decide_unpack _)|]. split; reflexivity.
Qed.

(** X15: for a scraped record no default is needed: every column of the
    [INSERT] gets the record's own value, the first one is the page's
    address, and the values for [comms_positioning] and [misc_sar_eu]
    (columns 35 and 45, counting from 0) are always empty. *)
Theorem scraped_record_fills_every_column self phone_url d :
  scrape_phone_details self phone_url = Some d ->
  Forall2 (fun column value => d !! column = Some value)
    DatabaseManager.insert_columns (DatabaseManager._prepare_phone_tuple d)
  /\ head (DatabaseManager._prepare_phone_tuple d) = Some phone_url
  /\ DatabaseManager._prepare_phone_tuple d !! 35 = Some ""
  /\ DatabaseManager._prepare_phone_tuple d !! 45 = Some ""
  /\ DatabaseManager.insert_columns !! 35 = Some "comms_positioning"
  /\ DatabaseManager.insert_columns !! 45 = Some "misc_sar_eu".
Proof.
  intros H. apply scrape_phone_details_scraped in H as (Hurl & Hpos & Hsar & Hkeys).
  split.
  - change (DatabaseManager._prepare_phone_tuple d)
      with (map (fun column => default "" (d !! column))
              DatabaseManager.insert_columns).
    apply Forall2_fmap_r, Forall_Forall2_diag, Forall_forall.
    intros column Hin.
    assert (is_Some (d !! column)) as [v Hv].
    { apply Hkeys. exact Hin. }
    unfold compose. by rewrite Hv.
  - unfold DatabaseManager._prepare_phone_tuple, DatabaseManager.get.
    cbn [head lookup list_lookup]. by rewrite Hurl, Hpos, Hsar.
Qed.

Lemma scraped_record_fills_every_column_witness :
  exists d,
    scrape_phone_details Demo.site
      "https://www.gsmarena.com/samsung_galaxy_s25-1.php" = Some d
    /\ head (DatabaseManager._prepare_phone_tuple d)
       = Some "https://www.gsmarena.com/samsung_galaxy_s25-1.php"
    /\ DatabaseManager._prepare_phone_tuple d !! 35 = Some "".
Proof.
  pose proof site_phone_scraped as Hsite.
  destruct (scrape_phone_details Demo.site
              "https://www.gsmarena.com/samsung_galaxy_s25-1.php")
    as [d|] eqn:Hd; [|done].
  destruct (scraped_record_fills_every_column _ _ _ Hd) as (_ & H1 & H2 & _).
  by exists d.
Defined.

End Scraper.

(** ** The command-line agent *)

Lemma answer_question_eq (self : PhoneRAGAgent.t) question log :
  PhoneRAGAgent.answer_question self question log =
  let sql_call := LlmCall (PhoneRAGAgent.sql_messages self question) in
  match PhoneRAGAgent.llm self (PhoneRAGAgent.sql_messages self question) with
  | Raised e => ((log ++ [sql_call])%list, Raised e)
  | Returned resp =>
      let sql := PhoneRAGAgent._clean_sql resp in
      if Py.truthy sql then
        match PhoneRAGAgent.db self sql with
        | Raised e => ((log ++ [sql_call; DbCall sql])%list, Raised e)
        | Returned [] =>
            ((log ++ [sql_call; DbCall sql])%list,
             Returned "No results found for your query.")
        | Returned (row :: rows) =>
            match PhoneRAGAgent.json_dumps self (row :: rows) with
            | Raised e => ((log ++ [sql_call; DbCall sql])%list, Raised e)
            | Returned results_json =>
                let summary_call :=
                  LlmCall (PhoneRAGAgent.summary_messages question results_json) in
                ((log ++ [sql_call; DbCall sql; summary_call])%list,
                 match PhoneRAGAgent.llm self
                         (PhoneRAGAgent.summary_messages question results_json) with
                 | Returned reply => Returned (Py.strip reply)
                 | Raised e => Raised e
                 end)
            end
        end
      else ((log ++ [sql_call])%list, Returned "Failed to generate SQL query.")
  end.
Proof.
  unfold PhoneRAGAgent.answer_question, PhoneRAGAgent.generate_sql,
    PhoneRAGAgent._generate_summary, bind, external, internal, ret.
  cbn zeta.
  destruct (PhoneRAGAgent.llm self (PhoneRAGAgent.sql_messages self question))
    as [resp|e]; [|done].
  destruct (Py.truthy (PhoneRAGAgent._clean_sql resp)); cbn [negb]; [|done].
  destruct (PhoneRAGAgent.db self (PhoneRAGAgent._clean_sql resp))
    as [[|row rows]|e]; rewrite <- ?app_assoc; try done.
  destruct (PhoneRAGAgent.json_dumps self _); [|done].
  rewrite <- ?app_assoc. by destruct (PhoneRAGAgent.llm self _).
Qed.

(** X16: the command-line agent does not catch the store's exceptions:
    when the store raises on a non-empty sanitized query,
    [answer_question] raises the same exception after the model call and
    the store call. *)
Theorem answer_question_lets_store_errors_through
    (self : PhoneRAGAgent.t) question log resp e :
  PhoneRAGAgent.llm self (PhoneRAGAgent.sql_messages self question)
  = Returned resp ->
  PhoneRAGAgent._clean_sql resp <> "" ->
  PhoneRAGAgent.db self (PhoneRAGAgent._clean_sql resp) = Raised e ->
  PhoneRAGAgent.answer_question self question log
  = ((log ++ [ LlmCall (PhoneRAGAgent.sql_messages self question);
               DbCall (PhoneRAGAgent._clean_sql resp) ])%list,
     Raised e).
Proof.
  intros Hllm Hsql Hdb. rewrite answer_question_eq. cbn zeta.
  rewrite Hllm, Hdb.
  destruct (PhoneRAGAgent._clean_sql resp); [done|reflexivity].
Qed.

Lemma answer_question_lets_store_errors_through_witness :
  exists log,
    PhoneRAGAgent.answer_question
      (Demo.cli (Returned "no;") (Raised "syntax error") (Returned "unused"))
      "Which phones have 5G?" []
    = (log, Raised "syntax error")
    /\ last log = Some (DbCall "no").
Proof.
  eexists. split.
  - apply (answer_question_lets_store_errors_through
             (Demo.cli (Returned "no;") (Raised "syntax error")
                (Returned "unused"))
             "Which phones have 5G?" [] "no;" "syntax error");
      [reflexivity|by vm_compute|reflexivity].
  - reflexivity.
Defined.

(** X25: nor does it catch the exception of [json.dumps]. When the store
    returns rows that [json.dumps] cannot serialize, [answer_question]
    raises that exception after the store call, and the model is not
    asked for a summary. *)
Theorem answer_question_lets_json_errors_through
    (self : PhoneRAGAgent.t) question log resp rows e :
  PhoneRAGAgent.llm self (PhoneRAGAgent.sql_messages self question)
  = Returned resp ->
  PhoneRAGAgent._clean_sql resp <> "" ->
  PhoneRAGAgent.db self (PhoneRAGAgent._clean_sql resp) = Returned rows ->
  rows <> [] ->
  PhoneRAGAgent.json_dumps self rows = Raised e ->
  PhoneRAGAgent.answer_question self question log
  = ((log ++ [ LlmCall (PhoneRAGAgent.sql_messages self question);
               DbCall (PhoneRAGAgent._clean_sql resp) ])%list,
     Raised e).
Proof.
  intros Hllm Hsql Hdb Hrows Hjson. rewrite answer_question_eq. cbn zeta.
  rewrite Hllm, Hdb.
  destruct (PhoneRAGAgent._clean_sql resp); [done|]. cbn [Py.truthy].
  destruct rows as [|row rows]; [done|]. by rewrite Hjson.
Qed.

Lemma answer_question_lets_json_errors_through_witness :
  exists log,
    PhoneRAGAgent.answer_question
      (Demo.cli (Returned Stub.select_all) (Returned Stub.dated_rows)
         (Returned "unused"))
      "Show me one phone" []
    = (log, Raised "Object of type datetime is not JSON serializable")
    /\ last log = Some (DbCall Stub.select_all).
Proof.
  eexists. split.
  - apply (answer_question_lets_json_errors_through
             (Demo.cli (Returned Stub.select_all) (Returned Stub.dated_rows)
                (Returned "unused"))
             "Show me one phone" [] Stub.select_all Stub.dated_rows);
      [reflexivity|by vm_compute|reflexivity|done|reflexivity].
  - reflexivity.
Defined.

(** X17: [answer_question] calls the store exactly when the sanitized
    model output is not empty, and with that text: there is no minimal
    length, and an empty query is never sent. *)
Theorem answer_question_store_calls (self : PhoneRAGAgent.t) question log sql :
  DbCall sql ∈ drop (List.length log)
                 (PhoneRAGAgent.answer_question self question log).1
  <-> exists resp,
        PhoneRAGAgent.llm self (PhoneRAGAgent.sql_messages self question)
        = Returned resp
        /\ sql = PhoneRAGAgent._clean_sql resp
        /\ sql <> "".
Proof.
  rewrite answer_question_eq. cbn zeta.
  destruct (PhoneRAGAgent.llm self (PhoneRAGAgent.sql_messages self question))
    as [resp|e] eqn:Hllm.
  2:{ cbn [fst]. rewrite drop_app_length. split.
      - intros Hin. apply list_elem_of_singleton in Hin. done.
      - intros (resp & Hresp & _). done. }
  destruct (PhoneRAGAgent._clean_sql resp) as [|c s] eqn:Hsql; cbn [Py.truthy].
  { cbn [fst]. rewrite drop_app_length. split.
    - intros Hin. apply list_elem_of_singleton in Hin. done.
    - intros (resp' & [= <-] & -> & Hne). done. }
  assert (DbCall sql ∈ [ LlmCall (PhoneRAGAgent.sql_messages self question);
                         DbCall (String c s) ]
          <-> sql = String c s) as Htwo.
  { rewrite !elem_of_cons, elem_of_nil. split.
    - intros [?|[[= ->]|?]]; done.
    - intros ->. right. by left. }
  assert (forall x, DbCall sql ∈ [ LlmCall (PhoneRAGAgent.sql_messages self question);
                         DbCall (String c s); LlmCall x ]
          <-> sql = String c s) as Hthree.
  { intros x. rewrite !elem_of_cons, elem_of_nil. split.
    - intros [?|[[= ->]|[?|?]]]; done.
    - intros ->. right. by left. }
  assert ((exists resp', Returned resp = Returned resp'
            /\ sql = PhoneRAGAgent._clean_sql resp' /\ sql <> "")
          <-> sql = String c s) as Hex.
  { split.
    - intros (resp' & [= <-] & -> & _). done.
    - intros ->. exists resp. by rewrite Hsql. }
  rewrite Hex.
  destruct (PhoneRAGAgent.db self (String c s)) as [[|row rows]|e];
    [|destruct (PhoneRAGAgent.json_dumps self _)|];
    cbn [fst]; rewrite drop_app_length; auto.
Qed.

(** X18: when [answer_question] returns, its answer is the fixed failure
    message (empty sanitized SQL, the store not called), the fixed
    no-results message (the store returned no rows, one model call), or
    the model's summary with the surrounding white space stripped. *)
Theorem answer_question_answers (self : PhoneRAGAgent.t) question log log' a :
  PhoneRAGAgent.answer_question self question log = (log', Returned a) ->
  exists resp,
    PhoneRAGAgent.llm self (PhoneRAGAgent.sql_messages self question)
    = Returned resp
    /\ ((PhoneRAGAgent._clean_sql resp = ""
         /\ a = "Failed to generate SQL query."
         /\ log' = (log ++ [LlmCall (PhoneRAGAgent.sql_messages self question)])%list)
        \/ (PhoneRAGAgent.db self (PhoneRAGAgent._clean_sql resp) = Returned []
            /\ a = "No results found for your query."
            /\ log' = (log ++ [ LlmCall (PhoneRAGAgent.sql_messages self question);
                                DbCall (PhoneRAGAgent._clean_sql resp) ])%list)
        \/ exists rows results_json reply,
             PhoneRAGAgent.db self (PhoneRAGAgent._clean_sql resp) = Returned rows
             /\ rows <> []
             /\ PhoneRAGAgent.json_dumps self rows = Returned results_json
             /\ PhoneRAGAgent.llm self
                  (PhoneRAGAgent.summary_messages question results_json)
                = Returned reply
             /\ a = Py.strip reply
             /\ log' = (log ++ [ LlmCall (PhoneRAGAgent.sql_messages self question);
                                 DbCall (PhoneRAGAgent._clean_sql resp);
                                 LlmCall (PhoneRAGAgent.summary_messages
                                            question results_json) ])%list).
Proof.
  rewrite answer_question_eq. cbn zeta.
  destruct (PhoneRAGAgent.llm self (PhoneRAGAgent.sql_messages self question))
    as [resp|e] eqn:Hllm; [|done].
  intros H. exists resp. split; [done|].
  destruct (PhoneRAGAgent._clean_sql resp) as [|c s] eqn:Hsql; cbn [Py.truthy] in H.
  { injection H as <- <-. by left. }
  destruct (PhoneRAGAgent.db self (String c s)) as [[|row rows]|e] eqn:Hdb; [| |done].
  { injection H as <- <-. right. by left. }
  destruct (PhoneRAGAgent.json_dumps self (row :: rows))
    as [results_json|e] eqn:Hjson; [|done].
  destruct (PhoneRAGAgent.llm self
              (PhoneRAGAgent.summary_messages question results_json))
    as [reply|e] eqn:Hans; [|done].
  injection H as <- <-. right. right.
  by exists (row :: rows), results_json, reply.
Qed.

Lemma cli_no_results_complete :
  exists log,
    PhoneRAGAgent.answer_question
      (Demo.cli (Returned Stub.query_5g) (Returned []) (Returned "unused"))
      "Which phones have 5G?" []
    = (log, Returned "No results found for your query.").
Proof. eexists. vm_compute. reflexivity. Qed.

Lemma answer_question_answers_witness :
  exists log resp,
    PhoneRAGAgent.answer_question
      (Demo.cli (Returned Stub.query_5g) (Returned []) (Returned "unused"))
      "Which phones have 5G?" []
    = (log, Returned "No results found for your query.")
    /\ PhoneRAGAgent.llm
         (Demo.cli (Returned Stub.query_5g) (Returned []) (Returned "unused"))
         (PhoneRAGAgent.sql_messages
            (Demo.cli (Returned Stub.query_5g) (Returned [])
               (Returned "unused"))
            "Which phones have 5G?")
       = Returned resp.
Proof.
  destruct cli_no_results_complete as (log & Hrun).
  destruct (answer_question_answers _ _ _ _ _ Hrun) as (resp & Hresp & _).
  by exists log, resp.
Defined.

(** ** Result rows *)

Lemma getitem_setitem items k v k' :
  Cursor.getitem (Cursor.setitem items k v) k'
  = if String.eqb k k' then Some v else Cursor.getitem items k'.
Proof.
  induction items as [|[k0 v0] items IH]; cbn [Cursor.setitem Cursor.getitem].
  - done.
  - destruct (String.eqb k0 k) eqn:E0; cbn [Cursor.getitem].
    + apply String.eqb_eq in E0 as ->. by destruct (String.eqb k k').
    + rewrite IH. destruct (String.eqb k0 k') eqn:E1; [|done].
      apply String.eqb_eq in E1 as <-.
      destruct (String.eqb k k0) eqn:E2; [|done].
      apply String.eqb_eq in E2 as ->. by rewrite String.eqb_refl in E0.
Qed.

Lemma keys_setitem items k v :
  (Cursor.setitem items k v).*1
  = if bool_decide (k ∈ items.*1) then items.*1 else (items.*1 ++ [k])%list.
Proof.
  induction items as [|[k0 v0] items IH]; cbn [Cursor.setitem]; [done|].
  destruct (String.eqb k0 k) eqn:E0.
  - apply String.eqb_eq in E0 as ->. cbn [fmap list_fmap fst].
    rewrite bool_decide_eq_true_2; [done|by left].
  - apply String.eqb_neq in E0. cbn [fmap list_fmap fst]. 
    change (list_fmap _ _ fst ?l) with (l.*1). rewrite IH.
    destruct (bool_decide (k ∈ items.*1)) eqn:Hin.
    + apply bool_decide_eq_true in Hin.
      rewrite bool_decide_eq_true_2; [done|by right].
    + apply bool_decide_eq_false in Hin.
      rewrite bool_decide_eq_false_2; [done|].
      intros [?|?]%elem_of_cons; done.
Qed.

Lemma nodup_setitem items k v :
  NoDup items.*1 -> NoDup (Cursor.setitem items k v).*1.
Proof.
  intros H. rewrite keys_setitem.
  destruct (bool_decide (k ∈ items.*1)) eqn:Hin; [done|].
  apply bool_decide_eq_false in Hin.
  apply NoDup_app. split; [done|]. split; [|apply NoDup_singleton].
  intros x Hx ->%list_elem_of_singleton. done.
Qed.

Lemma fold_setitem_nodup l : forall acc : Row,
  NoDup acc.*1 ->
  NoDup (fold_left (fun items kv => Cursor.setitem items kv.1 kv.2) l acc).*1.
Proof.
  induction l as [|[k v] l IH]; intros acc H; [done|].
  cbn [fold_left]. by apply IH, nodup_setitem.
Qed.

Lemma fold_setitem_getitem c l : forall acc : Row,
  Cursor.getitem (fold_left (fun items kv => Cursor.setitem items kv.1 kv.2) l acc) c
  = match last (filter (fun kv => kv.1 = c) l) with
    | Some kv => Some kv.2
    | None => Cursor.getitem acc c
    end.
Proof.
  induction l as [|[k v] l IH]; intros acc; [done|].
  cbn [fold_left]. rewrite IH, filter_cons. cbn [fst snd].
  destruct (decide (k = c)) as [->|Hne].
  - destruct (filter _ l) as [|kv' l'] eqn:Hf.
    + cbn [last]. by rewrite getitem_setitem, String.eqb_refl.
    + change (last ((c, v) :: kv' :: l')) with (last (kv' :: l')).
      destruct (last (kv' :: l')) eqn:E; [done|]. by apply last_None in E.
  - destruct (last (filter _ l)); [done|].
    rewrite getitem_setitem. by apply String.eqb_neq in Hne as ->.
Qed.

Lemma fold_setitem_fresh l : forall acc : Row,
  NoDup (acc.*1 ++ l.*1) ->
  fold_left (fun items kv => Cursor.setitem items kv.1 kv.2) l acc
  = (acc ++ l)%list.
Proof.
  induction l as [|[k v] l IH]; intros acc H; [by rewrite app_nil_r|].
  cbn [fold_left fst snd].
  assert (Cursor.setitem acc k v = (acc ++ [(k, v)])%list) as ->.
  { assert (k ∉ acc.*1) as Hk.
    { apply NoDup_app in H as (_ & Hdis & _). intros Hin.
      apply (Hdis k Hin). by left. }
    clear -Hk. induction acc as [|[k0 v0] acc IHa]; [done|].
    cbn [Cursor.setitem].
    destruct (String.eqb k0 k) eqn:E.
    - apply String.eqb_eq in E as ->. exfalso. apply Hk. by left.
    - cbn [app]. rewrite IHa; [done|]. intros Hin. apply Hk. by right. }
  rewrite IH.
  - by rewrite <- app_assoc.
  - rewrite fmap_app. cbn [fmap list_fmap fst]. by rewrite <- app_assoc.
Qed.

(** X19: the dictionary that [execute_query] builds for a tuple has each
    column name once, and under a name the value of the last column of
    that name; with distinct column names it is the columns paired with
    the values, in order. *)
Theorem dict_zip_keeps_last_value_per_column columns row :
  NoDup (Cursor.dict_zip columns row).*1
  /\ (forall c,
        Cursor.getitem (Cursor.dict_zip columns row) c
        = snd <$> last (filter (fun kv => kv.1 = c) (zip columns row)))
  /\ (NoDup columns -> Cursor.dict_zip columns row = zip columns row).
Proof.
  unfold Cursor.dict_zip. split; [apply fold_setitem_nodup; constructor|].
  split.
  - intros c. rewrite fold_setitem_getitem. by destruct (last _).
  - intros Hnd. rewrite fold_setitem_fresh; [done|]. cbn [fmap list_fmap app].
    clear -Hnd. revert row. induction columns as [|c columns IH]; intros row.
    + constructor.
    + destruct row as [|v row]; [constructor|]. cbn [zip_with fmap list_fmap fst].
      apply NoDup_cons in Hnd as [Hc Hnd]. apply NoDup_cons. split; [|by apply IH].
      intros Hin. apply Hc. apply list_elem_of_fmap in Hin as ([k v'] & -> & Hin).
      by apply elem_of_zip_l in Hin.
Qed.

Lemma execute_query_eq cursor query :
  Cursor.execute_query cursor query =
  match Cursor.execute cursor query with
  | Raised e => ([Cursor.Execute query], Raised e)
  | Returned description =>
      match Cursor.fetchall cursor query with
      | Cursor.OtherError e =>
          ([Cursor.Execute query; Cursor.Fetchall], Raised e)
      | fetched =>
          ([Cursor.Execute query; Cursor.Fetchall; Cursor.Commit],
           match Cursor.commit cursor query with
           | Raised e => Raised e
           | Returned _ =>
               Returned
                 (map (Cursor.dict_zip (default [] description))
                    match fetched with
                    | Cursor.Tuples results => results
                    | _ => []
                    end)
           end)
      end
  end.
Proof.
  unfold Cursor.execute_query, Cursor.fetch_results.
  destruct (Cursor.execute cursor query) as [[names|]|e]; [| |done];
    destruct (Cursor.fetchall cursor query) as [results|e|e]; try done;
    by destruct (Cursor.commit cursor query).
Qed.

(** X20: [execute_query] returns only after [commit] has returned.
    [commit] is called exactly when [execute] returned and [fetchall]
    returned or raised [ProgrammingError], so also for a statement
    without a result set, whose result is the empty list. An exception
    of [execute], of [fetchall] other than [ProgrammingError], or of
    [commit] leaves [execute_query], and nothing is called on the driver
    after it. A fetched result gives one dictionary per tuple, each
    empty when the cursor has no description. *)
Theorem execute_query_returns_only_after_commit cursor query :
  let outcome := Cursor.execute_query cursor query in
  let went_through :=
    (exists description, Cursor.execute cursor query = Returned description)
    /\ (forall e, Cursor.fetchall cursor query <> Cursor.OtherError e) in
  (Cursor.Commit ∈ outcome.1 <-> went_through)
  /\ ((exists rows, outcome.2 = Returned rows)
      <-> went_through /\ Cursor.commit cursor query = Returned tt)
  /\ (forall e,
        Cursor.execute cursor query = Raised e ->
        outcome = ([Cursor.Execute query], Raised e))
  /\ (forall description e,
        Cursor.execute cursor query = Returned description ->
        Cursor.fetchall cursor query = Cursor.OtherError e ->
        outcome = ([Cursor.Execute query; Cursor.Fetchall], Raised e))
  /\ (forall e,
        went_through ->
        Cursor.commit cursor query = Raised e ->
        outcome
        = ([Cursor.Execute query; Cursor.Fetchall; Cursor.Commit], Raised e))
  /\ (forall description e,
        Cursor.execute cursor query = Returned description ->
        Cursor.fetchall cursor query = Cursor.ProgrammingError e ->
        Cursor.commit cursor query = Returned tt ->
        outcome
        = ([Cursor.Execute query; Cursor.Fetchall; Cursor.Commit],
           Returned []))
  /\ (forall description results,
        Cursor.execute cursor query = Returned description ->
        Cursor.fetchall cursor query = Cursor.Tuples results ->
        Cursor.commit cursor query = Returned tt ->
        exists rows,
          outcome
          = ([Cursor.Execute query; Cursor.Fetchall; Cursor.Commit],
             Returned rows)
          /\ rows = map (Cursor.dict_zip (default [] description)) results
          /\ List.length rows = List.length results
          /\ (description = None -> Forall (fun row => row = []) rows)).
Proof.
  intros outcome went_through. subst outcome went_through.
  rewrite execute_query_eq.
  destruct (Cursor.execute cursor query) as [description|e0] eqn:Hexec.
  2:{ split.
      { cbn [fst]. rewrite list_elem_of_singleton. split; [done|].
        by intros [[d Hd] _]. }
      split; [split; [by intros [rows Hrows]|by intros [[[d Hd] _] _]]|].
      split; [by intros e [= <-]|]. split; [done|].
      split; [by intros e [[d Hd] _]|]. split; done. }
  destruct (Cursor.fetchall cursor query) as [results|e1|e1] eqn:Hfetch.
  - split.
    { cbn [fst]. split; [|intros _; rewrite !elem_of_cons; auto].
      intros _. split; [by eexists|done]. }
    split.
    { cbn [snd]. destruct (Cursor.commit cursor query) as [[]|e2].
      - split; [|by eexists]. intros _. split; [|done].
        split; [by eexists|done].
      - split; [by intros [rows Hrows]|by intros [_ H]]. }
    split; [done|]. split; [done|].
    split; [by intros e _ ->|]. split; [done|].
    intros d results' [= <-] [= <-] ->. eexists. split; [reflexivity|].
    split; [reflexivity|]. split; [by rewrite length_map|].
    intros ->. apply Forall_forall. intros row Hrow.
    apply list_elem_of_fmap in Hrow as (tuple & -> & _). done.
  - split.
    { cbn [fst]. split; [|intros _; rewrite !elem_of_cons; auto].
      intros _. split; [by eexists|done]. }
    split.
    { cbn [snd]. destruct (Cursor.commit cursor query) as [[]|e2].
      - split; [|by eexists]. intros _. split; [|done].
        split; [by eexists|done].
      - split; [by intros [rows Hrows]|by intros [_ H]]. }
    split; [done|]. split; [done|].
    split; [by intros e _ ->|]. split; [|done].
    by intros d e _ _ ->.
  - split.
    { cbn [fst]. rewrite !elem_of_cons, elem_of_nil. split.
      - intros [H|[H|H]]; done.
      - intros [_ H]. by destruct (H e1). }
    split.
    { cbn [snd]. split; [by intros [rows Hrows]|].
      intros [[_ H] _]. by destruct (H e1). }
    split; [done|]. split; [by intros d e _ [= <-]|].
    split; [intros e [_ H]; by destruct (H e1)|]. split; done.
Qed.

(** X21: the graph agent over [execute_query] runs whatever statement the
    model writes. A valid statement that has no result set, on a thread
    without an error on record, is executed and, when [commit] returns,
    committed, and the turn ends with the fixed no-results answer. *)
Theorem statement_without_result_set_is_committed self cursor q st log resp
    description e :
  db self = (fun query => (Cursor.execute_query cursor query).2) ->
  llm self (sql_messages self q) = Returned resp ->
  10 < String.length (_clean_sql resp) ->
  Cursor.execute cursor (_clean_sql resp) = Returned description ->
  Cursor.fetchall cursor (_clean_sql resp) = Cursor.ProgrammingError e ->
  Cursor.commit cursor (_clean_sql resp) = Returned tt ->
  has_error st = false ->
  Cursor.execute_query cursor (_clean_sql resp)
  = ([ Cursor.Execute (_clean_sql resp); Cursor.Fetchall; Cursor.Commit ],
     Returned [])
  /\ exists events final,
       run_graph self (question_input q) st log
       = ((log ++ [LlmCall (sql_messages self q); DbCall (_clean_sql resp)])%list,
          Returned (events, final))
       /\ final_answer final = Some no_results_answer
       /\ error final = error st.
Proof.
  intros Hdb Hllm Hlen Hexec Hfetch Hcommit Herr.
  assert (Cursor.execute_query cursor (_clean_sql resp)
          = ([ Cursor.Execute (_clean_sql resp); Cursor.Fetchall;
               Cursor.Commit ], Returned []))
    as Hq by (by rewrite execute_query_eq, Hexec, Hfetch, Hcommit).
  split; [done|].
  assert (db self (_clean_sql resp) = Returned []) as Hrows
    by (by rewrite Hdb, Hq).
  pose proof (turn_no_rows self q st resp Hllm Hlen Hrows Herr) as T.
  eexists _, _. split; [apply (turn_sound _ _ _ _ _ T)|]. by split.
Qed.

Lemma statement_without_result_set_is_committed_witness :
  Cursor.execute_query Demo.write_cursor Demo.delete_statement
  = ([ Cursor.Execute Demo.delete_statement; Cursor.Fetchall; Cursor.Commit ],
     Returned [])
  /\ exists events final,
       run_graph Demo.deleting_agent (question_input "Remove every phone")
         empty_state []
       = ([ LlmCall (sql_messages Demo.deleting_agent "Remove every phone");
            DbCall Demo.delete_statement ],
          Returned (events, final))
       /\ final_answer final = Some no_results_answer.
Proof.
  destruct (statement_without_result_set_is_committed Demo.deleting_agent
              Demo.write_cursor "Remove every phone" empty_state []
              Demo.delete_statement None "no results to fetch"
              eq_refl eq_refl ltac:(vm_compute; lia) eq_refl eq_refl eq_refl
              eq_refl)
    as (Hq & events & final & Hrun & Hanswer & _).
  split; [exact Hq|]. by exists events, final.
Defined.

(** ** The HTTP layer *)

Lemma api_ask_question_eq agent fresh now request cp log :
  Api.ask_question (Some agent) fresh now request cp log =
  match ask agent (Api.question request) (Api.thread_of request fresh) cp log with
  | (log', Returned (result, cp')) =>
      (log', Returned (Api.Ok (Api.mkQuestionResponse (r_answer result)
                                 (r_sql_query result) (r_results result)
                                 (Api.thread_of request fresh) now),
                       Some cp'))
  | (log', Raised e) =>
      (log', Returned (Api.HTTPException 500 ("Error processing question: " ++ e),
                       None))
  end.
Proof.
  unfold Api.ask_question, try_except, bind, ret.
  by destruct (ask _ _ _ _ _) as [log' [[result cp']|e]].
Qed.

(** X22: [POST /ask] always produces a response. Without an agent it is
    503, with nothing called. With an agent, the exception of a node of
    the turn becomes the response 500 whose detail is
    [Error processing question: ] followed by the exception's text, also
    when it is [json.dumps] that raises on the rows. No other error
    status is produced, and a body comes from a turn that reached [END]:
    it carries the answer and the SQL of that turn, the thread id of the
    call and the timestamp. *)
Theorem api_ask_question_never_raises rag_agent fresh now request cp log :
  let thread_id := Api.thread_of request fresh in
  let state := thread_state cp thread_id in
  exists log' response cp',
    Api.ask_question rag_agent fresh now request cp log
    = (log', Returned (response, cp'))
    /\ (rag_agent = None ->
        response = Api.HTTPException 503 "RAG agent not initialized"
        /\ log' = log)
    /\ (forall status detail,
          response = Api.HTTPException status detail ->
          (status = 503 /\ rag_agent = None)
          \/ (status = 500
              /\ Py.startswith "Error processing question: " detail = true))
    /\ (forall agent calls e,
          rag_agent = Some agent ->
          Fault agent (Api.question request) state calls e ->
          response
          = Api.HTTPException 500 ("Error processing question: " ++ e)
          /\ log' = (log ++ calls)%list)
    /\ (forall body,
          response = Api.Ok body ->
          exists agent calls events,
            rag_agent = Some agent
            /\ Turn agent (Api.question request) state calls events
            /\ log' = (log ++ calls)%list
            /\ Api.response_thread_id body = thread_id
            /\ Api.timestamp body = now
            /\ let final :=
                 replay events
                   (apply_update (question_input (Api.question request)) state)
               in
               Api.answer body = default "" (final_answer final)
               /\ Api.sql_query body = default "" (sql_query final)).
Proof.
  intros thread_id state. destruct rag_agent as [agent|].
  2:{ eexists _, _, _. split; [reflexivity|]. split; [done|].
      split; [intros ? ? [= <- <-]; by left|]. split; done. }
  rewrite api_ask_question_eq, ask_eq. fold thread_id. fold state.
  destruct (run_graph agent (question_input (Api.question request)) state log)
    as [log' [[events final]|e]] eqn:Hrun.
  - eexists _, _, _. split; [reflexivity|]. split; [done|].
    split; [done|].
    apply turn_complete in Hrun as (calls & -> & -> & T). split.
    + intros ? calls' e [= <-] F.
      pose proof (turn_sound _ _ _ _ _ T log) as H1.
      pose proof (fault_sound _ _ _ _ _ F log) as H2. congruence.
    + intros body [= <-]. by exists agent, calls, events.
  - eexists _, _, _. split; [reflexivity|]. split; [done|]. split.
    { intros ? ? [= <- <-]. right. split; [done|].
      apply startswith_iff. by exists e. }
    apply fault_complete in Hrun as (calls & -> & F). split; [|done].
    intros ? calls' e' [= <-] F'.
    pose proof (fault_sound _ _ _ _ _ F log) as H1.
    pose proof (fault_sound _ _ _ _ _ F' log) as H2.
    rewrite H1 in H2. injection H2 as Hcalls <-. by rewrite Hcalls.
Qed.

Lemma api_ask_question_never_raises_witness :
  exists log cp,
    Api.ask_question (Some Stub.every_column) "0b9d" "2025-01-01T00:00:00"
      (Api.mkQuestionRequest "Show me one phone" None) ∅ []
    = (log,
       Returned
         (Api.HTTPException 500
            "Error processing question: Object of type datetime is not JSON serializable",
          cp)).
Proof.
  destruct (api_ask_question_never_raises (Some Stub.every_column) "0b9d"
              "2025-01-01T00:00:00"
              (Api.mkQuestionRequest "Show me one phone" None) ∅ [])
    as (log & response & cp & Hrun & _ & _ & Hfault & _).
  destruct (Hfault Stub.every_column
              [ LlmCall (sql_messages Stub.every_column "Show me one phone");
                DbCall Stub.select_all ]
              "Object of type datetime is not JSON serializable" eq_refl)
    as [Hresponse _].
  { apply (fault_json_dumps Stub.every_column "Show me one phone" _
             Stub.select_all Stub.dated_rows);
      [reflexivity|vm_compute; lia|reflexivity|done|reflexivity|reflexivity]. }
  exists log, cp. by rewrite Hrun, Hresponse.
Defined.

Lemma format_message_utterance msgs :
  map Api.format_message msgs
  = map (fun u : MessageType * string =>
           Api.mkFormattedMessage
             (if decide (u.1 = human) then "user" else "assistant") u.2)
        (map utterance msgs).
Proof.
  rewrite map_map. apply map_ext. intros [ty c i].
  unfold Api.format_message, utterance. cbn. by destruct ty.
Qed.

(** X24: [GET /thread/{id}] answers for a thread that was never used with
    an empty list, not an error; after a sequence of completed calls to
    [ask] it lists, for the calls made on that thread and in their
    order, a [user] entry with the question and an [assistant] entry
    with the answer. *)
Theorem api_thread_history_lists_the_turns agent requests cp log log' results cp' t :
  ask_all requests cp log = (log', Returned (results, cp')) ->
  cp !! t = None ->
  Api.get_thread_history (Some agent) t cp = Api.Ok (Api.mkThreadResponse t [])
  /\ Api.get_thread_history (Some agent) t cp'
     = Api.Ok (Api.mkThreadResponse t
         (flat_map
            (fun rr : Request * AskResult =>
               if decide (req_thread rr.1 = t)
               then [ Api.mkFormattedMessage "user" (req_question rr.1);
                      Api.mkFormattedMessage "assistant" (r_answer rr.2) ]
               else [])
            (zip requests results))).
Proof.
  intros Hrun Hnew. unfold Api.get_thread_history.
  assert (get_conversation_history t cp = []) as Hempty
    by (unfold get_conversation_history, thread_state; by rewrite Hnew).
  split; [by rewrite Hempty|].
  rewrite format_message_utterance.
  destruct (ask_all_history _ _ _ _ _ _ Hrun) as [Hlen Hhist].
  rewrite Hhist, Hempty. cbn [map app]. do 2 f_equal.
  clear -Hlen. revert results Hlen.
  induction requests as [|r requests IH]; intros [|res results] Hlen; try done.
  cbn [turns_of zip_with flat_map]. rewrite map_app, IH by (simpl in Hlen; lia).
  cbn [fst snd]. by destruct (decide (req_thread r = t)).
Qed.

Lemma api_thread_history_lists_the_turns_witness :
  exists log results cp,
    ask_all Stub.three_calls ∅ [] = (log, Returned (results, cp))
    /\ Api.get_thread_history (Some Stub.working) "never used" ∅
       = Api.Ok (Api.mkThreadResponse "never used" [])
    /\ exists entries,
         Api.get_thread_history (Some Stub.working) "t" cp
         = Api.Ok (Api.mkThreadResponse "t" entries).
Proof.
  destruct three_calls_complete as (log & results & cp & Hrun).
  exists log, results, cp. split; [exact Hrun|].
  destruct (api_thread_history_lists_the_turns Stub.working _ _ _ _ _ _
              "never used" Hrun (lookup_empty _)) as [Hnew _].
  destruct (api_thread_history_lists_the_turns Stub.working _ _ _ _ _ _
              "t" Hrun (lookup_empty _)) as [_ Hthread].
  split; [exact Hnew|]. by eexists.
Defined.

(** X23: a successful [POST /ask] answers under the thread id of the
    request, or under the fresh id when the request has none or the
    empty text; the history of that thread is then what it was followed
    by the [user] question and the [assistant] answer of the response,
    and no other thread has changed. *)
Theorem api_ask_question_thread agent fresh now request cp log log' body cp' :
  Api.ask_question (Some agent) fresh now request cp log
  = (log', Returned (Api.Ok body, Some cp')) ->
  let t := Api.response_thread_id body in
  t = Api.thread_of request fresh
  /\ (forall id, Api.thread_id request = Some id -> id <> "" -> t = id)
  /\ (Api.thread_id request = None \/ Api.thread_id request = Some "" -> t = fresh)
  /\ (exists earlier,
        Api.get_thread_history (Some agent) t cp
        = Api.Ok (Api.mkThreadResponse t earlier)
        /\ Api.get_thread_history (Some agent) t cp'
           = Api.Ok (Api.mkThreadResponse t
               (earlier ++ [ Api.mkFormattedMessage "user" (Api.question request);
                             Api.mkFormattedMessage "assistant" (Api.answer body) ])))
  /\ (forall t', t' <> t -> cp' !! t' = cp !! t').
Proof.
  rewrite api_ask_question_eq.
  destruct (ask agent (Api.question request) (Api.thread_of request fresh) cp log)
    as [log1 [[result cp1]|e]] eqn:Hask; [|done].
  intros [= <- <- <-]. cbn [Api.response_thread_id Api.answer].
  split; [done|]. split.
  { intros id Hid Hne. unfold Api.thread_of. rewrite Hid. by destruct id. }
  split.
  { intros [H|H]; unfold Api.thread_of; by rewrite H. }
  split.
  - eexists. split; [reflexivity|]. unfold Api.get_thread_history.
    rewrite !format_message_utterance,
      (ask_history _ _ _ _ _ _ _ _ Hask (Api.thread_of request fresh)).
    rewrite decide_True by done. by rewrite map_app.
  - intros t' Hne. rewrite ask_eq in Hask.
    destruct (run_graph _ _ _ _) as [log2 [[events final]|e]]; [|done].
    injection Hask as <- <- <-. by rewrite lookup_insert_ne.
Qed.

Lemma api_call_complete :
  exists log body cp,
    Api.ask_question (Some Stub.working) "0b9d" "2025-01-01T00:00:00"
      (Api.mkQuestionRequest "Which phones have 5G?" (Some "")) ∅ []
    = (log, Returned (Api.Ok body, Some cp)).
Proof. eexists _, _, _. vm_compute. reflexivity. Qed.

Lemma api_ask_question_thread_witness :
  exists log body cp,
    Api.ask_question (Some Stub.working) "0b9d" "2025-01-01T00:00:00"
      (Api.mkQuestionRequest "Which phones have 5G?" (Some "")) ∅ []
    = (log, Returned (Api.Ok body, Some cp))
    /\ Api.response_thread_id body = "0b9d".
Proof.
  destruct api_call_complete as (log & body & cp & Hrun).
  exists log, body, cp. split; [exact Hrun|].
  destruct (api_ask_question_thread _ _ _ _ _ _ _ _ _ Hrun) as (_ & _ & H & _).
  apply H. by right.
Defined.
